(** * The tiered answer pipeline of the chatbot, embedded in Rocq

    The development follows the TypeScript sources:
    - [lib/gemini.ts]  : [judgeContextRelevance], [generateInternalAnswer],
                         [generateWebSearchAnswer];
    - [lib/openai.ts]  : [generateEmbedding];
    - [app/api/chat/route.ts] : [addToAdminQueue] and the [POST] handler;
    - [app/api/admin/knowledge/route.ts] : the [POST] and [PUT] handlers;
    - [supabase/schema.sql], [supabase/add_inbox_embeddings.sql] :
                         [match_documents], [match_inbox_questions].

    External services (OpenAI, Gemini, the session store, pgvector's distance
    operator, database faults) are oracles gathered in a record; every
    theorem quantifies over all of them. *)

From Stdlib Require Import String Ascii List Bool Arith QArith Lia.
From Stdlib Require Import Decimal DecimalString.
Import ListNotations.
Open Scope list_scope.
Open Scope string_scope.

(* ================================================================== *)
(** ** JavaScript strings *)
(* ================================================================== *)

Module Js.

(** The line feed of the template literals. *)
Definition nl : string := String (ascii_of_nat 10) EmptyString.

(** [String.prototype.trim] and [String.prototype.toUpperCase] belong to the
    engine, with its Unicode tables.  The code is embedded over any pair of
    functions that leave the empty string alone, which the ECMAScript ones
    do. *)
Class StringPrototype : Type := {
  trim : string -> string;
  toUpperCase : string -> string;
  trim_empty : trim "" = "";
  toUpperCase_empty : toUpperCase "" = ""
}.

(** [s.includes(pat)]: [pat] occurs in [s] as a contiguous run. *)
Fixpoint includes (s pat : string) : bool :=
  if String.prefix pat s then true
  else match s with
       | EmptyString => false
       | String _ rest => includes rest pat
       end.

(** Truthiness of a string value: every string but the empty one. *)
Definition truthy (s : string) : bool := negb (s =? "").

(** A value that is a string or [undefined]; [a || b] on such values. *)
Definition or_else (a : option string) (b : option string) : option string :=
  match a with
  | Some s => if truthy s then Some s else b
  | None => b
  end.

(** [Array.prototype.join]: [undefined] elements print as the empty string. *)
Definition join (xs : list (option string)) (sep : string) : string :=
  String.concat sep (map (fun x => match x with Some s => s | None => "" end) xs).

(** [`${n}`] for a non-negative integer. *)
Definition of_nat (n : nat) : string := NilEmpty.string_of_uint (Nat.to_uint n).

(** *** The ASCII fragment of the engine, for running the model *)

Definition ascii_upper (c : ascii) : ascii :=
  let n := nat_of_ascii c in
  if ((97 <=? n) && (n <=? 122))%nat then ascii_of_nat (n - 32) else c.

Definition ascii_space (c : ascii) : bool :=
  let n := nat_of_ascii c in
  ((9 <=? n) && (n <=? 13) || (n =? 32))%nat.

Fixpoint map_string (f : ascii -> ascii) (s : string) : string :=
  match s with
  | EmptyString => EmptyString
  | String c rest => String (f c) (map_string f rest)
  end.

Fixpoint trimStart (s : string) : string :=
  match s with
  | EmptyString => EmptyString
  | String c rest => if ascii_space c then trimStart rest else s
  end.

Definition reverse (s : string) : string :=
  string_of_list_ascii (List.rev (list_ascii_of_string s)).

Definition ascii_trim (s : string) : string :=
  reverse (trimStart (reverse (trimStart s))).

#[export] Instance ascii_prototype : StringPrototype := {|
  trim := ascii_trim;
  toUpperCase := map_string ascii_upper;
  trim_empty := eq_refl;
  toUpperCase_empty := eq_refl
|}.

End Js.
Import Js.

(* ================================================================== *)
(** ** Data model *)
(* ================================================================== *)

(** [number[]]: an embedding.  A finite double is a rational. *)
Definition Embedding : Type := list Q.

(** A PostgREST error; the code reads its [code] only. *)
Record PgError : Type := { code : string }.

Inductive Status : Type := pending | resolved.

(** [admin_queue], with the [embedding] column of add_inbox_embeddings.sql. *)
Record QueueRow : Type := {
  aq_id : nat;
  user_question : string;
  status : Status;
  aq_embedding : option Embedding;
  resolved_at : option string
}.

(** [knowledge_base] of schema.sql. *)
Record KbRow : Type := {
  kb_id : nat;
  kb_question : string;
  kb_answer : string;
  kb_embedding : option Embedding;
  updated_at : string
}.

Record DB : Type := {
  knowledge_base : list KbRow;
  admin_queue : list QueueRow
}.

(** The arguments of [getGenerativeModel] and [generateContent(Stream)]. *)
Record GenerateRequest : Type := {
  model : string;
  systemInstruction : option string;
  googleSearch : bool;
  prompt : string;
  temperature : Q
}.

(** Grounding metadata of a streamed chunk: [c.web?.uri], [c.web?.title]. *)
Record WebSource : Type := { web_uri : option string; web_title : option string }.
Record GroundingChunk : Type := { web : option WebSource }.

(** A chunk of [result.stream]: [chunk.text()] and
    [chunk.candidates?.[0]?.groundingMetadata?.groundingChunks]. *)
Record StreamChunk : Type := {
  chunk_text : string;
  groundingChunks : option (list GroundingChunk)
}.

(** [result.stream]: the chunks it delivers, and whether it then completes
    or throws (a throwing [chunk.text()] is a stream that throws there). *)
Record ContentStream : Type := {
  stream_chunks : list StreamChunk;
  stream_completes : bool
}.

Inductive Exn : Type :=
| TypeError
| Upstream (code : option string).

Inductive Result (A : Type) : Type :=
| Ok (a : A)
| Throw (e : Exn).
Arguments Ok {A} a.
Arguments Throw {A} e.

Record Session : Type := { isAdmin : bool }.

Inductive StoreOp : Type :=
| OpMatchDocuments | OpMatchInbox | OpInsertQueue
| OpInsertKnowledge | OpUpdateKnowledge | OpResolveQueue.

(** The collaborators of the handlers. *)
Record Services : Type := {
  (** [getSession()] *)
  getSession : option Session;
  (** [openai.embeddings.create({model, input})]: the [embedding] of each
      element of [response.data], or a rejection. *)
  embeddings_create : string -> string -> Result (list Embedding);
  (** [model.generateContent(...)] followed by [result.response.text()]. *)
  generateContent : GenerateRequest -> Result string;
  (** [model.generateContentStream(...)]. *)
  generateContentStream : GenerateRequest -> Result ContentStream;
  (** pgvector's [<=>]: the [double precision] it returns, as a rational. *)
  cosine_distance : Embedding -> Embedding -> Q;
  (** The [error] a store operation resolves with, if any: the PostgREST
      client resolves to [{ data, error }], it does not reject. *)
  store_fault : StoreOp -> option PgError;
  (** [new Date().toISOString()] *)
  now : string
}.

Inductive Verdict : Type := YES | NO.

Inductive ErrorLog : Type :=
| JudgeError
| InternalAnswerError
| WebSearchError
| DatabaseSearchError (e : PgError)
| ChatApiError
| InboxCheckError (e : PgError)
| QueueInsertError (e : PgError)
| QueueTaskError (e : Exn)
| KnowledgeWriteError (e : PgError)
| KnowledgeApiError.

(** What a handler does that can be seen from outside, in program order. *)
Inductive Event : Type :=
| EmbeddingsCreate (model input : string)
| Rpc_match_documents (query_embedding : Embedding) (match_threshold : Q) (match_count : nat)
| Rpc_match_inbox_questions (query_embedding : Embedding) (match_threshold : Q) (match_count : nat)
| Insert_admin_queue (user_question : string) (status : Status) (embedding : Embedding)
| Insert_knowledge_base (question answer : string) (embedding : Embedding) (updated_at : string)
| Update_knowledge_base (id : nat) (question answer : string) (embedding : Embedding) (updated_at : string)
| Resolve_admin_queue (id : nat) (resolved_at : string)
| Delete_knowledge_base (id : nat)
| GenerateContent (req : GenerateRequest)
| GenerateContentStream (req : GenerateRequest)
| StreamNext (c : StreamChunk)
| StreamDone
| Yield (s : string)
| ConsoleError (what : ErrorLog).

(** The events of the handler itself, and the event list of each task it
    launched without awaiting it. *)
Record Log : Type := {
  main : list Event;
  background : list (list Event)
}.

Definition no_log : Log := {| main := []; background := [] |}.

Definition log_app (a b : Log) : Log :=
  {| main := main a ++ main b; background := background a ++ background b |}.

(* ================================================================== *)
(** ** Handlers as computations *)
(* ================================================================== *)

(** A computation reads and writes the database, returns or throws, and
    reports what it did.  What was done before a throw stays done. *)
Definition M (A : Type) : Type := DB -> Result A * DB * Log.

Definition ret {A} (a : A) : M A := fun db => (Ok a, db, no_log).

Definition throw {A} (e : Exn) : M A := fun db => (Throw e, db, no_log).

Definition bind {A B} (m : M A) (k : A -> M B) : M B := fun db =>
  match m db with
  | (Ok a, db1, l1) =>
      match k a db1 with
      | (r, db2, l2) => (r, db2, log_app l1 l2)
      end
  | (Throw e, db1, l1) => (Throw e, db1, l1)
  end.

(** [try { m } catch (error) { handler error }] *)
Definition try_catch {A} (m : M A) (handler : Exn -> M A) : M A := fun db =>
  match m db with
  | (Throw e, db1, l1) =>
      match handler e db1 with
      | (r, db2, l2) => (r, db2, log_app l1 l2)
      end
  | done => done
  end.

Definition emit (e : Event) : M unit := fun db =>
  (Ok tt, db, {| main := [e]; background := [] |}).

Definition get_db : M DB := fun db => (Ok db, db, no_log).
Definition put_db (db : DB) : M unit := fun _ => (Ok tt, db, no_log).

(** [(async () => { task })()] not awaited: the task runs on its own; its
    events are its own list, and nothing it returns or throws comes back. *)
Definition detach (task : M unit) : M unit := fun db =>
  match task db with
  | (_, db1, l) =>
      (Ok tt, db1, {| main := []; background := main l :: background l |})
  end.

(** [for await (const chunk of g) sink(chunk)]: the strings [g] yields. *)
Fixpoint yields (es : list Event) : list string :=
  match es with
  | [] => []
  | Yield s :: rest => s :: yields rest
  | _ :: rest => yields rest
  end.

(** Its result pairs them with the error that ended the iteration, if any:
    the consumer's own [try]/[catch] sits around the loop. *)
Definition drain (g : M unit) : M (list string * option Exn) := fun db =>
  match g db with
  | (Ok _, db1, l) => (Ok (yields (main l), None), db1, l)
  | (Throw e, db1, l) => (Ok (yields (main l), Some e), db1, l)
  end.

(** [await] on a promise whose outcome is known. *)
Definition await {A} (r : Result A) : M A := fun db => (r, db, no_log).

Definition console_error (what : ErrorLog) : M unit := emit (ConsoleError what).

Declare Scope js_scope.
Delimit Scope js_scope with js.
Notation "x <- m ;; k" := (bind m (fun x => k))
  (at level 61, m at next level, right associativity) : js_scope.
Notation "m ;; k" := (bind m (fun _ => k))
  (at level 61, right associativity) : js_scope.
Open Scope js_scope.

Definition value {A} (r : Result A * DB * Log) : Result A := fst (fst r).
Definition final_db {A} (r : Result A * DB * Log) : DB := snd (fst r).
Definition log_of {A} (r : Result A * DB * Log) : Log := snd r.

(* ================================================================== *)
(** ** lib/openai.ts *)
(* ================================================================== *)

Module OpenAI.
Section WithServices.
Context (env : Services).

(** [generateEmbedding(question, answer?)]: the text embedded is the question
    alone unless a truthy [answer] is passed. *)
Definition generateEmbedding (question : string) (answer : option string) : M Embedding :=
  let text :=
    match answer with
    | Some a => if truthy a then question ++ nl ++ nl ++ a else question
    | None => question
    end in
  emit (EmbeddingsCreate "text-embedding-3-small" text) ;;
  data <- await (embeddings_create env "text-embedding-3-small" text) ;;
  match data with
  | e :: _ => ret e
  | [] => throw TypeError
  end.

End WithServices.
End OpenAI.

(* ================================================================== *)
(** ** lib/gemini.ts *)
(* ================================================================== *)

Module Gemini.

(** An entry of [sources]. *)
Record Source : Type := { title : string; url : string }.

(** [new Map(entries)]: a key seen again keeps its place and takes the new
    value; [.values()] lists the values in insertion order. *)
Fixpoint map_set {V} (m : list (string * V)) (k : string) (v : V) : list (string * V) :=
  match m with
  | [] => [(k, v)]
  | (k', v') :: rest =>
      if k' =? k then (k', v) :: rest else (k', v') :: map_set rest k v
  end.

Definition new_Map {V} (entries : list (string * V)) : list (string * V) :=
  fold_left (fun m kv => map_set m (fst kv) (snd kv)) entries [].

Definition values {V} (m : list (string * V)) : list V := map snd m.

Section WithServices.
Context {SP : StringPrototype} (env : Services).

(** [for await (const chunk of result.stream) body], with the variables the
    body updates threaded through as [st]. *)
Fixpoint for_await {St} (cs : list StreamChunk) (completes : bool)
    (body : St -> StreamChunk -> M St) (st : St) : M St :=
  match cs with
  | [] => if completes then (emit StreamDone ;; ret st) else throw (Upstream None)
  | c :: rest =>
      emit (StreamNext c) ;;
      st' <- body st c ;;
      for_await rest completes body st'
  end.

Definition judgePrompt (question : string) (dbChunks : list (option string)) : string :=
  let context := join dbChunks (nl ++ nl) in
  "You are evaluating if the provided context answers the question." ++ nl ++
  nl ++
  "Context:" ++ nl ++
  context ++ nl ++
  nl ++
  "Question: " ++ question ++ nl ++
  nl ++
  "Does the context provide a CLEAR and COMPLETE answer to this specific question?" ++ nl ++
  "Reply ONLY with 'YES' or 'NO'.".

Definition judgeRequest (question : string) (dbChunks : list (option string)) : GenerateRequest :=
  {| model := "gemini-2.0-flash";
     systemInstruction := None;
     googleSearch := false;
     prompt := judgePrompt question dbChunks;
     temperature := 1 # 10 |}.

(** Step 2, the judge. *)
Definition judgeContextRelevance (question : string) (dbChunks : list (option string))
    : M Verdict :=
  if (length dbChunks =? 0)%nat then ret NO
  else
    try_catch
      (emit (GenerateContent (judgeRequest question dbChunks)) ;;
       rawResponse <- await (generateContent env (judgeRequest question dbChunks)) ;;
       let response := toUpperCase (trim rawResponse) in
       let isRelevant := includes response "YES" && negb (includes response "NO") in
       ret (if isRelevant then YES else NO))
      (fun error => console_error JudgeError ;; ret NO).

Definition internalFooter : string :=
  nl ++ nl ++ "---" ++ nl ++ "**Source:** Database (Internal Knowledge Base)".

Definition internalRequest (question : string) (dbChunks : list (option string)) : GenerateRequest :=
  let context := join dbChunks (nl ++ nl) in
  {| model := "gemini-2.0-flash";
     systemInstruction :=
       Some "You are the Pirani AI. Answer using ONLY the context provided. Do not use outside knowledge.";
     googleSearch := false;
     prompt :=
       "Context:" ++ nl ++
       context ++ nl ++
       nl ++
       "Question: " ++ question ++ nl ++
       nl ++
       "Answer the question using ONLY the information from the context above.";
     temperature := 2 # 10 |}.

(** Step 3A.  [chunkCount] and [totalLength] only feed [console.log]. *)
Definition generateInternalAnswer (question : string) (dbChunks : list (option string))
    : M unit :=
  try_catch
    (emit (GenerateContentStream (internalRequest question dbChunks)) ;;
     result <- await (generateContentStream env (internalRequest question dbChunks)) ;;
     for_await (stream_chunks result) (stream_completes result)
       (fun (_ : unit) chunk =>
          let text := chunk_text chunk in
          if truthy text then emit (Yield text) else ret tt)
       tt ;;
     emit (Yield internalFooter))
    (fun error =>
       console_error InternalAnswerError ;;
       emit (Yield "I encountered an error generating the answer.")).

Definition webRequest (question : string) : GenerateRequest :=
  {| model := "gemini-2.0-flash";
     systemInstruction :=
       Some "You are the Pirani AI. Search for the answer. Context: Pirani Life (sustainable tumblers). Verify facts before answering.";
     googleSearch := true;
     prompt := question;
     temperature := 2 # 10 |}.

(** The callback of [groundingChunks.forEach]. *)
Definition captureCitation (sources : list Source) (c : GroundingChunk) : list Source :=
  match web c with
  | Some w =>
      match web_uri w, web_title w with
      | Some u, Some t =>
          if truthy u && truthy t then
            let newSource := {| title := t; url := u |} in
            match find (fun s => url s =? url newSource) sources with
            | Some _ => sources
            | None => sources ++ [newSource]
            end
          else sources
      | _, _ => sources
      end
  | None => sources
  end.

Definition captureCitations (sources : list Source) (chunk : StreamChunk) : list Source :=
  match groundingChunks chunk with
  | Some gcs => fold_left captureCitation gcs sources
  | None => sources
  end.

Definition sourcesHeader : string :=
  nl ++ nl ++ "---" ++ nl ++ "**Sources:**" ++ nl.

Definition sourceLine (i : nat) (s : Source) : string :=
  of_nat (i + 1) ++ ". [" ++ title s ++ "](" ++ url s ++ ")" ++ nl.

Definition googleFooter : string :=
  nl ++ nl ++ "---" ++ nl ++ "**Source:** Google Search".

(** [for (let i = ...; i < uniqueSources.length; i++) yield ...] from [i]. *)
Fixpoint yieldSources (i : nat) (uniqueSources : list Source) : M unit :=
  match uniqueSources with
  | [] => ret tt
  | s :: rest => emit (Yield (sourceLine i s)) ;; yieldSources (S i) rest
  end.

(** Step 3B.  [fullAnswer] and [chunkCount] only feed [console.log]. *)
Definition generateWebSearchAnswer (question : string) : M unit :=
  try_catch
    (emit (GenerateContentStream (webRequest question)) ;;
     result <- await (generateContentStream env (webRequest question)) ;;
     sources <-
       for_await (stream_chunks result) (stream_completes result)
         (fun (sources : list Source) chunk =>
            let text := chunk_text chunk in
            (if truthy text then emit (Yield text) else ret tt) ;;
            ret (captureCitations sources chunk))
         [] ;;
     if (0 <? length sources)%nat then
       let uniqueSources := values (new_Map (map (fun s => (url s, s)) sources)) in
       emit (Yield sourcesHeader) ;;
       yieldSources 0 uniqueSources
     else
       emit (Yield googleFooter))
    (fun error =>
       console_error WebSearchError ;;
       emit (Yield "I encountered an error searching for the answer.")).

End WithServices.
End Gemini.

(* ================================================================== *)
(** ** supabase/schema.sql, supabase/add_inbox_embeddings.sql *)
(* ================================================================== *)

From Stdlib Require Import Qround.

Module Sql.

(** ** [float8]

    The functions compute in [float8], IEEE 754 binary64: [<=>] returns one,
    [match_threshold float] is one, and [1 - (... <=> ...)] is the float8
    subtraction, whose result is the float8 nearest to the exact difference,
    ties to the even significand.  A float8 is kept as the rational it
    denotes.  There is no overflow here: a cosine distance lies in [0, 2],
    so the differences lie in [-1, 1]; and no NaN: the distance is taken as
    a number. *)

(** The integer nearest to [x], ties to the even one. *)
Definition round_even (x : Q) : Z :=
  let f := Qfloor x in
  match Qcompare (x - inject_Z f) (1 # 2) with
  | Lt => f
  | Gt => (f + 1)%Z
  | Eq => if Z.even f then f else (f + 1)%Z
  end.

(** The float8 nearest to [x], for [0 <= x].  Counted in units of
    [2^-1074], the least positive float8, a float8 is an integer of at most
    53 significant bits: [x] is rounded to a multiple of [2^k], where [k]
    is the number of bits its integer part has beyond 53. *)
Definition nearest (x : Q) : Q :=
  let y := x * inject_Z (2 ^ 1074) in
  let k := Z.max 0 (Z.log2 (Qfloor y) - 52) in
  inject_Z (round_even (y / inject_Z (2 ^ k)) * 2 ^ k) / inject_Z (2 ^ 1074).

(** The float8 nearest to [x], in lowest terms. *)
Definition float8 (x : Q) : Q :=
  Qred (if Qle_bool 0 x then nearest x else - nearest (- x)).

(** [ORDER BY key] ascending, as a stable insertion sort (the database
    leaves the order of equal keys open). *)
Fixpoint insert_by {A} (key : A -> Q) (x : A) (l : list A) : list A :=
  match l with
  | [] => [x]
  | y :: rest =>
      if Qle_bool (key x) (key y) then x :: l else y :: insert_by key x rest
  end.

Definition order_by {A} (key : A -> Q) (l : list A) : list A :=
  fold_right (insert_by key) [] l.

(** A row returned by [match_documents]. *)
Record DocumentMatch : Type := {
  dm_id : nat;
  dm_question : string;
  dm_answer : string;
  dm_similarity : Q
}.

(** A row returned by [match_inbox_questions]. *)
Record InboxMatch : Type := {
  im_id : nat;
  im_user_question : string;
  im_similarity : Q
}.

Section WithDistance.
Context (distance : Embedding -> Embedding -> Q).

(** [1 - (embedding <=> query_embedding)], a float8 subtraction. *)
Definition similarity (embedding query_embedding : Embedding) : Q :=
  float8 (1 - distance embedding query_embedding).

Definition match_documents (kb : list KbRow)
    (query_embedding : Embedding) (match_threshold : Q) (match_count : nat)
    : list DocumentMatch :=
  let selected :=
    filter (fun r =>
              match kb_embedding r with
              | Some e => Qle_bool (float8 match_threshold) (similarity e query_embedding)
              | None => false
              end) kb in
  let key r :=
    match kb_embedding r with
    | Some e => distance e query_embedding
    | None => 0
    end in
  map (fun r =>
         {| dm_id := kb_id r;
            dm_question := kb_question r;
            dm_answer := kb_answer r;
            dm_similarity := float8 (1 - key r) |})
      (firstn match_count (order_by key selected)).

Definition inbox_candidate (query_embedding : Embedding) (match_threshold : Q)
    (r : QueueRow) : bool :=
  match aq_embedding r with
  | Some e =>
      match status r with
      | pending => Qle_bool (float8 match_threshold) (similarity e query_embedding)
      | resolved => false
      end
  | None => false
  end.

Definition match_inbox_questions (aq : list QueueRow)
    (query_embedding : Embedding) (match_threshold : Q) (match_count : nat)
    : list InboxMatch :=
  let selected := filter (inbox_candidate query_embedding match_threshold) aq in
  let key r :=
    match aq_embedding r with
    | Some e => distance e query_embedding
    | None => 0
    end in
  map (fun r =>
         {| im_id := aq_id r;
            im_user_question := user_question r;
            im_similarity := float8 (1 - key r) |})
      (firstn match_count (order_by key selected)).

End WithDistance.

(** [gen_random_uuid()]: an identifier no row of the table carries. *)
Definition fresh_id (ids : list nat) : nat := S (list_max ids).

End Sql.

(* ================================================================== *)
(** ** app/api/chat/route.ts *)
(* ================================================================== *)

(** A JSON field as the handlers test it. *)
Inductive JsValue : Type :=
| JsUndefined
| JsString (s : string)
| JsOther (truthy : bool).

Inductive JsonBody : Type :=
| ErrorBody (error : string)
| SuccessBody (data : KbRow).

Inductive Response : Type :=
| Json (status : nat) (body : JsonBody)
(** [new Response(stream)], [text/plain], chunked: the chunks enqueued, and
    whether the stream was closed ([true]) or errored ([false]). *)
| Streamed (chunks : list string) (closed : bool).

Module ChatRoute.
Section WithServices.
Context {SP : StringPrototype} (env : Services).

(** The body of the task [addToAdminQueue] launches. *)
Definition addToAdminQueue_task (question : string) (questionEmbedding : Embedding)
    : M unit :=
  let insert : M unit :=
    emit (Insert_admin_queue (trim question) pending questionEmbedding) ;;
    db <- get_db ;;
    error <-
      match store_fault env OpInsertQueue with
      | Some e => ret (Some e)
      | None =>
          put_db {| knowledge_base := knowledge_base db;
                    admin_queue :=
                      admin_queue db ++
                      [{| aq_id := Sql.fresh_id (map aq_id (admin_queue db));
                          user_question := trim question;
                          status := pending;
                          aq_embedding := Some questionEmbedding;
                          resolved_at := None |}] |} ;;
          ret None
      end ;;
    match error with
    | Some e =>
        if negb (code e =? "23505") then console_error (QueueInsertError e)
        else ret tt
    | None => ret tt
    end in
  try_catch
    (emit (Rpc_match_inbox_questions questionEmbedding (85 # 100) 1) ;;
     db <- get_db ;;
     match store_fault env OpMatchInbox with
     | Some inboxCheckError =>
         console_error (InboxCheckError inboxCheckError) ;;
         insert
     | None =>
         let similarInboxQuestions :=
           Sql.match_inbox_questions (cosine_distance env) (admin_queue db)
             questionEmbedding (85 # 100) 1 in
         if (0 <? length similarInboxQuestions)%nat then ret tt
         else insert
     end)
    (fun error =>
       match error with
       | Upstream (Some "23505") => ret tt
       | _ => console_error (QueueTaskError error)
       end).

(** Fire and forget. *)
Definition addToAdminQueue (question : string) (questionEmbedding : Embedding) : M unit :=
  detach (addToAdminQueue_task question questionEmbedding).

(** [dbChunks.slice(0, 3).forEach(chunk => ... chunk.substring(0, 100) ...)]:
    an [undefined] chunk among them is a [TypeError]. *)
Fixpoint previewChunks (cs : list (option string)) : M unit :=
  match cs with
  | [] => ret tt
  | Some _ :: rest => previewChunks rest
  | None :: _ => throw TypeError
  end.

(** Steps 3A and 3B: the [start] callback of the response stream. *)
Definition answerStream (judgment : Verdict) (question : string)
    (queryEmbedding : Embedding) (dbChunks : list (option string)) : M Response :=
  out <-
    match judgment with
    | YES => drain (Gemini.generateInternalAnswer env question dbChunks)
    | NO =>
        addToAdminQueue question queryEmbedding ;;
        drain (Gemini.generateWebSearchAnswer env question)
    end ;;
  match out with
  | (sent, None) => ret (Streamed sent true)
  | (sent, Some _) => ret (Streamed sent false)
  end.

(** What steps 1 and 2 hand to step 3. *)
Record Retrieved : Type := {
  queryEmbedding : Embedding;
  dbChunks : list (option string);
  judgment : Verdict
}.

(** Steps 1 and 2: on the left the response of an early [return], on the
    right what the answer generation starts from. *)
Definition retrieveAndJudge (question : string) : M (Response + Retrieved) :=
  queryEmbedding <- OpenAI.generateEmbedding env question None ;;
  emit (Rpc_match_documents queryEmbedding (50 # 100) 5) ;;
  match store_fault env OpMatchDocuments with
  | Some searchError =>
      console_error (DatabaseSearchError searchError) ;;
      ret (inl (Json 500 (ErrorBody "Failed to search knowledge base")))
  | None =>
      db <- get_db ;;
      let matches :=
        Sql.match_documents (cosine_distance env) (knowledge_base db)
          queryEmbedding (50 # 100) 5 in
      (** [match.answer || match.content]; schema.sql returns no [content]. *)
      let dbChunks :=
        map (fun m => or_else (Some (Sql.dm_answer m)) None) matches in
      previewChunks (firstn 3 dbChunks) ;;
      judgment <-
        (if (0 <? length dbChunks)%nat
         then Gemini.judgeContextRelevance env question dbChunks
         else ret NO) ;;
      ret (inr {| queryEmbedding := queryEmbedding;
                  dbChunks := dbChunks;
                  judgment := judgment |})
  end.

(** The handler past its guards. *)
Definition answerQuestion (question : string) : M Response :=
  r <- retrieveAndJudge question ;;
  match r with
  | inl response => ret response
  | inr got =>
      answerStream (judgment got) question (queryEmbedding got) (dbChunks got)
  end.

(** [POST]; [body] is what [await request.json()] gives for [question]. *)
Definition POST (body : Result JsValue) : M Response :=
  try_catch
    (match getSession env with
     | None => ret (Json 401 (ErrorBody "Unauthorized"))
     | Some _ =>
         question <- await body ;;
         match question with
         | JsString q =>
             if truthy q then answerQuestion q
             else ret (Json 400 (ErrorBody "Question is required"))
         | _ => ret (Json 400 (ErrorBody "Question is required"))
         end
     end)
    (fun error =>
       console_error ChatApiError ;;
       ret (Json 500 (ErrorBody "Internal server error"))).

End WithServices.
End ChatRoute.

(* ================================================================== *)
(** ** app/api/admin/knowledge/route.ts *)
(* ================================================================== *)

Module KnowledgeRoute.

(** The fields read from [await request.json()]; a field is a string or
    absent, identifiers stand for UUIDs. *)
Record Body : Type := {
  id : option nat;
  question : option string;
  answer : option string;
  queueId : option nat
}.

Definition present (v : option string) : bool :=
  match v with
  | Some s => truthy s
  | None => false
  end.

Section WithServices.
Context {SP : StringPrototype} (env : Services).

Definition unauthorized : bool :=
  match getSession env with
  | Some session => negb (isAdmin session)
  | None => true
  end.

Definition resolveQueue (queueId : nat) : M unit :=
  emit (Resolve_admin_queue queueId (now env)) ;;
  match store_fault env OpResolveQueue with
  | Some _ => ret tt
  | None =>
      db <- get_db ;;
      put_db {| knowledge_base := knowledge_base db;
                admin_queue :=
                  map (fun r =>
                         if (aq_id r =? queueId)%nat then
                           {| aq_id := aq_id r;
                              user_question := user_question r;
                              status := resolved;
                              aq_embedding := aq_embedding r;
                              resolved_at := Some (now env) |}
                         else r) (admin_queue db) |}
  end.

(** [POST]: create an entry. *)
Definition POST (body : Result Body) : M Response :=
  try_catch
    (if unauthorized then ret (Json 401 (ErrorBody "Unauthorized"))
     else
       b <- await body ;;
       match question b, answer b with
       | Some q, Some a =>
           if truthy q && truthy a then
             embedding <- OpenAI.generateEmbedding env q None ;;
             emit (Insert_knowledge_base (trim q) (trim a) embedding (now env)) ;;
             match store_fault env OpInsertKnowledge with
             | Some kbError =>
                 console_error (KnowledgeWriteError kbError) ;;
                 ret (Json 500 (ErrorBody "Failed to create knowledge base entry"))
             | None =>
                 db <- get_db ;;
                 let kbData :=
                   {| kb_id := Sql.fresh_id (map kb_id (knowledge_base db));
                      kb_question := trim q;
                      kb_answer := trim a;
                      kb_embedding := Some embedding;
                      updated_at := now env |} in
                 put_db {| knowledge_base := knowledge_base db ++ [kbData];
                           admin_queue := admin_queue db |} ;;
                 match queueId b with
                 | Some qid => resolveQueue qid
                 | None => ret tt
                 end ;;
                 ret (Json 200 (SuccessBody kbData))
             end
           else ret (Json 400 (ErrorBody "Question and answer are required"))
       | _, _ => ret (Json 400 (ErrorBody "Question and answer are required"))
       end)
    (fun error =>
       console_error KnowledgeApiError ;;
       ret (Json 500 (ErrorBody "Internal server error"))).

(** [.update(...).eq('id', id).select().single()]: [single] wants one row. *)
Definition PUT (body : Result Body) : M Response :=
  try_catch
    (if unauthorized then ret (Json 401 (ErrorBody "Unauthorized"))
     else
       b <- await body ;;
       match id b, question b, answer b with
       | Some i, Some q, Some a =>
           if truthy q && truthy a then
             embedding <- OpenAI.generateEmbedding env q None ;;
             emit (Update_knowledge_base i (trim q) (trim a) embedding (now env)) ;;
             db <- get_db ;;
             let outcome :=
               match store_fault env OpUpdateKnowledge with
               | Some e => inl e
               | None =>
                   match find (fun r => (kb_id r =? i)%nat) (knowledge_base db) with
                   | Some _ =>
                       inr {| kb_id := i;
                              kb_question := trim q;
                              kb_answer := trim a;
                              kb_embedding := Some embedding;
                              updated_at := now env |}
                   | None => inl {| code := "PGRST116" |}
                   end
               end in
             match outcome with
             | inl error =>
                 console_error (KnowledgeWriteError error) ;;
                 ret (Json 500 (ErrorBody "Failed to update knowledge base entry"))
             | inr data =>
                 put_db {| knowledge_base :=
                             map (fun r => if (kb_id r =? i)%nat then data else r)
                                 (knowledge_base db);
                           admin_queue := admin_queue db |} ;;
                 ret (Json 200 (SuccessBody data))
             end
           else ret (Json 400 (ErrorBody "ID, question, and answer are required"))
       | _, _, _ => ret (Json 400 (ErrorBody "ID, question, and answer are required"))
       end)
    (fun error =>
       console_error KnowledgeApiError ;;
       ret (Json 500 (ErrorBody "Internal server error"))).

End WithServices.
End KnowledgeRoute.

(* ================================================================== *)
(** ** Reading the code's outcomes *)
(* ================================================================== *)

(** The events of a run, the launched tasks' included. *)
Definition all_events (l : Log) : list Event := main l ++ concat (background l).

Definition is_embedding_call (e : Event) : bool :=
  match e with
  | EmbeddingsCreate _ _ => true
  | _ => false
  end.

Definition is_generation_call (e : Event) : bool :=
  match e with
  | GenerateContent _ | GenerateContentStream _ => true
  | _ => false
  end.

Definition is_queue_event (e : Event) : bool :=
  match e with
  | Rpc_match_inbox_questions _ _ _ | Insert_admin_queue _ _ _ => true
  | _ => false
  end.

(** A log of the handler's own events, with no task launched. *)
Definition only (es : list Event) : Log := {| main := es; background := [] |}.

(** What the consumer of a generator sees of one delivered chunk. *)
Definition delivered (c : StreamChunk) : list Event :=
  StreamNext c :: (if truthy (chunk_text c) then [Yield (chunk_text c)] else []).

(** The non-empty texts of a stream, in order. *)
Definition generatedText (cs : list StreamChunk) : list string :=
  filter truthy (map chunk_text cs).

Definition is_judge_call (e : Event) : bool :=
  match e with
  | GenerateContent _ => true
  | _ => false
  end.

(** The events a generator can add. *)
Definition generator_event (e : Event) : bool :=
  match e with
  | GenerateContentStream _ | StreamNext _ | StreamDone | Yield _ | ConsoleError _ => true
  | _ => false
  end.

(** The events the judge can add. *)
Definition judge_event (e : Event) : bool :=
  match e with
  | GenerateContent _ | ConsoleError _ => true
  | _ => false
  end.

(** The events the queue writer can add. *)
Definition queue_writer_event (e : Event) : bool :=
  match e with
  | Rpc_match_inbox_questions _ _ _ | Insert_admin_queue _ _ _ | ConsoleError _ => true
  | _ => false
  end.

(** The rule of gemini.ts lines 51-52 on a raw reply. *)
Definition saysYes {SP : StringPrototype} (raw : string) : bool :=
  includes (toUpperCase (trim raw)) "YES" &&
  negb (includes (toUpperCase (trim raw)) "NO").

(** The verdict and the events of a run of the judge, read off the reply
    of the generation call. *)
Definition judgeOutcome {SP : StringPrototype} (env : Services)
    (question : string) (dbChunks : list (option string)) : Verdict * list Event :=
  match dbChunks with
  | [] => (NO, [])
  | _ :: _ =>
      match generateContent env (Gemini.judgeRequest question dbChunks) with
      | Ok raw =>
          (if saysYes raw then YES else NO,
           [GenerateContent (Gemini.judgeRequest question dbChunks)])
      | Throw _ =>
          (NO, [GenerateContent (Gemini.judgeRequest question dbChunks);
                ConsoleError JudgeError])
      end
  end.

(** The chunks step 1 extracts from the knowledge base for a query. *)
Definition retrievedChunks (env : Services) (db : DB) (queryEmbedding : Embedding)
    : list (option string) :=
  map (fun m => or_else (Some (Sql.dm_answer m)) None)
      (Sql.match_documents (cosine_distance env) (knowledge_base db)
         queryEmbedding (50 # 100) 5).

Definition defined (c : option string) : bool :=
  match c with
  | Some _ => true
  | None => false
  end.

Definition embeddingModel : string := "text-embedding-3-small".

(** ** Citations, in the words of the specification *)

(** The citation a grounding chunk carries, if it has both a non-empty
    address and a non-empty title. *)
Definition citation (c : GroundingChunk) : list Gemini.Source :=
  match web c with
  | Some w =>
      match web_uri w, web_title w with
      | Some u, Some t =>
          if truthy u && truthy t then [{| Gemini.title := t; Gemini.url := u |}]
          else []
      | _, _ => []
      end
  | None => []
  end.

(** All citations of a stream, in the order they arrive. *)
Definition citations (cs : list StreamChunk) : list Gemini.Source :=
  flat_map (fun chunk =>
              match groundingChunks chunk with
              | Some gcs => flat_map citation gcs
              | None => []
              end) cs.

Definition hasUrl (u : string) (s : Gemini.Source) : bool := (Gemini.url s =? u)%string.

(** Deduplication by address: the first citation of each address stays,
    where it stands; later ones with that address go. *)
Fixpoint firstOccurrences (cs : list Gemini.Source) : list Gemini.Source :=
  match cs with
  | [] => []
  | c :: rest =>
      c :: filter (fun s => negb (hasUrl (Gemini.url c) s)) (firstOccurrences rest)
  end.

(** A numbered source list: entry [k] (from 1) is ["k. [title](url)\n"]. *)
Definition numbered (us : list Gemini.Source) : list string :=
  map (fun p => Gemini.sourceLine (fst p) (snd p)) (combine (seq 0 (length us)) us).

(** The sources the loop of [generateWebSearchAnswer] has gathered when the
    stream ends. *)
Definition gathered (cs : list StreamChunk) : list Gemini.Source :=
  fold_left Gemini.captureCitations cs [].

(** One step of that gathering, on a citation. *)
Definition pushNew (sources : list Gemini.Source) (c : Gemini.Source) : list Gemini.Source :=
  match find (hasUrl (Gemini.url c)) sources with
  | Some _ => sources
  | None => sources ++ [c]
  end.

(** Whether a citation's address is among the sources gathered so far. *)
Definition known (acc : list Gemini.Source) (c : Gemini.Source) : bool :=
  existsb (hasUrl (Gemini.url c)) acc.

(** The entries of its footer. *)
Definition uniqueSources (cs : list StreamChunk) : list Gemini.Source :=
  Gemini.values (Gemini.new_Map (map (fun s => (Gemini.url s, s)) (gathered cs))).

(** ** The queue after an accepted insert *)

Definition queuedRow {SP : StringPrototype} (question : string)
    (questionEmbedding : Embedding) (db : DB) : QueueRow :=
  {| aq_id := Sql.fresh_id (map aq_id (admin_queue db));
     user_question := trim question;
     status := pending;
     aq_embedding := Some questionEmbedding;
     resolved_at := None |}.

Definition enqueued {SP : StringPrototype} (question : string)
    (questionEmbedding : Embedding) (db : DB) : DB :=
  {| knowledge_base := knowledge_base db;
     admin_queue := admin_queue db ++ [queuedRow question questionEmbedding db] |}.

(** What the insert step of the queue writer leaves, after the events
    [before]. *)
Definition insertOutcome {SP : StringPrototype} (env : Services)
    (question : string) (e : Embedding) (db : DB)
    (before : list Event) : Result unit * DB * Log :=
  match store_fault env OpInsertQueue with
  | Some err =>
      (Ok tt, db,
       only (before ++
             Insert_admin_queue (trim question) pending e ::
             (if negb (code err =? "23505")%string
              then [ConsoleError (QueueInsertError err)] else [])))
  | None =>
      (Ok tt, enqueued question e db,
       only (before ++ [Insert_admin_queue (trim question) pending e])%list)
  end.

(** ** The knowledge rows the handlers write *)

Definition createdRow {SP : StringPrototype} (env : Services)
    (q a : string) (e : Embedding) (db : DB) : KbRow :=
  {| kb_id := Sql.fresh_id (map kb_id (knowledge_base db));
     kb_question := trim q;
     kb_answer := trim a;
     kb_embedding := Some e;
     updated_at := now env |}.

Definition editedRow {SP : StringPrototype} (env : Services)
    (i : nat) (q a : string) (e : Embedding) : KbRow :=
  {| kb_id := i;
     kb_question := trim q;
     kb_answer := trim a;
     kb_embedding := Some e;
     updated_at := now env |}.

(** [e] is the embedding the provider returns for the text [input]. *)
Definition embeds (env : Services) (input : string) (e : Embedding) : Prop :=
  exists more, embeddings_create env embeddingModel input = Ok (e :: more).

(** The run made one embedding call, on the text [input]. *)
Definition embedsOnly (input : string) (l : Log) : Prop :=
  filter is_embedding_call (all_events l) = [EmbeddingsCreate embeddingModel input].

(** ** Concrete services, for running the handlers *)

Module Fixtures.

(** An embedding provider that tells texts of different lengths apart. *)
Definition embedByLength (model input : string) : Result (list Embedding) :=
  Ok [[inject_Z (Z.of_nat (String.length input))]].

Definition cited (text : string) (cites : list (string * string)) : StreamChunk :=
  {| chunk_text := text;
     groundingChunks :=
       Some (map (fun c =>
                    {| web := Some {| web_uri := Some (fst c);
                                      web_title := Some (snd c) |} |}) cites) |}.

Definition services (reply : Result string) (stream : Result ContentStream)
    (fault : StoreOp -> option PgError) : Services :=
  {| getSession := Some {| isAdmin := true |};
     embeddings_create := embedByLength;
     generateContent := fun _ => reply;
     generateContentStream := fun _ => stream;
     cosine_distance := fun a b => if Qeq_bool (hd 0 a) (hd 0 b) then 0 else 1;
     store_fault := fault;
     now := "2025-01-01T00:00:00.000Z" |}.

Definition healthy : StoreOp -> option PgError := fun _ => None.

(** Services whose store finds every two embeddings at distance [d]. *)
Definition apart (d : Q) : Services :=
  {| getSession := Some {| isAdmin := true |};
     embeddings_create := embedByLength;
     generateContent := fun _ => Ok "NO";
     generateContentStream := fun _ => Throw (Upstream None);
     cosine_distance := fun _ _ => d;
     store_fault := healthy;
     now := "2025-01-01T00:00:00.000Z" |}.

Definition plainStream : ContentStream :=
  {| stream_chunks := [cited "Hello" []; cited "" []; cited " world" []];
     stream_completes := true |}.

Definition citedStream : ContentStream :=
  {| stream_chunks :=
       [cited "Hello" [("https://a.example", "First")];
        cited " world" [("https://a.example", "Second"); ("https://b.example", "Other")]];
     stream_completes := true |}.

(** Services whose judge says yes and whose generation streams [stream]. *)
Definition streaming (stream : ContentStream) : Services :=
  services (Ok "YES") (Ok stream) healthy.

(** A queue holding one pending question, embedded as [[3]]. *)
Definition pendingDb : DB :=
  {| knowledge_base := [];
     admin_queue :=
       [{| aq_id := 7;
           user_question := "old";
           status := pending;
           aq_embedding := Some [3 # 1];
           resolved_at := None |}] |}.

(** A store whose duplicate check fails. *)
Definition checkDown (op : StoreOp) : option PgError :=
  match op with
  | OpMatchInbox => Some {| code := "57014" |}
  | _ => None
  end.

(** A store whose knowledge search fails. *)
Definition searchDown (op : StoreOp) : option PgError :=
  match op with
  | OpMatchDocuments => Some {| code := "57014" |}
  | _ => None
  end.

(** An edit whose question carries a leading blank. *)
Definition paddedEdit : KnowledgeRoute.Body :=
  {| KnowledgeRoute.id := Some 1%nat;
     KnowledgeRoute.question := Some " a";
     KnowledgeRoute.answer := Some "b";
     KnowledgeRoute.queueId := None |}.

Definition plainEdit : KnowledgeRoute.Body :=
  {| KnowledgeRoute.id := Some 1%nat;
     KnowledgeRoute.question := Some "a";
     KnowledgeRoute.answer := Some "b";
     KnowledgeRoute.queueId := None |}.

Definition emptyDb : DB := {| knowledge_base := []; admin_queue := [] |}.

Definition policyDb : DB :=
  {| knowledge_base :=
       [{| kb_id := 1;
           kb_question := "What is your return policy?";
           kb_answer := "Thirty days.";
           kb_embedding := Some [27 # 1];
           updated_at := "2024-12-31T00:00:00.000Z" |}];
     admin_queue := [] |}.

End Fixtures.


(* ================================================================== *)
(** ** Further fixtures and readings *)
(* ================================================================== *)

(** What the generators say in place of an answer they could not produce. *)
Definition internalApology : string := "I encountered an error generating the answer.".
Definition webApology : string := "I encountered an error searching for the answer.".

(** Whether an event is a call to a service outside the handler. *)
Definition is_external_call (e : Event) : bool :=
  match e with
  | ConsoleError _ | StreamNext _ | StreamDone | Yield _ => false
  | _ => true
  end.

Module MoreFixtures.

(** A stream that delivers two chunks and then throws. *)
Definition brokenStream : ContentStream :=
  {| stream_chunks := [Fixtures.cited "Hel" [("https://a.example", "First")];
                       Fixtures.cited "lo" []];
     stream_completes := false |}.

(** A knowledge base whose one entry has an empty answer. *)
Definition blankAnswerDb : DB :=
  {| knowledge_base :=
       [{| kb_id := 4;
           kb_question := "hi";
           kb_answer := "";
           kb_embedding := Some [2 # 1];
           updated_at := "2024-12-31T00:00:00.000Z" |}];
     admin_queue := [] |}.

(** Services without a session. *)
Definition anonymous : Services :=
  {| getSession := None;
     embeddings_create := Fixtures.embedByLength;
     generateContent := fun _ => Ok "YES";
     generateContentStream := fun _ => Ok Fixtures.plainStream;
     cosine_distance := fun _ _ => 0;
     store_fault := Fixtures.healthy;
     now := "2025-01-01T00:00:00.000Z" |}.

End MoreFixtures.

(** ** Ordering of query results *)

From Stdlib Require Import Sorted Lqa.


(** ** The queue's uniqueness, as the duplicate check sees it *)


(** ** Knowledge entries, read back *)

(** The entry of the knowledge base with identifier [i], if any. *)
Definition entry (i : nat) (db : DB) : option KbRow :=
  find (fun r => (kb_id r =? i)%nat) (knowledge_base db).

(** A queue row after its promotion at time [t]. *)
Definition resolvedAt (t : string) (r : QueueRow) : QueueRow :=
  {| aq_id := aq_id r;
     user_question := user_question r;
     status := resolved;
     aq_embedding := aq_embedding r;
     resolved_at := Some t |}.

(* ================================================================== *)
(** ** lib/openai.ts, [streamAnswer]; the administration handlers that
       delete, regenerate and propose *)
(* ================================================================== *)

(** What these functions meet beyond [Services].  The [console] lines of
    [streamAnswer] and of the handlers that regenerate and propose carry no
    tag in [ErrorLog] and are left out, as [console.log] is throughout; the
    handler that deletes logs its store call and its errors as [POST] and
    [PUT] of the same file do. *)
Record Deployment : Type := {
  (** [process.env.GEMINI_API_KEY] is set. *)
  gemini_api_key : bool;
  (** [JSON.stringify(error, null, 2)] returns; it throws on a cyclic error. *)
  stringifies : Exn -> bool;
  (** The [error] of [.from('knowledge_base').delete().eq('id', id)]. *)
  delete_knowledge_fault : option PgError;
  (** The [error] of [.from('knowledge_base').select('id, question, answer')]. *)
  select_knowledge_fault : option PgError;
  (** The [error] of [.update({ embedding, updated_at }).eq('id', id)]. *)
  update_embedding_fault : nat -> option PgError;
  (** The [error] of [.from('admin_queue').select('user_question')]. *)
  select_queue_item_fault : option PgError
}.

(** The JSON bodies of these handlers. *)
Inductive Reply : Type :=
| Failure (status : nat) (error : string)
(** [{ success: true }] *)
| Success
(** [{ success: true, message: 'No entries found', regenerated: 0 }] *)
| NoEntries
(** [{ success: true, regenerated, errors, total }] *)
| Regenerated (regenerated errors total : nat)
(** [{ proposedAnswer, sources: [] }] *)
| Proposed (proposedAnswer : string).

Module Admin.
Section WithServices.
Context (env : Services) (dep : Deployment).

Definition SYSTEM_INSTRUCTION : string :=
  "You are the AI assistant for Pirani Life (sustainable insulated tumblers, est. 2018)." ++ nl ++
  "Identity: Friendly, Eco-conscious, Fact-based." ++ nl ++
  "Context: If you don't know a specific fact about the company, use Google Search to find it.".

(** The call of [streamAnswer]; its [thinking_config] is the constant
    [{ thinking_level: "low" }]. *)
Definition streamRequest (question : string) : GenerateRequest :=
  {| model := "gemini-3-pro-preview";
     systemInstruction := Some SYSTEM_INSTRUCTION;
     googleSearch := true;
     prompt := question;
     temperature := 2 # 10 |}.

(** The callback of [chunks.forEach] in [streamAnswer]: every citation with
    an address and a title is pushed. *)
Definition pushCitation (sources : list Gemini.Source) (c : GroundingChunk)
    : list Gemini.Source :=
  match web c with
  | Some w =>
      match web_uri w, web_title w with
      | Some u, Some t =>
          if truthy u && truthy t
          then sources ++ [{| Gemini.title := t; Gemini.url := u |}]
          else sources
      | _, _ => sources
      end
  | None => sources
  end.

Definition pushCitations (sources : list Gemini.Source) (chunk : StreamChunk)
    : list Gemini.Source :=
  match groundingChunks chunk with
  | Some gcs => fold_left pushCitation gcs sources
  | None => sources
  end.

Definition sourcesTitle : string := nl ++ nl ++ "**Sources:**" ++ nl.

(** [streamAnswer] of lib/openai.ts. *)
Definition streamAnswer (question : string) : M unit :=
  if negb (gemini_api_key dep) then emit (Yield "Error: No API Key found.")
  else
    try_catch
      (emit (GenerateContentStream (streamRequest question)) ;;
       result <- await (generateContentStream env (streamRequest question)) ;;
       sources <-
         Gemini.for_await (stream_chunks result) (stream_completes result)
           (fun (sources : list Gemini.Source) chunk =>
              let text := chunk_text chunk in
              (if truthy text then emit (Yield text) else ret tt) ;;
              ret (pushCitations sources chunk))
           [] ;;
       if (0 <? length sources)%nat then
         let uniqueSources :=
           Gemini.values (Gemini.new_Map (map (fun s => (Gemini.url s, s)) sources)) in
         emit (Yield sourcesTitle) ;;
         Gemini.yieldSources 0 uniqueSources
       else ret tt)
      (fun error =>
         if stringifies dep error
         then emit (Yield "I encountered an error. Please try again.")
         else throw TypeError).

(** [GET] of the proposed-answer handler; [id] names the queue item. *)
Definition proposedAnswer_GET (id : nat) : M Reply :=
  try_catch
    (if KnowledgeRoute.unauthorized env then ret (Failure 401 "Unauthorized")
     else
       db <- get_db ;;
       match select_queue_item_fault dep,
             filter (fun r => (aq_id r =? id)%nat) (admin_queue db) with
       | None, [queueItem] =>
           let question := user_question queueItem in
           out <- drain (streamAnswer question) ;;
           match out with
           | (chunks, None) => ret (Proposed (String.concat "" chunks))
           | (_, Some _) => ret (Failure 500 "Failed to generate proposed answer")
           end
       | _, _ => ret (Failure 404 "Queue item not found")
       end)
    (fun error => ret (Failure 500 "Internal server error")).

(** [DELETE] of knowledge/route.ts; [id] is [searchParams.get('id')]. *)
Definition knowledge_DELETE (id : option nat) : M Reply :=
  try_catch
    (if KnowledgeRoute.unauthorized env then ret (Failure 401 "Unauthorized")
     else
       match id with
       | None => ret (Failure 400 "ID is required")
       | Some i =>
           emit (Delete_knowledge_base i) ;;
           match delete_knowledge_fault dep with
           | Some error =>
               console_error (KnowledgeWriteError error) ;;
               ret (Failure 500 "Failed to delete knowledge base entry")
           | None =>
               db <- get_db ;;
               put_db {| knowledge_base :=
                           filter (fun r => negb (kb_id r =? i)%nat) (knowledge_base db);
                         admin_queue := admin_queue db |} ;;
               ret Success
           end
       end)
    (fun error =>
       console_error KnowledgeApiError ;;
       ret (Failure 500 "Internal server error")).

(** An entry with its embedding regenerated. *)
Definition reembedded (embedding : Embedding) (r : KbRow) : KbRow :=
  {| kb_id := kb_id r;
     kb_question := kb_question r;
     kb_answer := kb_answer r;
     kb_embedding := Some embedding;
     updated_at := now env |}.

(** The loop of the regeneration handler over the fetched entries, with
    [successCount] and [errorCount]. *)
Fixpoint regenerateEntries (entries : list KbRow) (successCount errorCount : nat)
    : M (nat * nat) :=
  match entries with
  | [] => ret (successCount, errorCount)
  | entry :: rest =>
      counts <-
        try_catch
          (embedding <- OpenAI.generateEmbedding env (kb_question entry) None ;;
           match update_embedding_fault dep (kb_id entry) with
           | Some updateError => ret (successCount, S errorCount)
           | None =>
               db <- get_db ;;
               put_db {| knowledge_base :=
                           map (fun r => if (kb_id r =? kb_id entry)%nat
                                         then reembedded embedding r else r)
                               (knowledge_base db);
                         admin_queue := admin_queue db |} ;;
               ret (S successCount, errorCount)
           end)
          (fun error => ret (successCount, S errorCount)) ;;
      regenerateEntries rest (fst counts) (snd counts)
  end.

(** [POST] of the regenerate-embeddings handler. *)
Definition regenerate_POST : M Reply :=
  try_catch
    (if KnowledgeRoute.unauthorized env then ret (Failure 401 "Unauthorized")
     else
       match select_knowledge_fault dep with
       | Some fetchError => ret (Failure 500 "Failed to fetch entries")
       | None =>
           db <- get_db ;;
           let entries := knowledge_base db in
           if (length entries =? 0)%nat then ret NoEntries
           else
             counts <- regenerateEntries entries 0 0 ;;
             ret (Regenerated (fst counts) (snd counts) (length entries))
       end)
    (fun error => ret (Failure 500 "Internal server error")).

End WithServices.
End Admin.

(* ================================================================== *)
(** ** lib/markdown-links.tsx *)
(* ================================================================== *)

Module Markdown.

(** A part pushed by [parseMarkdownLinks]: a piece of text, or the anchor
    with key [link-k], its text and its [href]. *)
Inductive Part : Type :=
| Text (s : string)
| Anchor (k : nat) (linkText linkUrl : string).

(** What the function returns: the text itself, a single part, or a
    fragment of the parts. *)
Inductive Node : Type :=
| Unchanged (text : string)
| Single (part : Part)
| Fragment (parts : list Part).

(** The longest prefix of characters other than [stop], and what follows. *)
Fixpoint upTo (stop : ascii) (s : string) : string * string :=
  match s with
  | EmptyString => (EmptyString, EmptyString)
  | String c rest =>
      if Ascii.eqb c stop then (EmptyString, s)
      else let (taken, left) := upTo stop rest in (String c taken, left)
  end.

(** A match of [/\[([^\]]+)\]\(([^)]+)\)/] at the start of [s]: the two
    groups and the text after the match.  Each group stops at the first
    closing character, so the match is unique. *)
Definition matchLink (s : string) : option (string * string * string) :=
  match s with
  | String "["%char afterOpen =>
      match upTo "]"%char afterOpen with
      | (String c t, String "]"%char (String "("%char afterParen)) =>
          match upTo ")"%char afterParen with
          | (String d u, String ")"%char rest) => Some (String c t, String d u, rest)
          | _ => None
          end
      | _ => None
      end
  | _ => None
  end.

Definition flush (before : string) : list Part :=
  match before with
  | EmptyString => []
  | _ => [Text before]
  end.

(** The [while] loop and the push of the remaining text.  [before] is the
    text since [lastIndex], [s] the text from the position [exec] looks at,
    [keyCounter] the next key; [fuel] bounds the positions still to visit. *)
Fixpoint scan (fuel : nat) (before s : string) (keyCounter : nat) : list Part :=
  match fuel with
  | O => flush before
  | S fuel' =>
      match matchLink s with
      | Some (linkText, linkUrl, rest) =>
          flush before ++ Anchor keyCounter linkText linkUrl ::
          scan fuel' EmptyString rest (S keyCounter)
      | None =>
          match s with
          | EmptyString => flush before
          | String c rest => scan fuel' (before ++ String c EmptyString) rest keyCounter
          end
      end
  end.

Definition parseMarkdownLinks (text : string) : Node :=
  match scan (String.length text) EmptyString text 0 with
  | [] => Unchanged text
  | [part] => Single part
  | parts => Fragment parts
  end.

(** The markdown a part stands for, and the text a node stands for. *)
Definition source (p : Part) : string :=
  match p with
  | Text s => s
  | Anchor _ linkText linkUrl => "[" ++ linkText ++ "](" ++ linkUrl ++ ")"
  end.

Definition parts (n : Node) : list Part :=
  match n with
  | Unchanged text => flush text
  | Single p => [p]
  | Fragment ps => ps
  end.

Definition markdown (n : Node) : string := String.concat "" (map source (parts n)).

End Markdown.

(** ** Readings of the further handlers *)

(** The citation with address [u] seen last, or [d] if there is none. *)
Definition lastWith (u : string) (cites : list Gemini.Source) (d : Gemini.Source)
    : Gemini.Source :=
  match find (hasUrl u) (List.rev cites) with
  | Some c => c
  | None => d
  end.

(** The sources [streamAnswer] has pushed when the stream ends. *)
Definition pushed (cs : list StreamChunk) : list Gemini.Source :=
  fold_left Admin.pushCitations cs [].

(** The entries of its footer. *)
Definition streamSources (cs : list StreamChunk) : list Gemini.Source :=
  Gemini.values (Gemini.new_Map (map (fun s => (Gemini.url s, s)) (pushed cs))).

(** The embedding the provider returns for a text, if it returns one. *)
Definition embeddingOf (env : Services) (input : string) : option Embedding :=
  match embeddings_create env embeddingModel input with
  | Ok (e :: _) => Some e
  | _ => None
  end.

(** The embedding the regeneration writes for an entry, when both the
    provider and the store do their part. *)
Definition regeneratedFor (env : Services) (dep : Deployment) (entry : KbRow)
    : option Embedding :=
  match embeddingOf env (kb_question entry), update_embedding_fault dep (kb_id entry) with
  | Some e, None => Some e
  | _, _ => None
  end.

Module MoreFixtures2.

Definition working : Deployment :=
  {| gemini_api_key := true;
     stringifies := fun _ => true;
     delete_knowledge_fault := None;
     select_knowledge_fault := None;
     update_embedding_fault := fun _ => None;
     select_queue_item_fault := None |}.

(** Two entries whose embeddings are out of date. *)
Definition staleDb : DB :=
  {| knowledge_base :=
       [{| kb_id := 1; kb_question := "a"; kb_answer := "x";
           kb_embedding := Some [9 # 1];
           updated_at := "2024-12-31T00:00:00.000Z" |};
        {| kb_id := 2; kb_question := "bc"; kb_answer := "y";
           kb_embedding := None;
           updated_at := "2024-12-31T00:00:00.000Z" |}];
     admin_queue := [] |}.

Definition createBody : KnowledgeRoute.Body :=
  {| KnowledgeRoute.id := None;
     KnowledgeRoute.question := Some "a";
     KnowledgeRoute.answer := Some "b";
     KnowledgeRoute.queueId := Some 7%nat |}.

Definition blankBody : KnowledgeRoute.Body :=
  {| KnowledgeRoute.id := Some 1%nat;
     KnowledgeRoute.question := Some "";
     KnowledgeRoute.answer := Some "b";
     KnowledgeRoute.queueId := None |}.

Definition unknownEdit : KnowledgeRoute.Body :=
  {| KnowledgeRoute.id := Some 5%nat;
     KnowledgeRoute.question := Some "a";
     KnowledgeRoute.answer := Some "b";
     KnowledgeRoute.queueId := None |}.

End MoreFixtures2.

(** The line [streamAnswer] yields when its stream fails. *)
Definition streamApology : string := "I encountered an error. Please try again.".

(** The answer [streamAnswer] ends with when the stream completes. *)
Definition streamFooter (cs : list StreamChunk) : list string :=
  match citations cs with
  | [] => []
  | _ :: _ => Admin.sourcesTitle :: numbered (streamSources cs)
  end.

(** What the regeneration makes of an entry for which it succeeds. *)
Definition regenerated (env : Services) (dep : Deployment) (r : KbRow) : KbRow :=
  match regeneratedFor env dep r with
  | Some e => Admin.reembedded env e r
  | None => r
  end.

(** One turn of its loop, on the table. *)
Definition regenerateStep (env : Services) (dep : Deployment)
    (kb : list KbRow) (entry : KbRow) : list KbRow :=
  match regeneratedFor env dep entry with
  | Some e =>
      map (fun r => if (kb_id r =? kb_id entry)%nat then Admin.reembedded env e r else r) kb
  | None => kb
  end.

(** The entries the regeneration succeeds for. *)
Definition regenerable (env : Services) (dep : Deployment) (r : KbRow) : bool :=
  match regeneratedFor env dep r with
  | Some _ => true
  | None => false
  end.

(** What an entry says, apart from its embedding and its date. *)
Definition content (r : KbRow) : nat * string * string :=
  (kb_id r, kb_question r, kb_answer r).

(** Whether the character [c] is absent from [s]. *)
Fixpoint lacks (c : ascii) (s : string) : bool :=
  match s with
  | EmptyString => true
  | String d rest => negb (Ascii.eqb d c) && lacks c rest
  end.

(** A part with its key moved up by [n]. *)
Definition rekey (n : nat) (p : Markdown.Part) : Markdown.Part :=
  match p with
  | Markdown.Text s => Markdown.Text s
  | Markdown.Anchor k linkText linkUrl => Markdown.Anchor (n + k) linkText linkUrl
  end.

(** The keys of the anchors among the parts, in order. *)
Definition keys (ps : list Markdown.Part) : list nat :=
  flat_map (fun p => match p with
                     | Markdown.Text _ => []
                     | Markdown.Anchor k _ _ => [k]
                     end) ps.

(** A part as the function may push it: a text that is not empty, or an
    anchor whose text has no closing bracket and whose address has no
    closing parenthesis, neither of them empty. *)
Definition wellFormed (p : Markdown.Part) : Prop :=
  match p with
  | Markdown.Text s => s <> EmptyString
  | Markdown.Anchor _ linkText linkUrl =>
      linkText <> EmptyString /\ lacks "]" linkText = true /\
      linkUrl <> EmptyString /\ lacks ")" linkUrl = true
  end.

(* ================================================================== *)
(** * Properties *)
(* ================================================================== *)

Open Scope list_scope.

(** ** The monad *)

Lemma log_app_no_log_l (l : Log) : log_app no_log l = l.
Proof. destruct l; reflexivity. Qed.

Lemma log_app_no_log_r (l : Log) : log_app l no_log = l.
Proof. destruct l; unfold log_app; simpl; now rewrite !app_nil_r. Qed.

Lemma yields_app (a b : list Event) : yields (a ++ b) = yields a ++ yields b.
Proof.
  induction a as [|e a IH]; simpl; [reflexivity|].
  destruct e; simpl; now rewrite IH.
Qed.

Lemma yields_delivered (cs : list StreamChunk) :
  yields (flat_map delivered cs) = generatedText cs.
Proof.
  unfold generatedText.
  induction cs as [|c cs IH]; simpl; [reflexivity|].
  destruct (truthy (chunk_text c)); simpl; now rewrite IH.
Qed.

Lemma yields_map_Yield (ss : list string) : yields (map Yield ss) = ss.
Proof. induction ss as [|s ss IH]; simpl; [reflexivity | now rewrite IH]. Qed.

(** ** The judge *)

Section Judge.
Context {SP : StringPrototype} (env : Services).

Lemma judge_run (question : string) (dbChunks : list (option string)) (db : DB) :
  dbChunks <> [] ->
  Gemini.judgeContextRelevance env question dbChunks db =
  match generateContent env (Gemini.judgeRequest question dbChunks) with
  | Ok raw =>
      (Ok (if saysYes raw then YES else NO), db,
       {| main := [GenerateContent (Gemini.judgeRequest question dbChunks)];
          background := [] |})
  | Throw _ =>
      (Ok NO, db,
       {| main := [GenerateContent (Gemini.judgeRequest question dbChunks);
                   ConsoleError JudgeError];
          background := [] |})
  end.
Proof.
  intros Hne. unfold Gemini.judgeContextRelevance.
  destruct dbChunks as [|c cs]; [congruence|]. simpl length. cbv iota beta.
  change (S (length cs) =? 0)%nat with false. cbv iota.
  unfold try_catch, bind, emit, await, ret, console_error, emit, saysYes.
  destruct (generateContent env _) as [raw|e]; reflexivity.
Qed.

(** C1.  On a non-empty chunk sequence the judge answers [YES] exactly when
    the generation call returns a reply whose trimmed, uppercased text
    includes "YES" and does not include "NO"; in every other case -- a reply
    with both, an empty reply, a thrown error -- it answers [NO]. *)
Theorem judge_decision_rule (question : string) (dbChunks : list (option string)) (db : DB) :
  dbChunks <> [] ->
  let reply := generateContent env (Gemini.judgeRequest question dbChunks) in
  let verdict := value (Gemini.judgeContextRelevance env question dbChunks db) in
  let relevant :=
    exists raw, reply = Ok raw /\
      includes (toUpperCase (trim raw)) "YES" = true /\
      includes (toUpperCase (trim raw)) "NO" = false in
  (verdict = Ok YES <-> relevant) /\
  (verdict = Ok NO <-> ~ relevant) /\
  (forall raw, reply = Ok raw ->
     includes (toUpperCase (trim raw)) "YES" = true ->
     includes (toUpperCase (trim raw)) "NO" = true -> verdict = Ok NO) /\
  (reply = Ok "" -> verdict = Ok NO) /\
  (forall e, reply = Throw e -> verdict = Ok NO).
Proof.
  intros Hne reply verdict relevant.
  assert (Hrun : verdict =
                 match reply with
                 | Ok raw => Ok (if saysYes raw then YES else NO)
                 | Throw _ => Ok NO
                 end).
  { unfold verdict, reply. rewrite (judge_run question dbChunks db Hne).
    destruct (generateContent env _); reflexivity. }
  assert (Hyes : verdict = Ok YES <-> relevant).
  { rewrite Hrun. unfold relevant. split.
    - destruct reply as [raw|e]; [|discriminate].
      unfold saysYes. intros H. exists raw.
      destruct (includes (toUpperCase (trim raw)) "YES");
        destruct (includes (toUpperCase (trim raw)) "NO");
        simpl in H; try discriminate; auto.
    - intros (raw & -> & Hy & Hn). unfold saysYes. now rewrite Hy, Hn. }
  assert (Hcases : verdict = Ok YES \/ verdict = Ok NO).
  { rewrite Hrun. destruct reply as [raw|e]; [destruct (saysYes raw)|]; auto. }
  assert (Hno : verdict = Ok NO <-> ~ relevant).
  { split.
    - intros Hv Hr. apply Hyes in Hr. congruence.
    - intros Hr. destruct Hcases as [Hv|Hv]; [|exact Hv].
      apply Hyes in Hv. contradiction. }
  split; [exact Hyes|]. split; [exact Hno|]. split; [|split].
  - intros raw Hraw Hy Hn. apply Hno. intros (raw' & Hraw' & _ & Hn').
    rewrite Hraw in Hraw'. injection Hraw' as <-. congruence.
  - intros Hraw. apply Hno. intros (raw' & Hraw' & Hy' & _).
    rewrite Hraw in Hraw'. injection Hraw' as <-.
    rewrite trim_empty, toUpperCase_empty in Hy'. discriminate.
  - intros e He. apply Hno. intros (raw' & Hraw' & _). congruence.
Qed.

End Judge.

(** The replies of the spec's examples, run on the ASCII engine. *)
Example judge_reply_examples :
  map saysYes ["YES"; "NO"; "YES, but also NO"; ""; " yes. "; "I do not know"]%string
  = [true; false; false; false; true; false].
Proof. reflexivity. Qed.

Lemma judge_decision_rule_witness :
  value (Gemini.judgeContextRelevance
           (Fixtures.services (Ok " yes "%string) (Throw TypeError) Fixtures.healthy)
           "q"%string [Some "a"%string] Fixtures.emptyDb) = Ok YES.
Proof.
  pose proof (judge_decision_rule
                (Fixtures.services (Ok " yes "%string) (Throw TypeError) Fixtures.healthy)
                "q"%string [Some "a"%string] Fixtures.emptyDb) as H.
  destruct H as [Hyes _]; [discriminate|].
  apply Hyes. exists " yes "%string.
  split; [reflexivity|]. split; reflexivity.
Defined.

(** ** The generators *)

Section Generators.
Context (env : Services).

Lemma for_await_text {St} (cs : list StreamChunk) (completes : bool)
    (update : St -> StreamChunk -> St) (st : St) (db : DB) :
  Gemini.for_await cs completes
    (fun st chunk =>
       (if truthy (chunk_text chunk) then emit (Yield (chunk_text chunk)) else ret tt) ;;
       ret (update st chunk)) st db =
  if completes
  then (Ok (fold_left update cs st), db, only (flat_map delivered cs ++ [StreamDone]))
  else (Throw (Upstream None), db, only (flat_map delivered cs)).
Proof.
  revert st. induction cs as [|c cs IH]; intros st; simpl.
  - destruct completes; reflexivity.
  - unfold bind at 1. unfold emit at 1.
    unfold bind at 1. unfold bind at 1.
    destruct (truthy (chunk_text c)); cbv [emit ret]; cbn iota beta;
      rewrite IH; destruct completes; reflexivity.
Qed.

Lemma for_await_internal (cs : list StreamChunk) (completes : bool) (db : DB) :
  Gemini.for_await cs completes
    (fun (_ : unit) chunk =>
       if truthy (chunk_text chunk) then emit (Yield (chunk_text chunk)) else ret tt)
    tt db =
  if completes
  then (Ok tt, db, only (flat_map delivered cs ++ [StreamDone]))
  else (Throw (Upstream None), db, only (flat_map delivered cs)).
Proof.
  induction cs as [|c cs IH]; simpl.
  - destruct completes; reflexivity.
  - unfold bind at 1. unfold emit at 1. unfold bind at 1.
    destruct (truthy (chunk_text c)).
    + change (emit (Yield (chunk_text c)) db)
        with (Ok tt, db, only [Yield (chunk_text c)]).
      cbn iota beta. rewrite IH. destruct completes; reflexivity.
    + change (ret tt db) with (Ok tt, db, no_log).
      cbn iota beta. rewrite IH. destruct completes; reflexivity.
Qed.

Lemma yieldSources_run (i : nat) (us : list Gemini.Source) (db : DB) :
  Gemini.yieldSources i us db =
  (Ok tt, db,
   only (map Yield (map (fun p => Gemini.sourceLine (fst p) (snd p))
                        (combine (seq i (length us)) us)))).
Proof.
  revert i. induction us as [|u us IH]; intros i; simpl; [reflexivity|].
  unfold bind, emit. rewrite IH. reflexivity.
Qed.

Lemma generateInternalAnswer_run (question : string) (dbChunks : list (option string)) (db : DB) :
  Gemini.generateInternalAnswer env question dbChunks db =
  let request := Gemini.internalRequest question dbChunks in
  (Ok tt, db,
   only (GenerateContentStream request ::
         match generateContentStream env request with
         | Ok s =>
             flat_map delivered (stream_chunks s) ++
             (if stream_completes s
              then [StreamDone; Yield Gemini.internalFooter]
              else [ConsoleError InternalAnswerError;
                    Yield "I encountered an error generating the answer."%string])
         | Throw _ =>
             [ConsoleError InternalAnswerError;
              Yield "I encountered an error generating the answer."%string]
         end)).
Proof.
  unfold Gemini.generateInternalAnswer.
  unfold try_catch, bind at 1, emit at 1, bind at 1, await.
  destruct (generateContentStream env _) as [s|e]; [|reflexivity].
  unfold bind at 1. cbv zeta. rewrite for_await_internal.
  destruct (stream_completes s); cbv [emit ret bind console_error only log_app main background];
    cbn iota beta; rewrite ?app_nil_r, <- ?app_assoc; reflexivity.
Qed.

Lemma generateWebSearchAnswer_run (question : string) (db : DB) :
  Gemini.generateWebSearchAnswer env question db =
  let request := Gemini.webRequest question in
  (Ok tt, db,
   only (GenerateContentStream request ::
         match generateContentStream env request with
         | Ok s =>
             flat_map delivered (stream_chunks s) ++
             (if stream_completes s
              then StreamDone ::
                   map Yield
                     (match gathered (stream_chunks s) with
                      | [] => [Gemini.googleFooter]
                      | _ :: _ =>
                          Gemini.sourcesHeader ::
                          numbered (uniqueSources (stream_chunks s))
                      end)
              else [ConsoleError WebSearchError;
                    Yield "I encountered an error searching for the answer."%string])
         | Throw _ =>
             [ConsoleError WebSearchError;
              Yield "I encountered an error searching for the answer."%string]
         end)).
Proof.
  unfold Gemini.generateWebSearchAnswer.
  unfold try_catch, bind at 1, emit at 1, bind at 1, await.
  destruct (generateContentStream env _) as [s|e]; [|reflexivity].
  unfold bind at 1.
  rewrite (for_await_text (stream_chunks s) (stream_completes s) Gemini.captureCitations).
  fold (gathered (stream_chunks s)).
  destruct (stream_completes s).
  - unfold uniqueSources, numbered.
    destruct (gathered (stream_chunks s)) as [|g gs] eqn:Hg.
    + cbv [emit ret bind console_error only log_app main background length Nat.ltb Nat.leb];
        cbn iota beta; rewrite ?app_nil_r, <- ?app_assoc; reflexivity.
    + change (0 <? length (g :: gs))%nat with true. cbv iota.
      unfold bind at 1, emit at 1. rewrite yieldSources_run.
      cbv [only log_app main background]; cbn iota beta.
      rewrite ?app_nil_r, <- ?app_assoc. reflexivity.
  - cbv [emit ret bind console_error only log_app main background];
      cbn iota beta; rewrite ?app_nil_r, <- ?app_assoc; reflexivity.
Qed.

End Generators.

(** ** Deduplication of citations *)

Section Dedup.

Lemma filter_twice {A} (p q : A -> bool) (l : list A) :
  filter q (filter p l) = filter (fun x => p x && q x) l.
Proof.
  induction l as [|x l IH]; simpl; [reflexivity|].
  destruct (p x); simpl; [destruct (q x)|]; now rewrite IH.
Qed.

Lemma filter_absorb {A} (p q : A -> bool) (l : list A) :
  (forall x, p x = true -> q x = true) ->
  filter p (filter q l) = filter p l.
Proof.
  intros Hpq. induction l as [|x l IH]; simpl; [reflexivity|].
  destruct (q x) eqn:Hq; simpl.
  - destruct (p x); now rewrite IH.
  - destruct (p x) eqn:Hp; [apply Hpq in Hp; congruence | exact IH].
Qed.

Lemma filter_comm {A} (p q : A -> bool) (l : list A) :
  filter p (filter q l) = filter q (filter p l).
Proof.
  rewrite !filter_twice. apply filter_ext. intros x. apply andb_comm.
Qed.

(** Filtering by a test on the address commutes with [firstOccurrences]. *)
Lemma firstOccurrences_filter (p : Gemini.Source -> bool) (l : list Gemini.Source) :
  (forall a b, Gemini.url a = Gemini.url b -> p a = p b) ->
  firstOccurrences (filter p l) = filter p (firstOccurrences l).
Proof.
  intros Hp. induction l as [|x l IH]; simpl; [reflexivity|].
  destruct (p x) eqn:Hx; simpl; rewrite ?Hx.
  - rewrite IH. f_equal. apply filter_comm.
  - rewrite IH. symmetry. apply filter_absorb.
    intros y Hy. unfold hasUrl.
    destruct (String.eqb_spec (Gemini.url y) (Gemini.url x)) as [E|E]; [|reflexivity].
    rewrite (Hp y x E) in Hy. congruence.
Qed.

Lemma find_known (acc : list Gemini.Source) (c : Gemini.Source) :
  known acc c = match find (hasUrl (Gemini.url c)) acc with Some _ => true | None => false end.
Proof.
  unfold known. induction acc as [|a acc IH]; simpl; [reflexivity|].
  destruct (hasUrl (Gemini.url c) a); [reflexivity | exact IH].
Qed.

Lemma pushNew_firstOccurrences (cs acc : list Gemini.Source) :
  fold_left pushNew cs acc =
  acc ++ firstOccurrences (filter (fun c => negb (known acc c)) cs).
Proof.
  revert acc. induction cs as [|c cs IH]; intros acc; simpl.
  - now rewrite app_nil_r.
  - unfold pushNew at 2. rewrite (find_known acc c).
    destruct (find (hasUrl (Gemini.url c)) acc) as [hit|]; simpl.
    + apply IH.
    + rewrite IH, <- app_assoc. simpl. do 2 f_equal.
      rewrite <- firstOccurrences_filter.
      * f_equal. rewrite filter_twice. apply filter_ext.
        intros x. unfold known. rewrite existsb_app. simpl.
        rewrite orb_false_r, negb_orb. f_equal. f_equal.
        unfold hasUrl. apply String.eqb_sym.
      * intros a b E. unfold hasUrl. now rewrite E.
Qed.

Lemma captureCitation_pushNew (acc : list Gemini.Source) (c : GroundingChunk) :
  Gemini.captureCitation acc c = fold_left pushNew (citation c) acc.
Proof.
  unfold Gemini.captureCitation, citation.
  destruct (web c) as [w|]; [|reflexivity].
  destruct (web_uri w) as [u|]; [|reflexivity].
  destruct (web_title w) as [t|]; [|reflexivity].
  destruct (truthy u && truthy t); reflexivity.
Qed.

Lemma gathered_from (cs : list StreamChunk) (acc : list Gemini.Source) :
  fold_left Gemini.captureCitations cs acc = fold_left pushNew (citations cs) acc.
Proof.
  revert acc. induction cs as [|chunk cs IH]; intros acc; simpl; [reflexivity|].
  rewrite fold_left_app, IH. f_equal.
  unfold Gemini.captureCitations.
  destruct (groundingChunks chunk) as [gcs|]; [|reflexivity].
  clear. revert acc. induction gcs as [|g gcs IHg]; intros acc; simpl; [reflexivity|].
  now rewrite fold_left_app, IHg, captureCitation_pushNew.
Qed.

(** The loop gathers the first occurrences. *)
Lemma gathered_firstOccurrences (cs : list StreamChunk) :
  gathered cs = firstOccurrences (citations cs).
Proof.
  unfold gathered. rewrite gathered_from, pushNew_firstOccurrences. simpl.
  f_equal. induction (citations cs) as [|x l IH]; simpl; congruence.
Qed.

Lemma firstOccurrences_urls (l : list Gemini.Source) (s : Gemini.Source) :
  In s (firstOccurrences l) -> In s l.
Proof.
  induction l as [|x l IH]; simpl; [tauto|].
  intros [E|H]; [now left|]. right. apply IH.
  apply filter_In in H. tauto.
Qed.

Lemma firstOccurrences_NoDup (l : list Gemini.Source) :
  NoDup (map Gemini.url (firstOccurrences l)).
Proof.
  induction l as [|x l IH]; simpl; [constructor|].
  constructor.
  - intros H. apply in_map_iff in H. destruct H as (y & E & Hy).
    apply filter_In in Hy. destruct Hy as [_ Hy]. unfold hasUrl in Hy.
    rewrite E, String.eqb_refl in Hy. discriminate.
  - clear -IH. induction (firstOccurrences l) as [|y f IHf]; simpl; [constructor|].
    inversion IH as [|? ? Hn Hf]; subst.
    destruct (negb (hasUrl (Gemini.url x) y)); simpl; [|now apply IHf].
    constructor; [|now apply IHf].
    intros H. apply Hn. apply in_map_iff in H. destruct H as (z & E & Hz).
    apply in_map_iff. exists z. apply filter_In in Hz. tauto.
Qed.

(** Of each address exactly one entry is kept: its first citation. *)
Lemma firstOccurrences_first (l : list Gemini.Source) (u : string) :
  filter (hasUrl u) (firstOccurrences l) =
  match find (hasUrl u) l with
  | Some first => [first]
  | None => []
  end.
Proof.
  induction l as [|x l IH]; simpl; [reflexivity|].
  destruct (hasUrl u x) eqn:Hx.
  - f_equal. rewrite filter_twice.
    rewrite (filter_ext _ (fun _ => false)).
    + clear. induction (firstOccurrences l); simpl; auto.
    + intros y. unfold hasUrl in *. apply String.eqb_eq in Hx.
      destruct (String.eqb_spec (Gemini.url y) (Gemini.url x)) as [E|E]; simpl; [reflexivity|].
      destruct (String.eqb_spec (Gemini.url y) u); [congruence | reflexivity].
  - rewrite filter_absorb; [exact IH|].
    intros y Hy. unfold hasUrl in *. apply String.eqb_eq in Hy.
    destruct (String.eqb_spec (Gemini.url y) (Gemini.url x)) as [E|E]; [|reflexivity].
    rewrite <- E, Hy, String.eqb_refl in Hx. discriminate.
Qed.

Lemma map_set_fresh {V} (m : list (string * V)) (k : string) (v : V) :
  ~ In k (map fst m) -> Gemini.map_set m k v = m ++ [(k, v)].
Proof.
  induction m as [|[k' v'] m IH]; simpl; intros Hk; [reflexivity|].
  destruct (String.eqb_spec k' k) as [E|E]; [tauto|].
  rewrite IH; tauto.
Qed.

Lemma new_Map_distinct {V} (entries m : list (string * V)) :
  NoDup (map fst (m ++ entries)) ->
  fold_left (fun m kv => Gemini.map_set m (fst kv) (snd kv)) entries m = m ++ entries.
Proof.
  revert m. induction entries as [|[k v] es IH]; intros m Hnd; simpl.
  - now rewrite app_nil_r.
  - rewrite map_set_fresh.
    + rewrite IH; rewrite <- app_assoc; [reflexivity | exact Hnd].
    + rewrite map_app in Hnd. simpl in Hnd.
      apply NoDup_remove_2 in Hnd. intros H. apply Hnd.
      apply in_or_app. now left.
Qed.

(** On sources with distinct addresses the [Map] changes nothing. *)
Lemma uniqueSources_gathered (cs : list StreamChunk) :
  uniqueSources cs = gathered cs.
Proof.
  unfold uniqueSources, Gemini.new_Map, Gemini.values.
  rewrite new_Map_distinct.
  - simpl. rewrite map_map. simpl. apply map_id.
  - simpl. rewrite map_map. simpl.
    rewrite gathered_firstOccurrences. apply firstOccurrences_NoDup.
Qed.

Lemma firstOccurrences_nil (l : list Gemini.Source) :
  firstOccurrences l = [] <-> l = [].
Proof. destruct l; simpl; split; congruence. Qed.

End Dedup.

(** ** The answer streams *)

Section AnswerStreams.
Context {SP : StringPrototype} (env : Services).

(** C5.  When the generation stream of the grounded path completes, what the
    generator yields is the non-empty generation chunks, verbatim and in
    order, then the fixed trailer naming the internal knowledge base; the
    trailer is yielded after the stream has reported completion, and it is
    the last chunk of the response. *)
Theorem grounded_stream_ends_with_trailer
    (question : string) (dbChunks : list (option string)) (db : DB) (s : ContentStream) :
  generateContentStream env (Gemini.internalRequest question dbChunks) = Ok s ->
  stream_completes s = true ->
  let run := Gemini.generateInternalAnswer env question dbChunks db in
  yields (main (log_of run)) =
    generatedText (stream_chunks s) ++ [Gemini.internalFooter] /\
  main (log_of run) =
    GenerateContentStream (Gemini.internalRequest question dbChunks) ::
    flat_map delivered (stream_chunks s) ++ [StreamDone; Yield Gemini.internalFooter] /\
  includes Gemini.internalFooter "Database (Internal Knowledge Base)" = true /\
  forall e,
    value (ChatRoute.answerStream env YES question e dbChunks db) =
    Ok (Streamed (generatedText (stream_chunks s) ++ [Gemini.internalFooter]) true).
Proof.
  intros Hs Hdone run.
  assert (Hmain : main (log_of run) =
                  GenerateContentStream (Gemini.internalRequest question dbChunks) ::
                  flat_map delivered (stream_chunks s) ++
                  [StreamDone; Yield Gemini.internalFooter]).
  { unfold run. rewrite generateInternalAnswer_run. cbv zeta.
    rewrite Hs, Hdone. reflexivity. }
  assert (Hout : yields (main (log_of run)) =
                 generatedText (stream_chunks s) ++ [Gemini.internalFooter]).
  { rewrite Hmain. simpl. rewrite yields_app, yields_delivered. reflexivity. }
  split; [exact Hout|]. split; [exact Hmain|]. split; [reflexivity|].
  intros e. unfold ChatRoute.answerStream, bind, drain.
  fold run in Hout, Hmain |- *.
  unfold run in Hout |- *. rewrite generateInternalAnswer_run in Hout |- *.
  cbv zeta in Hout |- *. cbn [log_of snd only main] in Hout.
  cbn [only main]. rewrite Hout. reflexivity.
Qed.

(** C6, as the code has it.  When the stream of the web path completes, what
    the generator yields is the non-empty generation chunks, then a footer
    that ends the output: the header and one numbered line per unique
    citation when at least one citation was collected, and otherwise the
    single trailer [googleFooter], whose text names Google Search. *)
Theorem web_stream_ends_with_footer
    (question : string) (db : DB) (s : ContentStream) :
  generateContentStream env (Gemini.webRequest question) = Ok s ->
  stream_completes s = true ->
  let run := Gemini.generateWebSearchAnswer env question db in
  let entries := uniqueSources (stream_chunks s) in
  let footer :=
    match entries with
    | [] => [Gemini.googleFooter]
    | _ :: _ => Gemini.sourcesHeader :: numbered entries
    end in
  yields (main (log_of run)) = generatedText (stream_chunks s) ++ footer /\
  main (log_of run) =
    GenerateContentStream (Gemini.webRequest question) ::
    flat_map delivered (stream_chunks s) ++ StreamDone :: map Yield footer /\
  (entries = [] <-> citations (stream_chunks s) = []) /\
  length (numbered entries) = length entries /\
  Gemini.googleFooter =
    (nl ++ nl ++ "---" ++ nl ++ "**Source:** Google Search")%string.
Proof.
  intros Hs Hdone run entries footer.
  assert (Hmain : main (log_of run) =
                  GenerateContentStream (Gemini.webRequest question) ::
                  flat_map delivered (stream_chunks s) ++ StreamDone :: map Yield footer).
  { unfold run. rewrite generateWebSearchAnswer_run. cbv zeta.
    rewrite Hs, Hdone. unfold footer, entries.
    rewrite uniqueSources_gathered.
    destruct (gathered (stream_chunks s)); reflexivity. }
  split; [|split; [exact Hmain|split; [|split]]].
  - rewrite Hmain. simpl. rewrite yields_app, yields_delivered. simpl.
    now rewrite yields_map_Yield.
  - unfold entries. rewrite uniqueSources_gathered, gathered_firstOccurrences.
    apply firstOccurrences_nil.
  - unfold numbered. rewrite length_map, length_combine, length_seq.
    apply Nat.min_id.
  - reflexivity.
Qed.


End AnswerStreams.

Lemma grounded_stream_ends_with_trailer_witness :
  generateContentStream (Fixtures.streaming Fixtures.plainStream)
    (Gemini.internalRequest "q"%string [Some "a"%string]) = Ok Fixtures.plainStream /\
  stream_completes Fixtures.plainStream = true /\
  yields (main (log_of (Gemini.generateInternalAnswer
                          (Fixtures.streaming Fixtures.plainStream)
                          "q"%string [Some "a"%string] Fixtures.emptyDb))) =
  ["Hello"; " world"; Gemini.internalFooter]%string.
Proof.
  split; [reflexivity|]. split; [reflexivity|].
  exact (proj1 (grounded_stream_ends_with_trailer
                  (Fixtures.streaming Fixtures.plainStream)
                  "q"%string [Some "a"%string] Fixtures.emptyDb Fixtures.plainStream
                  eq_refl eq_refl)).
Defined.

(** On a stream that completes without a citation the web path ends with
    the Google Search trailer, which does not read "Source: web search". *)
Lemma web_trailer_counterexample :
  generateContentStream (Fixtures.streaming Fixtures.plainStream)
    (Gemini.webRequest "q"%string) = Ok Fixtures.plainStream /\
  stream_completes Fixtures.plainStream = true /\
  citations (stream_chunks Fixtures.plainStream) = [] /\
  yields (main (log_of (Gemini.generateWebSearchAnswer
                          (Fixtures.streaming Fixtures.plainStream)
                          "q"%string Fixtures.emptyDb))) =
  ["Hello"; " world"; Gemini.googleFooter]%string /\
  includes Gemini.googleFooter "Source: web search" = false /\
  includes Gemini.googleFooter "web search" = false.
Proof. repeat split; reflexivity. Qed.

Lemma web_stream_ends_with_footer_witness :
  generateContentStream (Fixtures.streaming Fixtures.citedStream)
    (Gemini.webRequest "q"%string) = Ok Fixtures.citedStream /\
  stream_completes Fixtures.citedStream = true /\
  yields (main (log_of (Gemini.generateWebSearchAnswer
                          (Fixtures.streaming Fixtures.citedStream)
                          "q"%string Fixtures.emptyDb))) =
  ["Hello"; " world"; Gemini.sourcesHeader;
   "1. [First](https://a.example)" ++ nl;
   "2. [Other](https://b.example)" ++ nl]%string.
Proof.
  split; [reflexivity|]. split; [reflexivity|].
  exact (proj1 (web_stream_ends_with_footer
                  (Fixtures.streaming Fixtures.citedStream)
                  "q"%string Fixtures.emptyDb Fixtures.citedStream
                  eq_refl eq_refl)).
Defined.


(** ** Arithmetic in [float8] *)

Section Float8.
Local Open Scope Q_scope.











(** What the functions are given and what they compute, at the threshold
    of the duplicate check: 0.85 is the float8 below it; a distance of
    0.15000000000000002 and the next float8 above it both give that very
    similarity, the one after gives the float8 below (in lowest terms). *)
Example float8_at_the_threshold :
  Sql.float8 (85 # 100) = 7656119366529843 # 9007199254740992 /\
  Sql.float8 (1 - (5404319552844596 # 36028797018963968)) =
    7656119366529843 # 9007199254740992 /\
  Sql.float8 (1 - (5404319552844597 # 36028797018963968)) =
    7656119366529843 # 9007199254740992 /\
  Sql.float8 (1 - (5404319552844598 # 36028797018963968)) =
    3828059683264921 # 4503599627370496 /\
  Sql.float8 (50 # 100) = 1 # 2 /\
  Sql.float8 (1 - 0) = 1.
Proof. vm_compute. repeat split. Qed.

End Float8.

(** ** The queries *)

Section Queries.
Context (distance : Embedding -> Embedding -> Q).

Lemma insert_by_In {A} (key : A -> Q) (x y : A) (l : list A) :
  In y (Sql.insert_by key x l) <-> y = x \/ In y l.
Proof.
  induction l as [|z l IH]; simpl.
  - intuition congruence.
  - destruct (Qle_bool (key x) (key z)); simpl; [intuition congruence|].
    rewrite IH. intuition congruence.
Qed.

Lemma order_by_In {A} (key : A -> Q) (y : A) (l : list A) :
  In y (Sql.order_by key l) <-> In y l.
Proof.
  unfold Sql.order_by. induction l as [|x l IH]; simpl; [tauto|].
  rewrite insert_by_In, IH. intuition congruence.
Qed.

Lemma order_by_nil {A} (key : A -> Q) (l : list A) :
  Sql.order_by key l = [] <-> l = [].
Proof.
  split; [|now intros ->].
  destruct l as [|x l]; [reflexivity|]. intros H.
  assert (Hin : In x (Sql.order_by key (x :: l))) by (apply order_by_In; now left).
  rewrite H in Hin. destruct Hin.
Qed.

Lemma inbox_candidate_spec (q : Embedding) (threshold : Q) (r : QueueRow) :
  Sql.inbox_candidate distance q threshold r = true <->
  status r = pending /\
  exists e, aq_embedding r = Some e /\
    (Sql.float8 threshold <= Sql.similarity distance e q)%Q.
Proof.
  unfold Sql.inbox_candidate.
  destruct (aq_embedding r) as [e|]; [destruct (status r)|].
  - rewrite Qle_bool_iff. split.
    + intros H. split; [reflexivity|]. now exists e.
    + intros (_ & e' & E & H). now injection E as <-.
  - split; [discriminate|]. intros (E & _). discriminate.
  - split; [discriminate|]. intros (_ & e' & E & _). discriminate.
Qed.

(** The check returns a row exactly when a pending entry with an embedding
    reaches the threshold. *)
Lemma match_inbox_questions_hit (aq : list QueueRow) (q : Embedding) (threshold : Q) (n : nat) :
  Sql.match_inbox_questions distance aq q threshold (S n) <> [] <->
  exists r e,
    In r aq /\ status r = pending /\ aq_embedding r = Some e /\
    (Sql.float8 threshold <= Sql.similarity distance e q)%Q.
Proof.
  unfold Sql.match_inbox_questions.
  set (key := fun r : QueueRow => match aq_embedding r with
                                  | Some e => distance e q
                                  | None => 0
                                  end).
  set (selected := filter (Sql.inbox_candidate distance q threshold) aq).
  split.
  - intros H.
    destruct (Sql.order_by key selected) as [|r rest] eqn:Ho; [now elim H|].
    assert (Hin : In r selected).
    { apply (order_by_In key). rewrite Ho. now left. }
    apply filter_In in Hin. destruct Hin as [Hin Hc].
    apply inbox_candidate_spec in Hc. destruct Hc as (Hp & e & He & Hle).
    now exists r, e.
  - intros (r & e & Hin & Hp & He & Hle) H.
    assert (Hsel : In r selected).
    { apply filter_In. split; [exact Hin|].
      apply inbox_candidate_spec. split; [exact Hp|]. now exists e. }
    destruct (Sql.order_by key selected) as [|r' rest] eqn:Ho.
    + apply order_by_nil in Ho. rewrite Ho in Hsel. destruct Hsel.
    + simpl in H. discriminate.
Qed.

End Queries.

(** ** The queue writer *)

Section QueueWriter.
Context {SP : StringPrototype} (env : Services).

Lemma addToAdminQueue_task_run (question : string) (e : Embedding) (db : DB) :
  ChatRoute.addToAdminQueue_task env question e db =
  let rpc := Rpc_match_inbox_questions e (85 # 100) 1 in
  match store_fault env OpMatchInbox with
  | Some err => insertOutcome env question e db [rpc; ConsoleError (InboxCheckError err)]
  | None =>
      match Sql.match_inbox_questions (cosine_distance env) (admin_queue db)
              e (85 # 100) 1 with
      | [] => insertOutcome env question e db [rpc]
      | _ :: _ => (Ok tt, db, only [rpc])
      end
  end.
Proof.
  unfold ChatRoute.addToAdminQueue_task, insertOutcome.
  cbv [try_catch bind emit get_db put_db ret console_error].
  destruct (store_fault env OpMatchInbox) as [err|].
  - destruct (store_fault env OpInsertQueue) as [ierr|]; cbn iota beta.
    + destruct (negb (code ierr =? "23505")%string); reflexivity.
    + reflexivity.
  - destruct (Sql.match_inbox_questions _ _ _ _ _) as [|hit hits]; cbn iota beta.
    + destruct (store_fault env OpInsertQueue) as [ierr|]; cbn iota beta.
      * destruct (negb (code ierr =? "23505")%string); reflexivity.
      * reflexivity.
    + reflexivity.
Qed.

(** C4, as the code has it.  When the duplicate check succeeds, it returns
    an entry exactly when some pending entry with an embedding has cosine
    similarity at least 0.85 to the question's embedding -- the similarity
    and the 0.85 as the store has them, in float8.  If it returns one, the
    writer requests no insert and the queue is unchanged.  If it returns
    none, the writer inserts a pending entry whose text is the given
    question trimmed and whose embedding is the given one: it requests that
    one insert, and when the store accepts it the entry is appended to the
    queue; when the store refuses it the queue is unchanged. *)
Theorem enqueue_unless_similar_pending (question : string) (e : Embedding) (db : DB) :
  store_fault env OpMatchInbox = None ->
  let hits :=
    Sql.match_inbox_questions (cosine_distance env) (admin_queue db) e (85 # 100) 1 in
  let run := ChatRoute.addToAdminQueue_task env question e db in
  let rpc := Rpc_match_inbox_questions e (85 # 100) 1 in
  (hits <> [] <->
   exists r e',
     In r (admin_queue db) /\ status r = pending /\ aq_embedding r = Some e' /\
     (Sql.float8 (85 # 100) <= Sql.similarity (cosine_distance env) e' e)%Q) /\
  (hits <> [] -> run = (Ok tt, db, only [rpc])) /\
  (hits = [] ->
   exists rest,
     main (log_of run) =
       rpc :: Insert_admin_queue (trim question) pending e :: rest /\
     filter is_queue_event rest = [] /\
     (store_fault env OpInsertQueue = None ->
      rest = [] /\ final_db run = enqueued question e db) /\
     (store_fault env OpInsertQueue <> None -> final_db run = db)).
Proof.
  intros Hcheck hits run rpc.
  split; [apply match_inbox_questions_hit|].
  unfold run. rewrite addToAdminQueue_task_run. cbv zeta. rewrite Hcheck.
  fold hits. fold rpc. split.
  - intros Hne. destruct hits; [now elim Hne | reflexivity].
  - intros ->. unfold insertOutcome.
    destruct (store_fault env OpInsertQueue) as [err|].
    + exists (if negb (code err =? "23505")%string
              then [ConsoleError (QueueInsertError err)] else []).
      split; [reflexivity|]. split.
      * destruct (negb (code err =? "23505")%string); reflexivity.
      * split; [discriminate | reflexivity].
    + exists []. split; [reflexivity|]. split; [reflexivity|].
      split; [intros _; split; reflexivity | congruence].
Qed.

(** C10.  When the duplicate check itself resolves with an error, the writer
    logs that error and goes on to request the insert, whatever the queue
    holds; when the store accepts it the question is in the queue. *)
Theorem enqueue_despite_failed_check
    (question : string) (e : Embedding) (db : DB) (err : PgError) :
  store_fault env OpMatchInbox = Some err ->
  let run := ChatRoute.addToAdminQueue_task env question e db in
  value run = Ok tt /\
  exists rest,
    main (log_of run) =
      Rpc_match_inbox_questions e (85 # 100) 1 ::
      ConsoleError (InboxCheckError err) ::
      Insert_admin_queue (trim question) pending e :: rest /\
    filter is_queue_event rest = [] /\
    (store_fault env OpInsertQueue = None ->
     rest = [] /\ final_db run = enqueued question e db).
Proof.
  intros Hcheck run. unfold run.
  rewrite addToAdminQueue_task_run. cbv zeta. rewrite Hcheck.
  unfold insertOutcome.
  destruct (store_fault env OpInsertQueue) as [ierr|].
  - split; [reflexivity|].
    exists (if negb (code ierr =? "23505")%string
            then [ConsoleError (QueueInsertError ierr)] else []).
    split; [reflexivity|]. split.
    + destruct (negb (code ierr =? "23505")%string); reflexivity.
    + discriminate.
  - split; [reflexivity|]. exists [].
    split; [reflexivity|]. split; [reflexivity|]. intros _. split; reflexivity.
Qed.

(** The task launches nothing and does not throw. *)
Lemma addToAdminQueue_task_quiet (question : string) (e : Embedding) (db : DB) :
  value (ChatRoute.addToAdminQueue_task env question e db) = Ok tt /\
  background (log_of (ChatRoute.addToAdminQueue_task env question e db)) = [] /\
  knowledge_base (final_db (ChatRoute.addToAdminQueue_task env question e db)) =
    knowledge_base db /\
  filter is_embedding_call (main (log_of (ChatRoute.addToAdminQueue_task env question e db))) = [] /\
  exists rest,
    main (log_of (ChatRoute.addToAdminQueue_task env question e db)) =
    Rpc_match_inbox_questions e (85 # 100) 1 :: rest.
Proof.
  rewrite addToAdminQueue_task_run. cbv zeta. unfold insertOutcome.
  destruct (store_fault env OpMatchInbox) as [err|];
    [|destruct (Sql.match_inbox_questions _ _ _ _ _)];
    try destruct (store_fault env OpInsertQueue) as [ierr|];
    try destruct (negb (code ierr =? "23505")%string);
    repeat split; try reflexivity; eexists; reflexivity.
Qed.

End QueueWriter.

(** A question given with a leading blank is queued without it. *)
Lemma enqueue_given_text_counterexample :
  store_fault (Fixtures.streaming Fixtures.plainStream) OpMatchInbox = None /\
  Sql.match_inbox_questions
    (cosine_distance (Fixtures.streaming Fixtures.plainStream))
    (admin_queue Fixtures.emptyDb) [3 # 1] (85 # 100) 1 = [] /\
  map user_question
    (admin_queue (final_db (ChatRoute.addToAdminQueue_task
                              (Fixtures.streaming Fixtures.plainStream)
                              " hi"%string [3 # 1] Fixtures.emptyDb))) = ["hi"%string] /\
  main (log_of (ChatRoute.addToAdminQueue_task
                  (Fixtures.streaming Fixtures.plainStream)
                  " hi"%string [3 # 1] Fixtures.emptyDb)) =
  [Rpc_match_inbox_questions [3 # 1] (85 # 100) 1;
   Insert_admin_queue "hi"%string pending [3 # 1]] /\
  "hi"%string <> " hi"%string.
Proof. repeat split; try reflexivity. discriminate. Qed.

Lemma enqueue_unless_similar_pending_witness :
  store_fault (Fixtures.streaming Fixtures.plainStream) OpMatchInbox = None /\
  ChatRoute.addToAdminQueue_task (Fixtures.streaming Fixtures.plainStream)
    "new"%string [3 # 1] Fixtures.pendingDb =
  (Ok tt, Fixtures.pendingDb, only [Rpc_match_inbox_questions [3 # 1] (85 # 100) 1]).
Proof.
  split; [reflexivity|].
  apply (proj1 (proj2 (enqueue_unless_similar_pending
                         (Fixtures.streaming Fixtures.plainStream)
                         "new"%string [3 # 1] Fixtures.pendingDb eq_refl))).
  vm_compute. discriminate.
Defined.

Lemma enqueue_despite_failed_check_witness :
  store_fault (Fixtures.services (Ok "NO"%string) (Ok Fixtures.plainStream) Fixtures.checkDown)
    OpMatchInbox = Some {| code := "57014" |} /\
  value (ChatRoute.addToAdminQueue_task
           (Fixtures.services (Ok "NO"%string) (Ok Fixtures.plainStream) Fixtures.checkDown)
           "new"%string [3 # 1] Fixtures.pendingDb) = Ok tt.
Proof.
  split; [reflexivity|].
  exact (proj1 (enqueue_despite_failed_check
                  (Fixtures.services (Ok "NO"%string) (Ok Fixtures.plainStream) Fixtures.checkDown)
                  "new"%string [3 # 1] Fixtures.pendingDb {| code := "57014" |} eq_refl)).
Defined.

(** The spec's example: a pending question at similarity 0.90 blocks the
    insert, one at similarity 0.80 does not. *)
Example dedup_threshold_examples :
  map user_question
    (admin_queue (final_db (ChatRoute.addToAdminQueue_task
                              (Fixtures.apart (10 # 100)) "Q2"%string [1] Fixtures.pendingDb)))
  = ["old"%string] /\
  map user_question
    (admin_queue (final_db (ChatRoute.addToAdminQueue_task
                              (Fixtures.apart (20 # 100)) "Q2"%string [1] Fixtures.pendingDb)))
  = ["old"%string; "Q2"%string].
Proof. split; reflexivity. Qed.

(** The check is decided in float8.  At a distance of 0.15000000000000002
    the difference from 1 is the float8 of 0.85, below 0.85 itself, and the
    pending question blocks the insert.  At the next float8,
    0.15000000000000005, the exact difference lies below the float8 of 0.85
    and the subtraction rounds to it: the insert is blocked still.  At the
    one after, 0.15000000000000008, it no longer is. *)
Example dedup_threshold_in_float8 :
  (1 - (5404319552844596 # 36028797018963968) < 85 # 100)%Q /\
  map user_question
    (admin_queue (final_db (ChatRoute.addToAdminQueue_task
                              (Fixtures.apart (5404319552844596 # 36028797018963968))
                              "Q2"%string [1] Fixtures.pendingDb)))
  = ["old"%string] /\
  (1 - (5404319552844597 # 36028797018963968) < Sql.float8 (85 # 100))%Q /\
  map user_question
    (admin_queue (final_db (ChatRoute.addToAdminQueue_task
                              (Fixtures.apart (5404319552844597 # 36028797018963968))
                              "Q2"%string [1] Fixtures.pendingDb)))
  = ["old"%string] /\
  map user_question
    (admin_queue (final_db (ChatRoute.addToAdminQueue_task
                              (Fixtures.apart (5404319552844598 # 36028797018963968))
                              "Q2"%string [1] Fixtures.pendingDb)))
  = ["old"%string; "Q2"%string].
Proof. vm_compute. repeat split. Qed.

(** ** The chat handler *)

Lemma filter_none {A} (p : A -> bool) (l : list A) :
  (forall x, In x l -> p x = false) -> filter p l = [].
Proof.
  induction l as [|x l IH]; simpl; intros H; [reflexivity|].
  rewrite (H x) by now left. apply IH. intros y Hy. apply H. now right.
Qed.

Lemma filter_by_class {A} (class p : A -> bool) (l : list A) :
  forallb class l = true -> (forall x, class x = true -> p x = false) ->
  filter p l = [].
Proof.
  intros Hc Hp. apply filter_none. intros x Hx. apply Hp.
  rewrite forallb_forall in Hc. now apply Hc.
Qed.

(** Brings the log of a composed run down to its lists of events. *)
Ltac flatten_log :=
  cbv [log_of snd log_app only main background all_events];
  cbn iota beta; simpl; rewrite ?app_nil_r, ?filter_app.

(** Closes [filter p l = []] for events [l] of a class [p] rejects. *)
Ltac none_of_class class facts :=
  rewrite (filter_by_class class); [| apply facts | now intros []].

Section Pipeline.
Context {SP : StringPrototype} (env : Services).

Lemma judge_outcome (question : string) (dbChunks : list (option string)) (db : DB) :
  Gemini.judgeContextRelevance env question dbChunks db =
  (Ok (fst (judgeOutcome env question dbChunks)), db,
   only (snd (judgeOutcome env question dbChunks))).
Proof.
  destruct dbChunks as [|c cs]; [reflexivity|].
  rewrite judge_run by discriminate. unfold judgeOutcome.
  destruct (generateContent env _); reflexivity.
Qed.

Lemma previewChunks_run (cs : list (option string)) (db : DB) :
  ChatRoute.previewChunks cs db =
  (if forallb defined cs then Ok tt else Throw TypeError, db, no_log).
Proof.
  induction cs as [|[c|] cs IH]; simpl; [reflexivity | exact IH | reflexivity].
Qed.

Lemma retrieveAndJudge_run (question : string) (db : DB) :
  ChatRoute.retrieveAndJudge env question db =
  let call := EmbeddingsCreate embeddingModel question in
  match embeddings_create env embeddingModel question with
  | Throw x => (Throw x, db, only [call])
  | Ok [] => (Throw TypeError, db, only [call])
  | Ok (e :: _) =>
      let rpc := Rpc_match_documents e (50 # 100) 5 in
      match store_fault env OpMatchDocuments with
      | Some err =>
          (Ok (inl (Json 500 (ErrorBody "Failed to search knowledge base"))), db,
           only [call; rpc; ConsoleError (DatabaseSearchError err)])
      | None =>
          let cs := retrievedChunks env db e in
          if forallb defined (firstn 3 cs)
          then (Ok (inr {| ChatRoute.queryEmbedding := e;
                           ChatRoute.dbChunks := cs;
                           ChatRoute.judgment := fst (judgeOutcome env question cs) |}),
                db, only (call :: rpc :: snd (judgeOutcome env question cs)))
          else (Throw TypeError, db, only [call; rpc])
      end
  end.
Proof.
  unfold ChatRoute.retrieveAndJudge, OpenAI.generateEmbedding.
  fold embeddingModel. cbv zeta.
  unfold bind at 1. unfold bind at 1. unfold emit at 1. unfold bind at 1.
  unfold await at 1.
  destruct (embeddings_create env embeddingModel question) as [[|e more]|x];
    try reflexivity.
  cbv [ret throw]. cbn iota beta.
  unfold bind at 1. unfold emit at 1.
  destruct (store_fault env OpMatchDocuments) as [err|]; [reflexivity|].
  unfold bind at 1, get_db at 1. fold (retrievedChunks env db e).
  unfold bind at 1. rewrite previewChunks_run.
  destruct (forallb defined (firstn 3 (retrievedChunks env db e))); [|reflexivity].
  unfold bind at 1.
  assert (Hj : (if (0 <? length (retrievedChunks env db e))%nat
                then Gemini.judgeContextRelevance env question (retrievedChunks env db e)
                else ret NO) db =
               (Ok (fst (judgeOutcome env question (retrievedChunks env db e))), db,
                only (snd (judgeOutcome env question (retrievedChunks env db e))))).
  { destruct (retrievedChunks env db e) as [|c cs]; [reflexivity|].
    change (0 <? length (c :: cs))%nat with true. cbv iota. apply judge_outcome. }
  unfold ret in Hj. rewrite Hj.
  cbv [log_app only no_log main background]. cbn iota beta.
  simpl. rewrite app_nil_r. reflexivity.
Qed.

Lemma answerStream_YES (question : string) (e : Embedding)
    (dbChunks : list (option string)) (db : DB) :
  let gen := Gemini.generateInternalAnswer env question dbChunks db in
  ChatRoute.answerStream env YES question e dbChunks db =
  (Ok (Streamed (yields (main (log_of gen))) true), db, only (main (log_of gen))).
Proof.
  cbv zeta. unfold ChatRoute.answerStream, bind, drain.
  rewrite generateInternalAnswer_run. cbv zeta.
  cbv [ret log_of snd only main background log_app no_log]. cbn iota beta.
  rewrite ?app_nil_r. reflexivity.
Qed.

Lemma answerStream_NO (question : string) (e : Embedding)
    (dbChunks : list (option string)) (db : DB) :
  let task := ChatRoute.addToAdminQueue_task env question e db in
  let gen := Gemini.generateWebSearchAnswer env question (final_db task) in
  ChatRoute.answerStream env NO question e dbChunks db =
  (Ok (Streamed (yields (main (log_of gen))) true), final_db task,
   {| main := main (log_of gen); background := [main (log_of task)] |}).
Proof.
  cbv zeta. unfold ChatRoute.answerStream, ChatRoute.addToAdminQueue.
  destruct (addToAdminQueue_task_quiet env question e db) as (_ & Hbg & _).
  unfold bind, drain, detach.
  destruct (ChatRoute.addToAdminQueue_task env question e db) as [[r db1] l] eqn:Ht.
  cbn [log_of snd final_db fst] in *. rewrite Hbg.
  rewrite generateWebSearchAnswer_run. cbv zeta.
  cbv [ret log_of snd only main background log_app no_log]. cbn iota beta.
  simpl app. rewrite ?app_nil_r. reflexivity.
Qed.

Lemma delivered_generator_events (cs : list StreamChunk) :
  forallb generator_event (flat_map delivered cs) = true.
Proof.
  induction cs as [|c cs IH]; simpl; [reflexivity|].
  destruct (truthy (chunk_text c)); simpl; exact IH.
Qed.

Lemma internal_generator_events (question : string) (dbChunks : list (option string)) (db : DB) :
  forallb generator_event
    (main (log_of (Gemini.generateInternalAnswer env question dbChunks db))) = true.
Proof.
  rewrite generateInternalAnswer_run. cbv zeta. simpl.
  destruct (generateContentStream env _) as [s|x]; [|reflexivity].
  rewrite forallb_app, delivered_generator_events.
  destruct (stream_completes s); reflexivity.
Qed.

Lemma web_generator_events (question : string) (db : DB) :
  forallb generator_event
    (main (log_of (Gemini.generateWebSearchAnswer env question db))) = true.
Proof.
  rewrite generateWebSearchAnswer_run. cbv zeta. simpl.
  destruct (generateContentStream env _) as [s|x]; [|reflexivity].
  rewrite forallb_app, delivered_generator_events.
  destruct (stream_completes s); [|reflexivity]. simpl.
  induction (match gathered (stream_chunks s) with
             | [] => [Gemini.googleFooter]
             | _ :: _ => Gemini.sourcesHeader :: numbered (uniqueSources (stream_chunks s))
             end) as [|t ts IH]; simpl; auto.
Qed.

Lemma queue_writer_events (question : string) (e : Embedding) (db : DB) :
  forallb queue_writer_event
    (main (log_of (ChatRoute.addToAdminQueue_task env question e db))) = true.
Proof.
  rewrite addToAdminQueue_task_run. cbv zeta. unfold insertOutcome.
  destruct (store_fault env OpMatchInbox) as [err|];
    [|destruct (Sql.match_inbox_questions _ _ _ _ _)];
    try destruct (store_fault env OpInsertQueue) as [ierr|];
    try destruct (negb (code ierr =? "23505")%string); reflexivity.
Qed.

(** The handler past its guards, in terms of its two stages. *)
Lemma POST_run (question : string) (db : DB) (session : Session) :
  getSession env = Some session ->
  truthy question = true ->
  ChatRoute.POST env (Ok (JsString question)) db =
  match ChatRoute.retrieveAndJudge env question db with
  | (Throw _, db1, l1) =>
      (Ok (Json 500 (ErrorBody "Internal server error")), db1,
       log_app l1 (only [ConsoleError ChatApiError]))
  | (Ok (inl response), db1, l1) => (Ok response, db1, l1)
  | (Ok (inr got), db1, l1) =>
      let stage :=
        ChatRoute.answerStream env (ChatRoute.judgment got) question
          (ChatRoute.queryEmbedding got) (ChatRoute.dbChunks got) db1 in
      (value stage, final_db stage, log_app l1 (log_of stage))
  end.
Proof.
  intros Hs Hq. unfold ChatRoute.POST. rewrite Hs.
  unfold try_catch, bind at 1, await. cbn iota beta. rewrite Hq.
  unfold ChatRoute.answerQuestion, bind at 1.
  destruct (ChatRoute.retrieveAndJudge env question db) as [[[[resp|got]|x] db1] l1].
  - cbv [ret]. cbn iota beta. now rewrite !log_app_no_log_r, log_app_no_log_l.
  - cbv zeta.
    destruct (ChatRoute.judgment got).
    + rewrite answerStream_YES. cbv zeta. cbv [value final_db log_of fst snd].
      now rewrite log_app_no_log_l.
    + rewrite answerStream_NO. cbv zeta. cbv [value final_db log_of fst snd].
      now rewrite log_app_no_log_l.
  - cbv [console_error emit ret bind]. cbn iota beta.
    now rewrite log_app_no_log_l, log_app_no_log_r.
Qed.

Lemma judge_events (question : string) (dbChunks : list (option string)) :
  forallb judge_event (snd (judgeOutcome env question dbChunks)) = true.
Proof.
  unfold judgeOutcome. destruct dbChunks; [reflexivity|].
  destruct (generateContent env _); reflexivity.
Qed.

Lemma generateEmbedding_run (question : string) (db : DB) :
  OpenAI.generateEmbedding env question None db =
  (match embeddings_create env embeddingModel question with
   | Ok (e :: _) => Ok e
   | Ok [] => Throw TypeError
   | Throw x => Throw x
   end, db, only [EmbeddingsCreate embeddingModel question]).
Proof.
  unfold OpenAI.generateEmbedding. fold embeddingModel.
  cbv [bind emit await ret throw]. 
  destruct (embeddings_create env embeddingModel question) as [[|e more]|x];
    reflexivity.
Qed.

(** What a run of steps 1 and 2 that reaches step 3 has done. *)
Lemma retrieveAndJudge_reaches (question : string) (db db1 : DB)
    (got : ChatRoute.Retrieved) (l1 : Log) :
  ChatRoute.retrieveAndJudge env question db = (Ok (inr got), db1, l1) ->
  db1 = db /\
  (exists more,
     embeddings_create env embeddingModel question =
     Ok (ChatRoute.queryEmbedding got :: more)) /\
  store_fault env OpMatchDocuments = None /\
  ChatRoute.dbChunks got = retrievedChunks env db (ChatRoute.queryEmbedding got) /\
  ChatRoute.judgment got = fst (judgeOutcome env question (ChatRoute.dbChunks got)) /\
  l1 = only (EmbeddingsCreate embeddingModel question ::
             Rpc_match_documents (ChatRoute.queryEmbedding got) (50 # 100) 5 ::
             snd (judgeOutcome env question (ChatRoute.dbChunks got))).
Proof.
  rewrite retrieveAndJudge_run. cbv zeta.
  destruct (embeddings_create env embeddingModel question) as [[|e more]|x];
    try discriminate.
  destruct (store_fault env OpMatchDocuments) as [err|]; [discriminate|].
  destruct (forallb defined (firstn 3 (retrievedChunks env db e))); [|discriminate].
  intros H. injection H as <- <- <-. simpl.
  repeat split; try reflexivity. now exists more.
Qed.

(** C2.  When retrieval returns no chunk, the verdict is [NO]; the judge,
    called on an empty sequence, returns [NO] without an event; and the
    whole invocation makes no [generateContent] call, the one call of the
    judging step. *)
Theorem empty_retrieval_skips_judge
    (question : string) (db db1 : DB) (session : Session)
    (got : ChatRoute.Retrieved) (l1 : Log) :
  getSession env = Some session ->
  truthy question = true ->
  ChatRoute.retrieveAndJudge env question db = (Ok (inr got), db1, l1) ->
  ChatRoute.dbChunks got = [] ->
  let run := ChatRoute.POST env (Ok (JsString question)) db in
  ChatRoute.judgment got = NO /\
  Gemini.judgeContextRelevance env question (ChatRoute.dbChunks got) db1 =
    (Ok NO, db1, no_log) /\
  l1 = only [EmbeddingsCreate embeddingModel question;
             Rpc_match_documents (ChatRoute.queryEmbedding got) (50 # 100) 5] /\
  filter is_judge_call (all_events (log_of run)) = [].
Proof.
  intros Hs Hq Hr Hempty run.
  destruct (retrieveAndJudge_reaches _ _ _ _ _ Hr) as (-> & _ & _ & _ & Hj & Hl).
  rewrite Hempty in Hj, Hl. simpl in Hj, Hl.
  split; [exact Hj|]. split; [now rewrite Hempty|]. split; [exact Hl|].
  unfold run. rewrite (POST_run question db session Hs Hq), Hr. cbv zeta.
  rewrite Hj, answerStream_NO. cbv zeta. subst l1.
  flatten_log.
  none_of_class generator_event web_generator_events.
  none_of_class queue_writer_event queue_writer_events.
  reflexivity.
Qed.

(** What one run of the queue writer asks of the queue: the duplicate
    check, and an insert when the check fails or finds no entry. *)
Lemma addToAdminQueue_task_asks (question : string) (e : Embedding) (db : DB) :
  let task := ChatRoute.addToAdminQueue_task env question e db in
  let novel :=
    match store_fault env OpMatchInbox with
    | Some _ => true
    | None =>
        match Sql.match_inbox_questions (cosine_distance env) (admin_queue db)
                e (85 # 100) 1 with
        | [] => true
        | _ :: _ => false
        end
    end in
  filter is_queue_event (main (log_of task)) =
    Rpc_match_inbox_questions e (85 # 100) 1 ::
    (if novel then [Insert_admin_queue (trim question) pending e] else []) /\
  final_db task =
    match novel, store_fault env OpInsertQueue with
    | true, None => enqueued question e db
    | _, _ => db
    end.
Proof.
  cbv zeta. rewrite addToAdminQueue_task_run. cbv zeta. unfold insertOutcome.
  destruct (store_fault env OpMatchInbox) as [err|];
    [|destruct (Sql.match_inbox_questions _ _ _ _ _)];
    try destruct (store_fault env OpInsertQueue) as [ierr|];
    try destruct (negb (code ierr =? "23505")%string);
    split; reflexivity.
Qed.

(** C3.  In an invocation that reaches a verdict: on [NO] exactly one
    enqueue attempt is made, in the background.  The handler itself asks
    nothing of the queue; it launches one task, the queue writer; all that
    task asks of the queue is one duplicate check on the embedding returned
    by the embedding call of step 1, followed, when the check fails or finds
    no entry, by one insert of the trimmed question with that embedding; and
    the database is left as it was, or, when that insert was asked and
    accepted, with that one row more.  On [YES] no task is launched and the
    queue is not touched.  Either way the whole invocation, tasks included,
    makes that one embedding call only. *)
Theorem enqueue_once_with_query_embedding
    (question : string) (db db1 : DB) (session : Session)
    (got : ChatRoute.Retrieved) (l1 : Log) :
  getSession env = Some session ->
  truthy question = true ->
  ChatRoute.retrieveAndJudge env question db = (Ok (inr got), db1, l1) ->
  let run := ChatRoute.POST env (Ok (JsString question)) db in
  let task :=
    ChatRoute.addToAdminQueue_task env question (ChatRoute.queryEmbedding got) db1 in
  let novel :=
    match store_fault env OpMatchInbox with
    | Some _ => true
    | None =>
        match Sql.match_inbox_questions (cosine_distance env) (admin_queue db)
                (ChatRoute.queryEmbedding got) (85 # 100) 1 with
        | [] => true
        | _ :: _ => false
        end
    end in
  (ChatRoute.judgment got = NO ->
   background (log_of run) = [main (log_of task)] /\
   (exists rest,
      main (log_of task) =
      Rpc_match_inbox_questions (ChatRoute.queryEmbedding got) (85 # 100) 1 :: rest) /\
   filter is_queue_event (main (log_of run)) = [] /\
   filter is_queue_event (all_events (log_of run)) =
     Rpc_match_inbox_questions (ChatRoute.queryEmbedding got) (85 # 100) 1 ::
     (if novel
      then [Insert_admin_queue (trim question) pending (ChatRoute.queryEmbedding got)]
      else []) /\
   final_db run =
     match novel, store_fault env OpInsertQueue with
     | true, None => enqueued question (ChatRoute.queryEmbedding got) db
     | _, _ => db
     end) /\
  (ChatRoute.judgment got = YES ->
   background (log_of run) = [] /\
   filter is_queue_event (all_events (log_of run)) = [] /\
   final_db run = db) /\
  filter is_embedding_call (all_events (log_of run)) =
    [EmbeddingsCreate embeddingModel question] /\
  exists more,
    embeddings_create env embeddingModel question =
    Ok (ChatRoute.queryEmbedding got :: more).
Proof.
  intros Hs Hq Hr run task novel.
  destruct (retrieveAndJudge_reaches _ _ _ _ _ Hr) as (-> & Hemb & _ & _ & _ & Hl).
  pose proof (judge_events question (ChatRoute.dbChunks got)) as Hje.
  assert (Hrun : run =
                 let stage :=
                   ChatRoute.answerStream env (ChatRoute.judgment got) question
                     (ChatRoute.queryEmbedding got) (ChatRoute.dbChunks got) db in
                 (value stage, final_db stage, log_app l1 (log_of stage))).
  { unfold run. now rewrite (POST_run question db session Hs Hq), Hr. }
  cbv zeta in Hrun.
  split; [|split; [|split; [|exact Hemb]]].
  - intros Hno.
    destruct (addToAdminQueue_task_asks question (ChatRoute.queryEmbedding got) db)
      as [Hasks Hdb].
    fold task in Hasks, Hdb. fold novel in Hasks, Hdb.
    rewrite Hrun, Hno, answerStream_NO. cbv zeta. fold task. subst l1.
    split; [reflexivity|].
    split; [apply (addToAdminQueue_task_quiet env question (ChatRoute.queryEmbedding got) db)|].
    split; [|split; [|exact Hdb]].
    + flatten_log.
      none_of_class judge_event Hje.
      none_of_class generator_event web_generator_events.
      reflexivity.
    + flatten_log.
      none_of_class judge_event Hje.
      none_of_class generator_event web_generator_events.
      exact Hasks.
  - intros Hyes. rewrite Hrun, Hyes, answerStream_YES. cbv zeta. subst l1.
    split; [reflexivity|]. split; [|reflexivity].
    flatten_log.
    none_of_class judge_event Hje.
    none_of_class generator_event internal_generator_events.
    reflexivity.
  - rewrite Hrun. subst l1.
    destruct (ChatRoute.judgment got).
    + rewrite answerStream_YES. cbv zeta.
      flatten_log.
      none_of_class judge_event Hje.
      none_of_class generator_event internal_generator_events.
      reflexivity.
    + rewrite answerStream_NO. cbv zeta.
      flatten_log.
      none_of_class judge_event Hje.
      none_of_class generator_event web_generator_events.
      none_of_class queue_writer_event queue_writer_events.
      reflexivity.
Qed.

(** C9.  When the embedding call fails, or the knowledge search resolves
    with an error, the handler answers with a JSON error of status 500; it
    streams nothing, calls no generation, launches no task, requests nothing
    of the queue and leaves the database as it was. *)
Theorem retrieval_failure_is_an_error_response
    (question : string) (db : DB) (session : Session) :
  getSession env = Some session ->
  truthy question = true ->
  (exists x, value (OpenAI.generateEmbedding env question None db) = Throw x) \/
  store_fault env OpMatchDocuments <> None ->
  let run := ChatRoute.POST env (Ok (JsString question)) db in
  value run =
    Ok (Json 500
          (ErrorBody
             match value (OpenAI.generateEmbedding env question None db) with
             | Throw _ => "Internal server error"%string
             | Ok _ => "Failed to search knowledge base"%string
             end)) /\
  final_db run = db /\
  background (log_of run) = [] /\
  yields (main (log_of run)) = [] /\
  filter is_generation_call (all_events (log_of run)) = [] /\
  filter is_queue_event (all_events (log_of run)) = [].
Proof.
  intros Hs Hq Hfail run. unfold run.
  rewrite (POST_run question db session Hs Hq), retrieveAndJudge_run. cbv zeta.
  rewrite generateEmbedding_run in Hfail |- *. cbv [value fst] in Hfail |- *.
  destruct (embeddings_create env embeddingModel question) as [[|e more]|x].
  - repeat split; reflexivity.
  - destruct (store_fault env OpMatchDocuments) as [err|].
    + repeat split; reflexivity.
    + exfalso. destruct Hfail as [[x Hx]|Hf]; [discriminate | now apply Hf].
  - repeat split; reflexivity.
Qed.

End Pipeline.

Lemma empty_retrieval_skips_judge_witness :
  ChatRoute.retrieveAndJudge (Fixtures.streaming Fixtures.plainStream)
    "hi"%string Fixtures.emptyDb =
  (Ok (inr {| ChatRoute.queryEmbedding := [2 # 1];
              ChatRoute.dbChunks := [];
              ChatRoute.judgment := NO |}),
   Fixtures.emptyDb,
   only [EmbeddingsCreate embeddingModel "hi"%string;
         Rpc_match_documents [2 # 1] (50 # 100) 5]) /\
  filter is_judge_call
    (all_events (log_of (ChatRoute.POST (Fixtures.streaming Fixtures.plainStream)
                           (Ok (JsString "hi"%string)) Fixtures.emptyDb))) = [].
Proof.
  split; [reflexivity|].
  refine (proj2 (proj2 (proj2 (empty_retrieval_skips_judge
            (Fixtures.streaming Fixtures.plainStream) "hi"%string
            Fixtures.emptyDb Fixtures.emptyDb {| isAdmin := true |}
            {| ChatRoute.queryEmbedding := [2 # 1];
               ChatRoute.dbChunks := [];
               ChatRoute.judgment := NO |}
            (only [EmbeddingsCreate embeddingModel "hi"%string;
                   Rpc_match_documents [2 # 1] (50 # 100) 5])
            eq_refl eq_refl eq_refl eq_refl)))).
Defined.

Lemma enqueue_once_with_query_embedding_witness :
  ChatRoute.retrieveAndJudge (Fixtures.streaming Fixtures.plainStream)
    "hi"%string Fixtures.emptyDb =
  (Ok (inr {| ChatRoute.queryEmbedding := [2 # 1];
              ChatRoute.dbChunks := [];
              ChatRoute.judgment := NO |}),
   Fixtures.emptyDb,
   only [EmbeddingsCreate embeddingModel "hi"%string;
         Rpc_match_documents [2 # 1] (50 # 100) 5]) /\
  filter is_queue_event
    (all_events (log_of (ChatRoute.POST (Fixtures.streaming Fixtures.plainStream)
                           (Ok (JsString "hi"%string)) Fixtures.emptyDb))) =
  [Rpc_match_inbox_questions [2 # 1] (85 # 100) 1;
   Insert_admin_queue "hi"%string pending [2 # 1]] /\
  map user_question
    (admin_queue (final_db (ChatRoute.POST (Fixtures.streaming Fixtures.plainStream)
                              (Ok (JsString "hi"%string)) Fixtures.emptyDb))) =
  ["hi"%string] /\
  filter is_embedding_call
    (all_events (log_of (ChatRoute.POST (Fixtures.streaming Fixtures.plainStream)
                           (Ok (JsString "hi"%string)) Fixtures.emptyDb))) =
  [EmbeddingsCreate embeddingModel "hi"%string].
Proof.
  split; [reflexivity|].
  destruct (enqueue_once_with_query_embedding
              (Fixtures.streaming Fixtures.plainStream) "hi"%string
              Fixtures.emptyDb Fixtures.emptyDb {| isAdmin := true |}
              {| ChatRoute.queryEmbedding := [2 # 1];
                 ChatRoute.dbChunks := [];
                 ChatRoute.judgment := NO |}
              (only [EmbeddingsCreate embeddingModel "hi"%string;
                     Rpc_match_documents [2 # 1] (50 # 100) 5])
              eq_refl eq_refl eq_refl) as (Hno & _ & Hemb & _).
  destruct (Hno eq_refl) as (_ & _ & _ & Hasked & Hdb).
  rewrite Hasked, Hdb, Hemb. repeat split.
Defined.

Lemma retrieval_failure_is_an_error_response_witness :
  store_fault (Fixtures.services (Ok "YES"%string) (Ok Fixtures.plainStream) Fixtures.searchDown)
    OpMatchDocuments <> None /\
  value (ChatRoute.POST
           (Fixtures.services (Ok "YES"%string) (Ok Fixtures.plainStream) Fixtures.searchDown)
           (Ok (JsString "hi"%string)) Fixtures.policyDb) =
  Ok (Json 500 (ErrorBody "Failed to search knowledge base")).
Proof.
  split; [discriminate|].
  refine (proj1 (retrieval_failure_is_an_error_response
            (Fixtures.services (Ok "YES"%string) (Ok Fixtures.plainStream) Fixtures.searchDown)
            "hi"%string Fixtures.policyDb {| isAdmin := true |}
            eq_refl eq_refl (or_intror _))).
  discriminate.
Defined.

(** The end-to-end scenarios of the specification, run. *)
Example return_policy_scenario :
  ChatRoute.POST (Fixtures.streaming Fixtures.plainStream)
    (Ok (JsString "What is your return policy?"%string)) Fixtures.policyDb =
  (Ok (Streamed ["Hello"; " world"; Gemini.internalFooter]%string true),
   Fixtures.policyDb,
   only ([EmbeddingsCreate embeddingModel "What is your return policy?"%string;
          Rpc_match_documents [27 # 1] (50 # 100) 5;
          GenerateContent
            (Gemini.judgeRequest "What is your return policy?"%string
               [Some "Thirty days."%string]);
          GenerateContentStream
            (Gemini.internalRequest "What is your return policy?"%string
               [Some "Thirty days."%string])] ++
         flat_map delivered (stream_chunks Fixtures.plainStream) ++
         [StreamDone; Yield Gemini.internalFooter])).
Proof. reflexivity. Qed.

Example no_match_scenario :
  value (ChatRoute.POST (Fixtures.streaming Fixtures.citedStream)
           (Ok (JsString "What is your return policy?"%string)) Fixtures.emptyDb) =
  Ok (Streamed ["Hello"; " world"; Gemini.sourcesHeader;
                "1. [First](https://a.example)" ++ nl;
                "2. [Other](https://b.example)" ++ nl]%string true) /\
  background (log_of (ChatRoute.POST (Fixtures.streaming Fixtures.citedStream)
                        (Ok (JsString "What is your return policy?"%string))
                        Fixtures.emptyDb)) =
  [[Rpc_match_inbox_questions [27 # 1] (85 # 100) 1;
    Insert_admin_queue "What is your return policy?"%string pending [27 # 1]]].
Proof. split; reflexivity. Qed.

(** ** The knowledge handlers *)

Section Knowledge.
Context {SP : StringPrototype} (env : Services).

Lemma resolveQueue_run (qid : nat) (db : DB) :
  value (KnowledgeRoute.resolveQueue env qid db) = Ok tt /\
  knowledge_base (final_db (KnowledgeRoute.resolveQueue env qid db)) = knowledge_base db /\
  log_of (KnowledgeRoute.resolveQueue env qid db) =
    only [Resolve_admin_queue qid (now env)].
Proof.
  unfold KnowledgeRoute.resolveQueue. cbv [bind emit get_db put_db ret].
  destruct (store_fault env OpResolveQueue); repeat split; reflexivity.
Qed.

Lemma knowledge_POST_run (b : KnowledgeRoute.Body) (db : DB) :
  KnowledgeRoute.POST env (Ok b) db =
  if KnowledgeRoute.unauthorized env
  then (Ok (Json 401 (ErrorBody "Unauthorized")), db, no_log)
  else
    match KnowledgeRoute.question b, KnowledgeRoute.answer b with
    | Some q, Some a =>
        if truthy q && truthy a then
          let call := EmbeddingsCreate embeddingModel q in
          match embeddings_create env embeddingModel q with
          | Ok (e :: _) =>
              let ins := Insert_knowledge_base (trim q) (trim a) e (now env) in
              match store_fault env OpInsertKnowledge with
              | Some err =>
                  (Ok (Json 500 (ErrorBody "Failed to create knowledge base entry")),
                   db, only [call; ins; ConsoleError (KnowledgeWriteError err)])
              | None =>
                  let db' := {| knowledge_base := knowledge_base db ++ [createdRow env q a e db];
                                admin_queue := admin_queue db |} in
                  match KnowledgeRoute.queueId b with
                  | Some qid =>
                      (Ok (Json 200 (SuccessBody (createdRow env q a e db))),
                       final_db (KnowledgeRoute.resolveQueue env qid db'),
                       only [call; ins; Resolve_admin_queue qid (now env)])
                  | None =>
                      (Ok (Json 200 (SuccessBody (createdRow env q a e db))), db',
                       only [call; ins])
                  end
              end
          | _ =>
              (Ok (Json 500 (ErrorBody "Internal server error")), db,
               only [call; ConsoleError KnowledgeApiError])
          end
        else (Ok (Json 400 (ErrorBody "Question and answer are required")), db, no_log)
    | _, _ => (Ok (Json 400 (ErrorBody "Question and answer are required")), db, no_log)
    end.
Proof.
  unfold KnowledgeRoute.POST.
  destruct (KnowledgeRoute.unauthorized env); [reflexivity|].
  unfold try_catch, bind at 1, await. cbn iota beta.
  destruct (KnowledgeRoute.question b) as [q|]; [|reflexivity].
  destruct (KnowledgeRoute.answer b) as [a|]; [|reflexivity].
  destruct (truthy q && truthy a); [|reflexivity].
  unfold bind at 1. rewrite generateEmbedding_run. cbv zeta.
  destruct (embeddings_create env embeddingModel q) as [[|e more]|x];
    try reflexivity.
  unfold bind at 1, emit at 1.
  destruct (store_fault env OpInsertKnowledge) as [err|]; [reflexivity|].
  unfold bind at 1, get_db at 1. unfold bind at 1, put_db at 1. unfold bind at 1.
  fold (createdRow env q a e db).
  destruct (KnowledgeRoute.queueId b) as [qid|]; [|reflexivity].
  destruct (resolveQueue_run qid
              {| knowledge_base := knowledge_base db ++ [createdRow env q a e db];
                 admin_queue := admin_queue db |}) as (Hv & _ & Hl).
  destruct (KnowledgeRoute.resolveQueue env qid _) as [[r db2] l2].
  cbv [value final_db log_of fst snd] in Hv, Hl |- *. subst r l2. reflexivity.
Qed.

Lemma knowledge_PUT_run (b : KnowledgeRoute.Body) (db : DB) :
  KnowledgeRoute.PUT env (Ok b) db =
  if KnowledgeRoute.unauthorized env
  then (Ok (Json 401 (ErrorBody "Unauthorized")), db, no_log)
  else
    match KnowledgeRoute.id b, KnowledgeRoute.question b, KnowledgeRoute.answer b with
    | Some i, Some q, Some a =>
        if truthy q && truthy a then
          let call := EmbeddingsCreate embeddingModel q in
          match embeddings_create env embeddingModel q with
          | Ok (e :: _) =>
              let upd := Update_knowledge_base i (trim q) (trim a) e (now env) in
              let failed err :=
                (Ok (Json 500 (ErrorBody "Failed to update knowledge base entry")),
                 db, only [call; upd; ConsoleError (KnowledgeWriteError err)]) in
              match store_fault env OpUpdateKnowledge with
              | Some err => failed err
              | None =>
                  match find (fun r => (kb_id r =? i)%nat) (knowledge_base db) with
                  | Some _ =>
                      (Ok (Json 200 (SuccessBody (editedRow env i q a e))),
                       {| knowledge_base :=
                            map (fun r => if (kb_id r =? i)%nat
                                          then editedRow env i q a e else r)
                                (knowledge_base db);
                          admin_queue := admin_queue db |},
                       only [call; upd])
                  | None => failed {| code := "PGRST116" |}
                  end
              end
          | _ =>
              (Ok (Json 500 (ErrorBody "Internal server error")), db,
               only [call; ConsoleError KnowledgeApiError])
          end
        else (Ok (Json 400 (ErrorBody "ID, question, and answer are required")), db, no_log)
    | _, _, _ =>
        (Ok (Json 400 (ErrorBody "ID, question, and answer are required")), db, no_log)
    end.
Proof.
  unfold KnowledgeRoute.PUT.
  destruct (KnowledgeRoute.unauthorized env); [reflexivity|].
  unfold try_catch, bind at 1, await. cbn iota beta.
  destruct (KnowledgeRoute.id b) as [i|]; [|reflexivity].
  destruct (KnowledgeRoute.question b) as [q|]; [|reflexivity].
  destruct (KnowledgeRoute.answer b) as [a|]; [|reflexivity].
  destruct (truthy q && truthy a); [|reflexivity].
  unfold bind at 1. rewrite generateEmbedding_run. cbv zeta.
  destruct (embeddings_create env embeddingModel q) as [[|e more]|x];
    try reflexivity.
  unfold bind at 1, emit at 1. unfold bind at 1, get_db at 1.
  destruct (store_fault env OpUpdateKnowledge) as [err|]; [reflexivity|].
  destruct (find (fun r => (kb_id r =? i)%nat) (knowledge_base db)); reflexivity.
Qed.

Lemma embeds_value (question : string) (e : Embedding) (db : DB) :
  embeds env question e <->
  value (OpenAI.generateEmbedding env question None db) = Ok e.
Proof.
  rewrite generateEmbedding_run. unfold embeds, value. simpl.
  destruct (embeddings_create env embeddingModel question) as [[|e' more]|x].
  - split; [intros (m & H); discriminate | discriminate].
  - split.
    + intros (m & H). now injection H as -> _.
    + intros H. injection H as ->. now exists more.
  - split; [intros (m & H); discriminate | discriminate].
Qed.

(** What the handlers embed.  Create, edit and retrieval each make one
    embedding call, through [generateEmbedding] without an answer, on the
    submitted question text as it came; the stored (or query) embedding is
    what that call returned.  The stored question is the submitted text
    trimmed; so after a create or an edit whose question has no surrounding
    blanks, the entry's embedding is the embedding of its question text. *)
Theorem embedding_of_submitted_question :
  (forall b db row,
     value (KnowledgeRoute.POST env (Ok b) db) = Ok (Json 200 (SuccessBody row)) ->
     exists q e,
       KnowledgeRoute.question b = Some q /\
       kb_question row = trim q /\
       kb_embedding row = Some e /\
       embeds env q e /\
       embedsOnly q (log_of (KnowledgeRoute.POST env (Ok b) db)) /\
       knowledge_base (final_db (KnowledgeRoute.POST env (Ok b) db)) =
         knowledge_base db ++ [row] /\
       (trim q = q -> embeds env (kb_question row) e)) /\
  (forall b db row,
     value (KnowledgeRoute.PUT env (Ok b) db) = Ok (Json 200 (SuccessBody row)) ->
     exists q e,
       KnowledgeRoute.question b = Some q /\
       kb_question row = trim q /\
       kb_embedding row = Some e /\
       embeds env q e /\
       embedsOnly q (log_of (KnowledgeRoute.PUT env (Ok b) db)) /\
       In row (knowledge_base (final_db (KnowledgeRoute.PUT env (Ok b) db))) /\
       (forall r, In r (knowledge_base (final_db (KnowledgeRoute.PUT env (Ok b) db))) ->
                  kb_id r = kb_id row -> r = row) /\
       (trim q = q -> embeds env (kb_question row) e)) /\
  (forall question db got db1 l1,
     ChatRoute.retrieveAndJudge env question db = (Ok (inr got), db1, l1) ->
     embeds env question (ChatRoute.queryEmbedding got) /\
     embedsOnly question l1 /\
     exists rest,
       main l1 =
       EmbeddingsCreate embeddingModel question ::
       Rpc_match_documents (ChatRoute.queryEmbedding got) (50 # 100) 5 :: rest).
Proof.
  split; [|split].
  - intros b db row. rewrite knowledge_POST_run.
    destruct (KnowledgeRoute.unauthorized env); [discriminate|].
    destruct (KnowledgeRoute.question b) as [q|]; [|discriminate].
    destruct (KnowledgeRoute.answer b) as [a|]; [|discriminate].
    destruct (truthy q && truthy a); [|discriminate]. cbv zeta.
    destruct (embeddings_create env embeddingModel q) as [[|e more]|x] eqn:He;
      try discriminate.
    destruct (store_fault env OpInsertKnowledge) as [err|]; [discriminate|].
    assert (Hemb : embeds env q e) by (now exists more).
    destruct (KnowledgeRoute.queueId b) as [qid|];
      intros H; injection H as <-; exists q, e;
      (split; [reflexivity|]); (split; [reflexivity|]); (split; [reflexivity|]);
      (split; [exact Hemb|]); (split; [reflexivity|]);
      (split; [|intros Ht; simpl; now rewrite Ht]).
    + apply (resolveQueue_run qid).
    + reflexivity.
  - intros b db row. rewrite knowledge_PUT_run.
    destruct (KnowledgeRoute.unauthorized env); [discriminate|].
    destruct (KnowledgeRoute.id b) as [i|]; [|discriminate].
    destruct (KnowledgeRoute.question b) as [q|]; [|discriminate].
    destruct (KnowledgeRoute.answer b) as [a|]; [|discriminate].
    destruct (truthy q && truthy a); [|discriminate]. cbv zeta.
    destruct (embeddings_create env embeddingModel q) as [[|e more]|x] eqn:He;
      try discriminate.
    destruct (store_fault env OpUpdateKnowledge) as [err|]; [discriminate|].
    destruct (find (fun r => (kb_id r =? i)%nat) (knowledge_base db)) as [old|] eqn:Hf;
      [|discriminate].
    assert (Hemb : embeds env q e) by (now exists more).
    intros H; injection H as <-. exists q, e.
    split; [reflexivity|]. split; [reflexivity|]. split; [reflexivity|].
    split; [exact Hemb|]. split; [reflexivity|].
    cbv [final_db fst snd knowledge_base].
    split; [|split].
    + apply find_some in Hf. destruct Hf as [Hin Hid].
      apply in_map_iff. exists old. now rewrite Hid.
    + intros r Hr Hid. apply in_map_iff in Hr. destruct Hr as (r0 & E & _).
      destruct (kb_id r0 =? i)%nat eqn:Hi; [now symmetry|].
      subst r0. simpl in Hid. rewrite Hid, Nat.eqb_refl in Hi. discriminate.
    + intros Ht. simpl. now rewrite Ht.
  - intros question db got db1 l1 Hr.
    destruct (retrieveAndJudge_reaches env _ _ _ _ _ Hr) as (_ & Hemb & _ & _ & _ & ->).
    split; [exact Hemb|]. split.
    + unfold embedsOnly, all_events. simpl. rewrite app_nil_r.
      rewrite (filter_by_class judge_event); [reflexivity | apply judge_events | now intros []].
    + eexists; reflexivity.
Qed.

End Knowledge.

(** C8.  The handlers store the question trimmed and the embedding of the
    question as it came.  An edit that submits " a" for the entry 1 is
    answered 200 and leaves that entry with the question "a" and the
    embedding of " a", which is not the embedding the provider returns for
    "a": the entry's embedding does not correspond to its question text.  A
    create of " a" does the same.  The regeneration, run after the edit,
    embeds the stored question and puts the embedding of "a" in its place. *)
Theorem edit_stores_embedding_of_untrimmed_question :
  value (KnowledgeRoute.PUT (Fixtures.streaming Fixtures.plainStream)
           (Ok Fixtures.paddedEdit) Fixtures.policyDb) =
  Ok (Json 200 (SuccessBody
                  {| kb_id := 1;
                     kb_question := "a";
                     kb_answer := "b";
                     kb_embedding := Some [2 # 1];
                     updated_at := "2025-01-01T00:00:00.000Z" |})) /\
  knowledge_base (final_db (KnowledgeRoute.PUT (Fixtures.streaming Fixtures.plainStream)
                              (Ok Fixtures.paddedEdit) Fixtures.policyDb)) =
  [{| kb_id := 1;
      kb_question := "a";
      kb_answer := "b";
      kb_embedding := Some [2 # 1];
      updated_at := "2025-01-01T00:00:00.000Z" |}] /\
  value (OpenAI.generateEmbedding (Fixtures.streaming Fixtures.plainStream)
           " a"%string None Fixtures.policyDb) = Ok [2 # 1] /\
  value (OpenAI.generateEmbedding (Fixtures.streaming Fixtures.plainStream)
           "a"%string None Fixtures.policyDb) = Ok [1 # 1] /\
  ~ embeds (Fixtures.streaming Fixtures.plainStream) "a"%string [2 # 1] /\
  map (fun r => (kb_question r, kb_embedding r))
    (knowledge_base
       (final_db (KnowledgeRoute.POST (Fixtures.streaming Fixtures.plainStream)
                    (Ok {| KnowledgeRoute.id := None;
                           KnowledgeRoute.question := Some " a"%string;
                           KnowledgeRoute.answer := Some "b"%string;
                           KnowledgeRoute.queueId := None |})
                    Fixtures.emptyDb))) =
  [("a"%string, Some [2 # 1])] /\
  map (fun r => (kb_question r, kb_embedding r))
    (knowledge_base
       (final_db (Admin.regenerate_POST (Fixtures.streaming Fixtures.plainStream)
                    MoreFixtures2.working
                    (final_db (KnowledgeRoute.PUT (Fixtures.streaming Fixtures.plainStream)
                                 (Ok Fixtures.paddedEdit) Fixtures.policyDb))))) =
  [("a"%string, Some [1 # 1])].
Proof.
  repeat split; try reflexivity.
  intros (more & H). discriminate H.
Qed.

Lemma embedding_of_submitted_question_witness :
  value (KnowledgeRoute.PUT (Fixtures.streaming Fixtures.plainStream)
           (Ok Fixtures.plainEdit) Fixtures.policyDb) =
  Ok (Json 200 (SuccessBody
                  {| kb_id := 1;
                     kb_question := "a";
                     kb_answer := "b";
                     kb_embedding := Some [1 # 1];
                     updated_at := "2025-01-01T00:00:00.000Z" |})) /\
  embeds (Fixtures.streaming Fixtures.plainStream) "a"%string [1 # 1].
Proof.
  assert (Hput : value (KnowledgeRoute.PUT (Fixtures.streaming Fixtures.plainStream)
                          (Ok Fixtures.plainEdit) Fixtures.policyDb) =
                 Ok (Json 200 (SuccessBody
                                 {| kb_id := 1;
                                    kb_question := "a";
                                    kb_answer := "b";
                                    kb_embedding := Some [1 # 1];
                                    updated_at := "2025-01-01T00:00:00.000Z" |})))
    by reflexivity.
  split; [exact Hput|].
  destruct (proj1 (proj2 (embedding_of_submitted_question
                            (Fixtures.streaming Fixtures.plainStream)))
              _ _ _ Hput) as (q & e & Hq & Hrow & He & Hemb & _).
  injection Hq as <-. injection He as <-. exact Hemb.
Defined.

(* ================================================================== *)
(** * Further properties of the code *)
(* ================================================================== *)

(** ** Failures of the generation service *)

Section GeneratorFailures.
Context (env : Services).

(** X1.  [generateInternalAnswer] never throws and touches no data.  What it
    yields is decided by the generation service: when the call throws, the
    apology alone; when the stream breaks after some chunks, the non-empty
    texts delivered so far and then the apology, without the footer; when
    the stream completes, the texts and then the footer. *)
Theorem grounded_failure_is_inline
    (question : string) (dbChunks : list (option string)) (db : DB) :
  let run := Gemini.generateInternalAnswer env question dbChunks db in
  value run = Ok tt /\
  final_db run = db /\
  background (log_of run) = [] /\
  yields (main (log_of run)) =
    match generateContentStream env (Gemini.internalRequest question dbChunks) with
    | Ok s =>
        generatedText (stream_chunks s) ++
        [if stream_completes s then Gemini.internalFooter else internalApology]
    | Throw _ => [internalApology]
    end.
Proof.
  cbv zeta. rewrite generateInternalAnswer_run. cbv zeta.
  split; [reflexivity|]. split; [reflexivity|]. split; [reflexivity|].
  cbn [log_of snd only main]. simpl yields.
  destruct (generateContentStream env _) as [s|x]; [|reflexivity].
  rewrite yields_app, yields_delivered.
  destruct (stream_completes s); reflexivity.
Qed.

(** X2.  [generateWebSearchAnswer] never throws and touches no data.  When
    the call throws it yields the apology alone; when the stream breaks it
    yields the texts delivered so far and then the apology, and the
    citations gathered until then are dropped: no source list follows. *)
Theorem web_failure_is_inline (question : string) (db : DB) :
  let run := Gemini.generateWebSearchAnswer env question db in
  value run = Ok tt /\
  final_db run = db /\
  background (log_of run) = [] /\
  (forall x,
     generateContentStream env (Gemini.webRequest question) = Throw x ->
     yields (main (log_of run)) = [webApology]) /\
  (forall s,
     generateContentStream env (Gemini.webRequest question) = Ok s ->
     stream_completes s = false ->
     yields (main (log_of run)) = generatedText (stream_chunks s) ++ [webApology]).
Proof.
  cbv zeta. rewrite generateWebSearchAnswer_run. cbv zeta.
  split; [reflexivity|]. split; [reflexivity|]. split; [reflexivity|].
  cbn [log_of snd only main]. simpl yields. split.
  - intros x ->. reflexivity.
  - intros s -> ->. now rewrite yields_app, yields_delivered.
Qed.

End GeneratorFailures.

Lemma web_failure_is_inline_witness :
  generateContentStream (Fixtures.streaming MoreFixtures.brokenStream)
    (Gemini.webRequest "q"%string) = Ok MoreFixtures.brokenStream /\
  stream_completes MoreFixtures.brokenStream = false /\
  yields (main (log_of (Gemini.generateWebSearchAnswer
                          (Fixtures.streaming MoreFixtures.brokenStream)
                          "q"%string Fixtures.emptyDb))) =
  ["Hel"; "lo"; webApology]%string.
Proof.
  split; [reflexivity|]. split; [reflexivity|].
  exact (proj2 (proj2 (proj2 (proj2 (web_failure_is_inline
           (Fixtures.streaming MoreFixtures.brokenStream) "q"%string Fixtures.emptyDb))))
           MoreFixtures.brokenStream eq_refl eq_refl).
Defined.

(** ** The chat handler, beyond the pipeline *)

Section ChatHandler.
Context {SP : StringPrototype} (env : Services).

(** A request the guards stop: no session, or a body whose [question] is
    not a non-empty string. *)
Lemma POST_guarded (body : Result JsValue) (db : DB) :
  getSession env = None \/ (forall q, body = Ok (JsString q) -> truthy q = false) ->
  ChatRoute.POST env body db =
  match getSession env, body with
  | None, _ => (Ok (Json 401 (ErrorBody "Unauthorized")), db, no_log)
  | Some _, Ok _ => (Ok (Json 400 (ErrorBody "Question is required")), db, no_log)
  | Some _, Throw _ =>
      (Ok (Json 500 (ErrorBody "Internal server error")), db,
       only [ConsoleError ChatApiError])
  end.
Proof.
  intros H. unfold ChatRoute.POST.
  destruct (getSession env) as [session|]; [|reflexivity].
  destruct H as [H|H]; [discriminate|].
  destruct body as [[|q|t]|x]; try reflexivity.
  unfold try_catch, bind, await. cbn iota beta.
  now rewrite (H q eq_refl).
Qed.

(** X4.  A request without a session is answered 401, and one whose body
    has no non-empty string [question] is answered 400 (500 when the body
    cannot be read); in each case before any stage runs: no service is
    called, no task is launched and the database is as it was. *)
Theorem chat_guards_stop_the_pipeline (body : Result JsValue) (db : DB) :
  getSession env = None \/ (forall q, body = Ok (JsString q) -> truthy q = false) ->
  let run := ChatRoute.POST env body db in
  value run =
    Ok (Json match getSession env, body with
             | None, _ => 401
             | Some _, Ok _ => 400
             | Some _, Throw _ => 500
             end
             (ErrorBody match getSession env, body with
                        | None, _ => "Unauthorized"
                        | Some _, Ok _ => "Question is required"
                        | Some _, Throw _ => "Internal server error"
                        end)) /\
  final_db run = db /\
  background (log_of run) = [] /\
  filter is_external_call (main (log_of run)) = [].
Proof.
  intros H run. unfold run. rewrite (POST_guarded body db H).
  destruct (getSession env); [destruct body|]; repeat split; reflexivity.
Qed.

Lemma generated_nonempty (question : string) (dbChunks : list (option string))
    (verdict : Verdict) (e : Embedding) (db : DB) :
  exists sent db1 l,
    ChatRoute.answerStream env verdict question e dbChunks db =
    (Ok (Streamed sent true), db1, l) /\ sent <> [].
Proof.
  destruct verdict.
  - rewrite answerStream_YES. cbv zeta. do 3 eexists. split; [reflexivity|].
    rewrite generateInternalAnswer_run. cbv zeta.
    cbn [log_of snd only main]. simpl yields.
    destruct (generateContentStream env _) as [s|x]; [|discriminate].
    rewrite yields_app. intros H. apply app_eq_nil in H. destruct H as [_ H].
    destruct (stream_completes s); discriminate.
  - rewrite answerStream_NO. cbv zeta. do 3 eexists. split; [reflexivity|].
    rewrite generateWebSearchAnswer_run. cbv zeta.
    cbn [log_of snd only main]. simpl yields.
    destruct (generateContentStream env _) as [s|x]; [|discriminate].
    rewrite yields_app. intros H. apply app_eq_nil in H. destruct H as [_ H].
    destruct (stream_completes s); [|discriminate].
    simpl in H. rewrite yields_map_Yield in H.
    destruct (gathered (stream_chunks s)); discriminate.
Qed.

(** X3.  The handler never throws: whatever the services do, it returns a
    response.  A streamed response is never errored and never empty: it
    carries at least one chunk, an answer ending in a footer or an apology. *)
Theorem chat_always_answers (body : Result JsValue) (db : DB) :
  exists response,
    value (ChatRoute.POST env body db) = Ok response /\
    forall sent closed,
      response = Streamed sent closed -> closed = true /\ sent <> [].
Proof.
  destruct (getSession env) as [session|] eqn:Hs.
  2:{ rewrite POST_guarded, Hs by now left. eexists. split; [reflexivity|]. discriminate. }
  assert (Hrej : forall b, (forall q, b = Ok (JsString q) -> truthy q = false) ->
                 exists response,
                   value (ChatRoute.POST env b db) = Ok response /\
                   forall sent closed,
                     response = Streamed sent closed -> closed = true /\ sent <> []).
  { intros b Hb. rewrite POST_guarded, Hs by now right.
    destruct b; eexists; (split; [reflexivity | discriminate]). }
  destruct body as [[|q|t]|x]; try (apply Hrej; intros q' E; discriminate).
  destruct (truthy q) eqn:Hq.
  2:{ apply Hrej. intros q' E. now injection E as <-. }
  rewrite (POST_run env q db session Hs Hq).
  destruct (ChatRoute.retrieveAndJudge env q db) as [[[[resp|got]|x] db1] l1] eqn:Hr.
  - rewrite retrieveAndJudge_run in Hr. cbv zeta in Hr.
    destruct (embeddings_create env embeddingModel q) as [[|e more]|x]; try discriminate.
    destruct (store_fault env OpMatchDocuments); [|destruct (forallb _ _); discriminate].
    injection Hr as <- _ _. eexists. split; [reflexivity | discriminate].
  - cbv zeta.
    destruct (generated_nonempty q (ChatRoute.dbChunks got) (ChatRoute.judgment got)
                (ChatRoute.queryEmbedding got) db1) as (sent & db2 & l & -> & Hne).
    eexists. split; [reflexivity|].
    intros sent' closed E. injection E as <- <-. now split.
  - eexists. split; [reflexivity | discriminate].
Qed.

(** X5.  The handler never writes to the knowledge base, and the queue it
    leaves is the one it found or that one with a single new row at its
    end: a pending entry, unresolved, holding the trimmed question and the
    embedding returned for the question. *)
Theorem chat_writes_at_most_one_queue_row (body : Result JsValue) (db : DB) :
  let after := final_db (ChatRoute.POST env body db) in
  knowledge_base after = knowledge_base db /\
  (admin_queue after = admin_queue db \/
   exists q e more,
     body = Ok (JsString q) /\
     embeddings_create env embeddingModel q = Ok (e :: more) /\
     admin_queue after = admin_queue db ++ [queuedRow q e db]).
Proof.
  cbv zeta.
  destruct (getSession env) as [session|] eqn:Hs.
  2:{ rewrite POST_guarded, Hs by now left. split; [reflexivity | now left]. }
  assert (Hrej : forall b, (forall q, b = Ok (JsString q) -> truthy q = false) ->
                 final_db (ChatRoute.POST env b db) = db).
  { intros b Hb. rewrite POST_guarded, Hs by now right. now destruct b. }
  destruct body as [[|q|t]|x];
    try (rewrite Hrej by (intros q' E; discriminate); split; [reflexivity | now left]).
  destruct (truthy q) eqn:Hq.
  2:{ rewrite Hrej by (intros q' E; now injection E as <-). split; [reflexivity | now left]. }
  rewrite (POST_run env q db session Hs Hq).
  destruct (ChatRoute.retrieveAndJudge env q db) as [[[[resp|got]|x] db1] l1] eqn:Hr.
  - rewrite retrieveAndJudge_run in Hr. cbv zeta in Hr.
    destruct (embeddings_create env embeddingModel q) as [[|e more]|x]; try discriminate.
    destruct (store_fault env OpMatchDocuments); [|destruct (forallb _ _); discriminate].
    injection Hr as _ <- _. split; [reflexivity | now left].
  - destruct (retrieveAndJudge_reaches env _ _ _ _ _ Hr) as (-> & (more & Hemb) & _).
    cbv zeta. destruct (ChatRoute.judgment got).
    + rewrite answerStream_YES. cbv zeta. split; [reflexivity | now left].
    + rewrite answerStream_NO. cbv zeta. cbv [final_db fst snd].
      rewrite addToAdminQueue_task_run. cbv zeta. unfold insertOutcome.
      destruct (store_fault env OpMatchInbox);
        [|destruct (Sql.match_inbox_questions _ _ _ _ _)];
        try destruct (store_fault env OpInsertQueue);
        cbv [final_db fst snd];
        try (split; [reflexivity | now left]);
        (split; [reflexivity|]; right;
         exists q, (ChatRoute.queryEmbedding got), more; repeat split; assumption).
  - rewrite retrieveAndJudge_run in Hr. cbv zeta in Hr.
    destruct (embeddings_create env embeddingModel q) as [[|e more]|x'];
      try (injection Hr as _ <- _; split; [reflexivity | now left]).
    destruct (store_fault env OpMatchDocuments); [discriminate|].
    destruct (forallb _ _); [discriminate|].
    injection Hr as _ <- _. split; [reflexivity | now left].
Qed.

End ChatHandler.

Lemma chat_guards_stop_the_pipeline_witness :
  getSession MoreFixtures.anonymous = None /\
  value (ChatRoute.POST MoreFixtures.anonymous (Ok (JsString "hi"%string)) Fixtures.policyDb) =
  Ok (Json 401 (ErrorBody "Unauthorized")).
Proof.
  split; [reflexivity|].
  exact (proj1 (chat_guards_stop_the_pipeline MoreFixtures.anonymous
                  (Ok (JsString "hi"%string)) Fixtures.policyDb (or_introl eq_refl))).
Defined.

Section BlankAnswer.
Context {SP : StringPrototype} (env : Services).

Lemma chunk_defined (m : Sql.DocumentMatch) :
  defined (or_else (Some (Sql.dm_answer m)) None) = truthy (Sql.dm_answer m).
Proof. simpl. now destruct (truthy (Sql.dm_answer m)). Qed.

(** X6.  When one of the first three matches of the knowledge search has an
    empty answer, its chunk is [undefined], the preview of the chunks
    throws, and the request is answered 500 "Internal server error" with no
    verdict asked and nothing generated. *)
Theorem blank_answer_match_fails_request
    (question : string) (db : DB) (session : Session)
    (e : Embedding) (more : list Embedding) (m : Sql.DocumentMatch) :
  getSession env = Some session ->
  truthy question = true ->
  embeddings_create env embeddingModel question = Ok (e :: more) ->
  store_fault env OpMatchDocuments = None ->
  In m (firstn 3 (Sql.match_documents (cosine_distance env) (knowledge_base db)
                    e (50 # 100) 5)) ->
  Sql.dm_answer m = ""%string ->
  ChatRoute.POST env (Ok (JsString question)) db =
  (Ok (Json 500 (ErrorBody "Internal server error")), db,
   only [EmbeddingsCreate embeddingModel question;
         Rpc_match_documents e (50 # 100) 5;
         ConsoleError ChatApiError]).
Proof.
  intros Hs Hq He Hf Hin Hblank.
  rewrite (POST_run env question db session Hs Hq), retrieveAndJudge_run.
  cbv zeta. rewrite He, Hf.
  assert (Hpre : forallb defined (firstn 3 (retrievedChunks env db e)) = false).
  { unfold retrievedChunks. rewrite firstn_map.
    apply not_true_is_false. intros Hall. rewrite forallb_forall in Hall.
    specialize (Hall (or_else (Some (Sql.dm_answer m)) None)).
    rewrite chunk_defined, Hblank in Hall.
    assert (Hfalse : truthy "" = true); [|now cbv in Hfalse].
    apply Hall. apply in_map_iff. exists m. now rewrite Hblank. }
  rewrite Hpre. reflexivity.
Qed.

End BlankAnswer.

Lemma blank_answer_match_fails_request_witness :
  value (ChatRoute.POST (Fixtures.streaming Fixtures.plainStream)
           (Ok (JsString "hi"%string)) MoreFixtures.blankAnswerDb) =
  Ok (Json 500 (ErrorBody "Internal server error")).
Proof.
  refine (f_equal value
    (blank_answer_match_fails_request (Fixtures.streaming Fixtures.plainStream)
       "hi"%string MoreFixtures.blankAnswerDb {| isAdmin := true |} [2 # 1] []
       {| Sql.dm_id := 4; Sql.dm_question := "hi"; Sql.dm_answer := "";
          Sql.dm_similarity := 1 |}
       eq_refl eq_refl eq_refl eq_refl _ eq_refl)).
  vm_compute. left. reflexivity.
Defined.

(** ** The similarity queries *)

Section Ordering.
Context {A : Type} (key : A -> Q).










End Ordering.

Lemma sorted_impl {A : Type} (R R' : A -> A -> Prop) (l : list A) :
  (forall a b, R a b -> R' a b) -> StronglySorted R l -> StronglySorted R' l.
Proof.
  intros Himp. induction 1 as [|x l Hl IH Hx]; constructor; [exact IH|].
  eapply Forall_impl; [|exact Hx]. intros y. apply Himp.
Qed.

Lemma sorted_map {A B : Type} (f : A -> B) (R : B -> B -> Prop) (l : list A) :
  StronglySorted (fun a b => R (f a) (f b)) l -> StronglySorted R (map f l).
Proof.
  induction 1 as [|x l Hl IH Hx]; simpl; constructor; [exact IH|].
  apply Forall_forall. intros y Hy. apply in_map_iff in Hy.
  destruct Hy as (z & <- & Hz). rewrite Forall_forall in Hx. now apply Hx.
Qed.

Section SimilarityQueries.
Context (distance : Embedding -> Embedding -> Q).


End SimilarityQueries.


(** ** The queue writer, over several runs *)

Section QueueInvariant.
Context {SP : StringPrototype} (env : Services).




(** X10.  With a working store and an embedding that is similar to itself,
    asking again changes nothing: after one run of the queue writer for an
    embedding, a second run for the same embedding, whatever the question
    text, requests no insert and leaves the queue as the first left it. *)
Theorem enqueue_twice_inserts_once
    (question again : string) (e : Embedding) (db : DB) :
  store_fault env OpMatchInbox = None ->
  store_fault env OpInsertQueue = None ->
  (Sql.float8 (85 # 100) <= Sql.similarity (cosine_distance env) e e)%Q ->
  let first := ChatRoute.addToAdminQueue_task env question e db in
  ChatRoute.addToAdminQueue_task env again e (final_db first) =
  (Ok tt, final_db first, only [Rpc_match_inbox_questions e (85 # 100) 1]).
Proof.
  intros Hcheck Hins Hself first.
  assert (Hhit : Sql.match_inbox_questions (cosine_distance env)
                   (admin_queue (final_db first)) e (85 # 100) 1 <> []).
  { unfold first. rewrite addToAdminQueue_task_run. cbv zeta.
    rewrite Hcheck. unfold insertOutcome. rewrite Hins.
    destruct (Sql.match_inbox_questions (cosine_distance env) (admin_queue db)
                e (85 # 100) 1) as [|hit hits] eqn:Hfirst.
    - cbv [final_db fst snd]. apply match_inbox_questions_hit.
      exists (queuedRow question e db), e. simpl.
      split; [apply in_or_app; right; now left|]. repeat split. exact Hself.
    - cbv [final_db fst snd]. rewrite Hfirst. discriminate. }
  rewrite addToAdminQueue_task_run. cbv zeta. rewrite Hcheck.
  destruct (Sql.match_inbox_questions _ _ _ _ _); [now elim Hhit | reflexivity].
Qed.

End QueueInvariant.


Lemma enqueue_twice_inserts_once_witness :
  map user_question
    (admin_queue (final_db (ChatRoute.addToAdminQueue_task
                              (Fixtures.streaming Fixtures.plainStream)
                              "new"%string [4 # 1] Fixtures.pendingDb))) =
  ["old"; "new"]%string /\
  final_db (ChatRoute.addToAdminQueue_task (Fixtures.streaming Fixtures.plainStream)
              "new again"%string [4 # 1]
              (final_db (ChatRoute.addToAdminQueue_task
                           (Fixtures.streaming Fixtures.plainStream)
                           "new"%string [4 # 1] Fixtures.pendingDb))) =
  final_db (ChatRoute.addToAdminQueue_task (Fixtures.streaming Fixtures.plainStream)
              "new"%string [4 # 1] Fixtures.pendingDb).
Proof.
  split; [reflexivity|].
  refine (f_equal final_db
            (enqueue_twice_inserts_once (Fixtures.streaming Fixtures.plainStream)
               "new"%string "new again"%string [4 # 1] Fixtures.pendingDb
               eq_refl eq_refl _)).
  apply Qle_bool_iff. vm_compute. reflexivity.
Defined.

(** ** The knowledge handlers, beyond the embedding *)

Section KnowledgeHandlers.
Context {SP : StringPrototype} (env : Services).

Lemma knowledge_unreadable_body (x : Exn) (db : DB) :
  KnowledgeRoute.POST env (Throw x) db =
    (if KnowledgeRoute.unauthorized env
     then (Ok (Json 401 (ErrorBody "Unauthorized")), db, no_log)
     else (Ok (Json 500 (ErrorBody "Internal server error")), db,
           only [ConsoleError KnowledgeApiError])) /\
  KnowledgeRoute.PUT env (Throw x) db =
    (if KnowledgeRoute.unauthorized env
     then (Ok (Json 401 (ErrorBody "Unauthorized")), db, no_log)
     else (Ok (Json 500 (ErrorBody "Internal server error")), db,
           only [ConsoleError KnowledgeApiError])).
Proof.
  unfold KnowledgeRoute.POST, KnowledgeRoute.PUT.
  destruct (KnowledgeRoute.unauthorized env); split; reflexivity.
Qed.

(** X11.  A create or an edit from a caller without an admin session is
    answered 401, and one that lacks a non-empty question or a non-empty
    answer is answered 400; in both cases the embedding provider is not
    called, nothing is logged and the database is as it was. *)
Theorem knowledge_guards_spare_the_provider (b : KnowledgeRoute.Body) (db : DB) :
  KnowledgeRoute.unauthorized env = true \/
  KnowledgeRoute.present (KnowledgeRoute.question b) = false \/
  KnowledgeRoute.present (KnowledgeRoute.answer b) = false ->
  let status := if KnowledgeRoute.unauthorized env then 401%nat else 400%nat in
  (exists message,
     KnowledgeRoute.POST env (Ok b) db = (Ok (Json status (ErrorBody message)), db, no_log)) /\
  (exists message,
     KnowledgeRoute.PUT env (Ok b) db = (Ok (Json status (ErrorBody message)), db, no_log)).
Proof.
  intros H. cbv zeta. rewrite knowledge_POST_run, knowledge_PUT_run.
  destruct (KnowledgeRoute.unauthorized env); [split; eexists; reflexivity|].
  destruct H as [H|H]; [discriminate|].
  unfold KnowledgeRoute.present in H.
  destruct (KnowledgeRoute.id b);
    destruct (KnowledgeRoute.question b) as [q|];
    destruct (KnowledgeRoute.answer b) as [a|];
    try (split; eexists; reflexivity);
    (destruct (truthy q) eqn:Hq; destruct (truthy a) eqn:Ha; simpl;
     try (split; eexists; reflexivity);
     destruct H; discriminate).
Qed.

(** X12.  A create or an edit never throws and never leaves a partial
    write: it returns a response, and unless that response is the 200 with
    the written row, the database is exactly as it was. *)
Theorem knowledge_writes_only_on_success (body : Result KnowledgeRoute.Body) (db : DB) :
  (exists response,
     value (KnowledgeRoute.POST env body db) = Ok response /\
     (final_db (KnowledgeRoute.POST env body db) = db \/
      exists row, response = Json 200 (SuccessBody row))) /\
  (exists response,
     value (KnowledgeRoute.PUT env body db) = Ok response /\
     (final_db (KnowledgeRoute.PUT env body db) = db \/
      exists row, response = Json 200 (SuccessBody row))).
Proof.
  destruct body as [b|x].
  2:{ destruct (knowledge_unreadable_body x db) as [-> ->].
      destruct (KnowledgeRoute.unauthorized env);
        split; eexists; (split; [reflexivity | now left]). }
  rewrite knowledge_POST_run, knowledge_PUT_run. split.
  - destruct (KnowledgeRoute.unauthorized env);
      [eexists; split; [reflexivity | now left]|].
    destruct (KnowledgeRoute.question b) as [q|];
      [|eexists; split; [reflexivity | now left]].
    destruct (KnowledgeRoute.answer b) as [a|];
      [|eexists; split; [reflexivity | now left]].
    destruct (truthy q && truthy a);
      [|eexists; split; [reflexivity | now left]].
    cbv zeta.
    destruct (embeddings_create env embeddingModel q) as [[|e more]|x];
      try (eexists; split; [reflexivity | now left]).
    destruct (store_fault env OpInsertKnowledge);
      [eexists; split; [reflexivity | now left]|].
    destruct (KnowledgeRoute.queueId b);
      eexists; (split; [reflexivity | right; eexists; reflexivity]).
  - destruct (KnowledgeRoute.unauthorized env);
      [eexists; split; [reflexivity | now left]|].
    destruct (KnowledgeRoute.id b) as [i|];
      [|eexists; split; [reflexivity | now left]].
    destruct (KnowledgeRoute.question b) as [q|];
      [|eexists; split; [reflexivity | now left]].
    destruct (KnowledgeRoute.answer b) as [a|];
      [|eexists; split; [reflexivity | now left]].
    destruct (truthy q && truthy a);
      [|eexists; split; [reflexivity | now left]].
    cbv zeta.
    destruct (embeddings_create env embeddingModel q) as [[|e more]|x];
      try (eexists; split; [reflexivity | now left]).
    destruct (store_fault env OpUpdateKnowledge);
      [eexists; split; [reflexivity | now left]|].
    destruct (find _ _);
      eexists; (split; [reflexivity | (right; eexists; reflexivity) || now left]).
Qed.

Lemma fresh_id_new (ids : list nat) : ~ In (Sql.fresh_id ids) ids.
Proof.
  unfold Sql.fresh_id. intros H.
  assert (Hle : Forall (fun k => (k <= list_max ids)%nat) ids)
    by (apply list_max_le; lia).
  rewrite Forall_forall in Hle. apply Hle in H. lia.
Qed.

Lemma find_appended (l : list KbRow) (new : KbRow) :
  ~ In (kb_id new) (map kb_id l) ->
  find (fun r => (kb_id r =? kb_id new)%nat) (l ++ [new]) = Some new.
Proof.
  induction l as [|r l IH]; simpl; intros Hnew.
  - now rewrite Nat.eqb_refl.
  - destruct (Nat.eqb_spec (kb_id r) (kb_id new)) as [E|E].
    + exfalso. apply Hnew. left. exact E.
    + apply IH. intros Hl. apply Hnew. now right.
Qed.

Lemma resolveQueue_db (qid : nat) (db : DB) :
  final_db (KnowledgeRoute.resolveQueue env qid db) =
  match store_fault env OpResolveQueue with
  | Some _ => db
  | None =>
      {| knowledge_base := knowledge_base db;
         admin_queue :=
           map (fun r => if (aq_id r =? qid)%nat then resolvedAt (now env) r else r)
               (admin_queue db) |}
  end.
Proof.
  unfold KnowledgeRoute.resolveQueue. cbv [bind emit get_db put_db ret].
  destruct (store_fault env OpResolveQueue); reflexivity.
Qed.

(** X13.  A successful create appends one entry and touches no other: the
    entries that were there stay as they were, in place; the new entry's
    identifier is carried by no other entry, so identifiers that were
    distinct stay distinct.  The queue is untouched unless a [queueId] came
    with the request; then, when the store takes the update, the rows with
    that identifier become resolved at the current time and the others stay
    as they were. *)
Theorem create_appends_one_entry (b : KnowledgeRoute.Body) (db : DB) (row : KbRow) :
  value (KnowledgeRoute.POST env (Ok b) db) = Ok (Json 200 (SuccessBody row)) ->
  let after := final_db (KnowledgeRoute.POST env (Ok b) db) in
  knowledge_base after = knowledge_base db ++ [row] /\
  ~ In (kb_id row) (map kb_id (knowledge_base db)) /\
  (NoDup (map kb_id (knowledge_base db)) -> NoDup (map kb_id (knowledge_base after))) /\
  entry (kb_id row) after = Some row /\
  admin_queue after =
    match KnowledgeRoute.queueId b, store_fault env OpResolveQueue with
    | Some qid, None =>
        map (fun r => if (aq_id r =? qid)%nat then resolvedAt (now env) r else r)
            (admin_queue db)
    | _, _ => admin_queue db
    end.
Proof.
  rewrite knowledge_POST_run.
  destruct (KnowledgeRoute.unauthorized env); [discriminate|].
  destruct (KnowledgeRoute.question b) as [q|]; [|discriminate].
  destruct (KnowledgeRoute.answer b) as [a|]; [|discriminate].
  destruct (truthy q && truthy a); [|discriminate]. cbv zeta.
  destruct (embeddings_create env embeddingModel q) as [[|e more]|x];
    try discriminate.
  destruct (store_fault env OpInsertKnowledge); [discriminate|].
  assert (Hnew : ~ In (kb_id (createdRow env q a e db)) (map kb_id (knowledge_base db)))
    by apply fresh_id_new.
  assert (Hdup : NoDup (map kb_id (knowledge_base db)) ->
                 NoDup (map kb_id (knowledge_base db ++ [createdRow env q a e db]))).
  { intros Hnd. rewrite map_app. simpl. apply NoDup_app; [exact Hnd | |].
    - constructor; [intros [] | constructor].
    - intros k Hk [<-|[]]. exact (Hnew Hk). }
  assert (Hfind : find (fun r => (kb_id r =? kb_id (createdRow env q a e db))%nat)
                       (knowledge_base db ++ [createdRow env q a e db]) =
                  Some (createdRow env q a e db)).
  { now apply find_appended. }
  destruct (KnowledgeRoute.queueId b) as [qid|]; intros H; injection H as <-.
  - rewrite resolveQueue_db.
    destruct (store_fault env OpResolveQueue); unfold entry; simpl;
      repeat split; assumption || reflexivity.
  - unfold entry. simpl. repeat split; assumption || reflexivity.
Qed.

(** X14.  A successful edit rewrites the entries with the given identifier
    and nothing else: the table keeps its length and its identifiers, in
    order; entries with another identifier stay as they were; reading the
    identifier back gives the edited row; the queue is untouched. *)
Theorem edit_rewrites_one_entry (b : KnowledgeRoute.Body) (db : DB) (row : KbRow) :
  value (KnowledgeRoute.PUT env (Ok b) db) = Ok (Json 200 (SuccessBody row)) ->
  let after := final_db (KnowledgeRoute.PUT env (Ok b) db) in
  KnowledgeRoute.id b = Some (kb_id row) /\
  map kb_id (knowledge_base after) = map kb_id (knowledge_base db) /\
  entry (kb_id row) after = Some row /\
  (forall i, i <> kb_id row -> entry i after = entry i db) /\
  admin_queue after = admin_queue db.
Proof.
  rewrite knowledge_PUT_run.
  destruct (KnowledgeRoute.unauthorized env); [discriminate|].
  destruct (KnowledgeRoute.id b) as [i|]; [|discriminate].
  destruct (KnowledgeRoute.question b) as [q|]; [|discriminate].
  destruct (KnowledgeRoute.answer b) as [a|]; [|discriminate].
  destruct (truthy q && truthy a); [|discriminate]. cbv zeta.
  destruct (embeddings_create env embeddingModel q) as [[|e more]|x];
    try discriminate.
  destruct (store_fault env OpUpdateKnowledge); [discriminate|].
  destruct (find (fun r => (kb_id r =? i)%nat) (knowledge_base db)) as [old|] eqn:Hf;
    [|discriminate].
  intros H. injection H as <-. cbv [final_db fst snd]. unfold entry. simpl.
  split; [reflexivity|]. split; [|split; [|split; [|reflexivity]]].
  - rewrite map_map. apply map_ext_in. intros r _.
    destruct (kb_id r =? i)%nat eqn:Hi; [|reflexivity].
    simpl. symmetry. now apply Nat.eqb_eq.
  - clear -Hf. induction (knowledge_base db) as [|r l IH]; [discriminate|].
    simpl in *. destruct (kb_id r =? i)%nat eqn:Hi.
    + simpl. now rewrite Nat.eqb_refl.
    + rewrite Hi. now apply IH.
  - intros j Hj. clear Hf. induction (knowledge_base db) as [|r l IH]; [reflexivity|].
    simpl. destruct (kb_id r =? i)%nat eqn:Hi.
    + simpl. apply Nat.eqb_eq in Hi. subst i.
      destruct (Nat.eqb_spec (kb_id r) j) as [E|E]; [now elim Hj|].
      destruct (Nat.eqb_spec (kb_id r) j) as [E'|E']; [contradiction | exact IH].
    + destruct (kb_id r =? j)%nat; [reflexivity | exact IH].
Qed.

(** X15.  An edit of an identifier no entry carries still calls the
    embedding provider, once, before the store refuses it: the answer is 500
    "Failed to update knowledge base entry" and the database is as it was. *)
Theorem edit_of_unknown_entry_embeds_in_vain
    (b : KnowledgeRoute.Body) (db : DB) (i : nat) (q a : string)
    (e : Embedding) (more : list Embedding) :
  KnowledgeRoute.unauthorized env = false ->
  KnowledgeRoute.id b = Some i ->
  KnowledgeRoute.question b = Some q -> truthy q = true ->
  KnowledgeRoute.answer b = Some a -> truthy a = true ->
  embeddings_create env embeddingModel q = Ok (e :: more) ->
  store_fault env OpUpdateKnowledge = None ->
  entry i db = None ->
  KnowledgeRoute.PUT env (Ok b) db =
  (Ok (Json 500 (ErrorBody "Failed to update knowledge base entry")), db,
   only [EmbeddingsCreate embeddingModel q;
         Update_knowledge_base i (trim q) (trim a) e (now env);
         ConsoleError (KnowledgeWriteError {| code := "PGRST116" |})]).
Proof.
  intros Hu Hi Hq Htq Ha Hta He Hf Hnone.
  rewrite knowledge_PUT_run, Hu, Hi, Hq, Ha, Htq, Hta. simpl andb. cbv iota zeta.
  rewrite He, Hf. unfold entry in Hnone. now rewrite Hnone.
Qed.

End KnowledgeHandlers.

Lemma knowledge_guards_spare_the_provider_witness :
  KnowledgeRoute.present (KnowledgeRoute.question MoreFixtures2.blankBody) = false /\
  KnowledgeRoute.PUT (Fixtures.streaming Fixtures.plainStream)
    (Ok MoreFixtures2.blankBody) Fixtures.policyDb =
  (Ok (Json 400 (ErrorBody "ID, question, and answer are required")),
   Fixtures.policyDb, no_log).
Proof.
  split; [reflexivity|].
  destruct (proj2 (knowledge_guards_spare_the_provider
                     (Fixtures.streaming Fixtures.plainStream)
                     MoreFixtures2.blankBody Fixtures.policyDb
                     (or_intror (or_introl eq_refl)))) as [message H].
  reflexivity.
Defined.

Lemma create_appends_one_entry_witness :
  map kb_id
    (knowledge_base (final_db (KnowledgeRoute.POST (Fixtures.streaming Fixtures.plainStream)
                                 (Ok MoreFixtures2.createBody) Fixtures.pendingDb))) = [1%nat] /\
  map status
    (admin_queue (final_db (KnowledgeRoute.POST (Fixtures.streaming Fixtures.plainStream)
                              (Ok MoreFixtures2.createBody) Fixtures.pendingDb))) = [resolved].
Proof.
  assert (Hpost : value (KnowledgeRoute.POST (Fixtures.streaming Fixtures.plainStream)
                           (Ok MoreFixtures2.createBody) Fixtures.pendingDb) =
                  Ok (Json 200 (SuccessBody
                                  {| kb_id := 1;
                                     kb_question := "a";
                                     kb_answer := "b";
                                     kb_embedding := Some [1 # 1];
                                     updated_at := "2025-01-01T00:00:00.000Z" |})))
    by reflexivity.
  destruct (create_appends_one_entry (Fixtures.streaming Fixtures.plainStream)
              _ _ _ Hpost) as (Hkb & _ & _ & _ & Hq).
  rewrite Hkb, Hq. split; reflexivity.
Defined.

Lemma edit_rewrites_one_entry_witness :
  entry 1 (final_db (KnowledgeRoute.PUT (Fixtures.streaming Fixtures.plainStream)
                       (Ok Fixtures.plainEdit) Fixtures.policyDb)) =
  Some {| kb_id := 1;
          kb_question := "a";
          kb_answer := "b";
          kb_embedding := Some [1 # 1];
          updated_at := "2025-01-01T00:00:00.000Z" |}.
Proof.
  assert (Hput : value (KnowledgeRoute.PUT (Fixtures.streaming Fixtures.plainStream)
                          (Ok Fixtures.plainEdit) Fixtures.policyDb) =
                 Ok (Json 200 (SuccessBody
                                 {| kb_id := 1;
                                    kb_question := "a";
                                    kb_answer := "b";
                                    kb_embedding := Some [1 # 1];
                                    updated_at := "2025-01-01T00:00:00.000Z" |})))
    by reflexivity.
  exact (proj1 (proj2 (proj2 (edit_rewrites_one_entry
           (Fixtures.streaming Fixtures.plainStream) _ _ _ Hput)))).
Defined.

Lemma edit_of_unknown_entry_embeds_in_vain_witness :
  entry 5 Fixtures.policyDb = None /\
  value (KnowledgeRoute.PUT (Fixtures.streaming Fixtures.plainStream)
           (Ok MoreFixtures2.unknownEdit) Fixtures.policyDb) =
  Ok (Json 500 (ErrorBody "Failed to update knowledge base entry")).
Proof.
  split; [reflexivity|].
  exact (f_equal value
           (edit_of_unknown_entry_embeds_in_vain
              (Fixtures.streaming Fixtures.plainStream)
              MoreFixtures2.unknownEdit Fixtures.policyDb 5 "a"%string "b"%string
              [1 # 1] [] eq_refl eq_refl eq_refl eq_refl eq_refl eq_refl
              eq_refl eq_refl eq_refl)).
Defined.

(** ** [streamAnswer] and the proposed answer *)

Section LastTitle.

Lemma pushCitation_citation (acc : list Gemini.Source) (c : GroundingChunk) :
  Admin.pushCitation acc c = acc ++ citation c.
Proof.
  unfold Admin.pushCitation, citation.
  destruct (web c) as [w|]; [|now rewrite app_nil_r].
  destruct (web_uri w) as [u|]; [|now rewrite app_nil_r].
  destruct (web_title w) as [t|]; [|now rewrite app_nil_r].
  destruct (truthy u && truthy t); [reflexivity | now rewrite app_nil_r].
Qed.

Lemma pushed_from (cs : list StreamChunk) (acc : list Gemini.Source) :
  fold_left Admin.pushCitations cs acc = acc ++ citations cs.
Proof.
  revert acc. induction cs as [|chunk cs IH]; intros acc; simpl.
  - now rewrite app_nil_r.
  - rewrite IH, app_assoc. f_equal. unfold Admin.pushCitations.
    destruct (groundingChunks chunk) as [gcs|]; [|now rewrite app_nil_r].
    clear. revert acc. induction gcs as [|g gcs IHg]; intros acc; simpl.
    + now rewrite app_nil_r.
    + now rewrite IHg, pushCitation_citation, app_assoc.
Qed.

(** [streamAnswer] pushes every citation of the stream, repeats included. *)
Lemma pushed_citations (cs : list StreamChunk) : pushed cs = citations cs.
Proof. unfold pushed. now rewrite pushed_from. Qed.

Lemma addressed_firstOccurrences (l : list Gemini.Source) (u : string) :
  existsb (hasUrl u) (firstOccurrences l) = existsb (hasUrl u) l.
Proof.
  apply eq_true_iff_eq. rewrite !existsb_exists. split.
  - intros (x & Hx & Hu). exists x. split; [now apply firstOccurrences_urls | exact Hu].
  - intros (x & Hx & Hu).
    pose proof (firstOccurrences_first l u) as Hf.
    destruct (find (hasUrl u) l) as [y|] eqn:Hy.
    + exists y. apply find_some in Hy. destruct Hy as [_ Hy]. split; [|exact Hy].
      assert (Hin : In y (filter (hasUrl u) (firstOccurrences l)))
        by (rewrite Hf; now left).
      apply filter_In in Hin. tauto.
    + apply (find_none _ _ Hy) in Hx. congruence.
Qed.

Lemma pushNew_all (m : list Gemini.Source) :
  fold_left pushNew m [] = firstOccurrences m.
Proof.
  rewrite pushNew_firstOccurrences. simpl. f_equal.
  induction m as [|a m IHm]; [reflexivity | simpl; f_equal; exact IHm].
Qed.

Lemma firstOccurrences_snoc (l : list Gemini.Source) (c : Gemini.Source) :
  firstOccurrences (l ++ [c]) =
  firstOccurrences l ++ (if known l c then [] else [c]).
Proof.
  rewrite <- (pushNew_all (l ++ [c])), fold_left_app, pushNew_all. simpl.
  unfold pushNew.
  assert (Hk : known l c = known (firstOccurrences l) c)
    by (symmetry; apply addressed_firstOccurrences).
  rewrite Hk, find_known.
  destruct (find (hasUrl (Gemini.url c)) (firstOccurrences l));
    [now rewrite app_nil_r | reflexivity].
Qed.

Lemma map_set_entries (f : Gemini.Source -> Gemini.Source)
    (l : list Gemini.Source) (c : Gemini.Source) :
  NoDup (map Gemini.url l) ->
  Gemini.map_set (map (fun x => (Gemini.url x, f x)) l) (Gemini.url c) c =
  map (fun x => (Gemini.url x, if hasUrl (Gemini.url c) x then c else f x)) l ++
  (if existsb (hasUrl (Gemini.url c)) l then [] else [(Gemini.url c, c)]).
Proof.
  induction l as [|x l IH]; simpl; intros Hnd; [reflexivity|].
  inversion Hnd as [|? ? Hx Hl]; subst. unfold hasUrl at 1 3.
  destruct (String.eqb_spec (Gemini.url x) (Gemini.url c)) as [E|E]; simpl.
  - rewrite app_nil_r. f_equal. apply map_ext_in. intros y Hy.
    unfold hasUrl. destruct (String.eqb_spec (Gemini.url y) (Gemini.url c)) as [E'|E'];
      [|reflexivity].
    exfalso. apply Hx. rewrite E, <- E'. now apply in_map.
  - f_equal. now apply IH.
Qed.

(** The [Map] of [streamAnswer] keeps, per address, the place of the first
    citation and the value of the last. *)
Lemma new_Map_last_wins (cites : list Gemini.Source) :
  Gemini.new_Map (map (fun s => (Gemini.url s, s)) cites) =
  map (fun x => (Gemini.url x, lastWith (Gemini.url x) cites x)) (firstOccurrences cites).
Proof.
  induction cites as [|c cites IH] using rev_ind; [reflexivity|].
  unfold Gemini.new_Map in *. rewrite map_app, fold_left_app, IH. simpl.
  rewrite map_set_entries by apply firstOccurrences_NoDup.
  rewrite firstOccurrences_snoc, map_app.
  assert (Hk : existsb (hasUrl (Gemini.url c)) (firstOccurrences cites) = known cites c)
    by apply addressed_firstOccurrences.
  rewrite Hk. f_equal.
  - apply map_ext. intros x. f_equal. unfold lastWith.
    rewrite rev_app_distr. simpl. unfold hasUrl.
    rewrite (String.eqb_sym (Gemini.url c) (Gemini.url x)).
    now destruct (Gemini.url x =? Gemini.url c)%string.
  - destruct (known cites c); [reflexivity|]. simpl. do 2 f_equal.
    unfold lastWith. rewrite rev_app_distr. simpl. unfold hasUrl.
    now rewrite String.eqb_refl.
Qed.

End LastTitle.

Section StreamAnswer.
Context (env : Services) (dep : Deployment).

Lemma streamAnswer_run (question : string) (db : DB) :
  gemini_api_key dep = true ->
  Admin.streamAnswer env dep question db =
  let request := Admin.streamRequest question in
  let caught (x : Exn) (before : list Event) :=
    if stringifies dep x
    then (Ok tt, db, only (GenerateContentStream request :: before ++ [Yield streamApology]))
    else (Throw TypeError, db, only (GenerateContentStream request :: before)) in
  match generateContentStream env request with
  | Ok s =>
      if stream_completes s
      then (Ok tt, db,
            only (GenerateContentStream request ::
                  flat_map delivered (stream_chunks s) ++
                  StreamDone ::
                  map Yield
                    match pushed (stream_chunks s) with
                    | [] => []
                    | _ :: _ =>
                        Admin.sourcesTitle :: numbered (streamSources (stream_chunks s))
                    end))
      else caught (Upstream None) (flat_map delivered (stream_chunks s))
  | Throw x => caught x []
  end.
Proof.
  intros Hkey. unfold Admin.streamAnswer. rewrite Hkey. cbv [negb]. cbv iota.
  unfold try_catch, bind at 1, emit at 1, bind at 1, await. cbv zeta.
  destruct (generateContentStream env _) as [s|x].
  - unfold bind at 1.
    rewrite (for_await_text (stream_chunks s) (stream_completes s) Admin.pushCitations).
    fold (pushed (stream_chunks s)).
    destruct (stream_completes s).
    + unfold streamSources, numbered.
      destruct (pushed (stream_chunks s)) as [|g gs] eqn:Hg.
      * cbv [emit ret bind only log_app main background length Nat.ltb Nat.leb].
        cbn iota beta. rewrite ?app_nil_r, <- ?app_assoc. reflexivity.
      * change (0 <? length (g :: gs))%nat with true. cbv iota.
        unfold bind at 1, emit at 1. rewrite yieldSources_run.
        cbv [only log_app main background]. cbn iota beta.
        rewrite ?app_nil_r, <- ?app_assoc. reflexivity.
    + destruct (stringifies dep (Upstream None));
        cbv [emit throw only log_app main background no_log]; cbn iota beta;
        rewrite ?app_nil_r, <- ?app_assoc; reflexivity.
  - destruct (stringifies dep x); reflexivity.
Qed.

Lemma lastWith_url (u : string) (cites : list Gemini.Source) (d : Gemini.Source) :
  Gemini.url d = u -> Gemini.url (lastWith u cites d) = u.
Proof.
  intros Hd. unfold lastWith.
  destruct (find (hasUrl u) (List.rev cites)) as [c|] eqn:Hf; [|exact Hd].
  apply find_some in Hf. destruct Hf as [_ Hf]. now apply String.eqb_eq.
Qed.

Lemma lastWith_found (u : string) (cites : list Gemini.Source) (c d d' : Gemini.Source) :
  In c cites -> Gemini.url c = u -> lastWith u cites d = lastWith u cites d'.
Proof.
  intros Hin Hu. unfold lastWith.
  destruct (find (hasUrl u) (List.rev cites)) as [x|] eqn:Hf; [reflexivity|].
  exfalso. apply in_rev in Hin. apply (find_none _ _ Hf) in Hin.
  unfold hasUrl in Hin. rewrite Hu, String.eqb_refl in Hin. discriminate.
Qed.

(** X16.  The footer of [streamAnswer] lists the addresses of the citations
    once each, in the order of their first citation, but with the title of
    their last citation: its sources are pushed without the check, and the
    [Map] keeps the first place and the last value.  Without a citation
    there is no footer at all. *)
Theorem stream_answer_last_title_wins
    (question : string) (db : DB) (s : ContentStream) :
  gemini_api_key dep = true ->
  generateContentStream env (Admin.streamRequest question) = Ok s ->
  stream_completes s = true ->
  let cites := citations (stream_chunks s) in
  let entries := streamSources (stream_chunks s) in
  let run := Admin.streamAnswer env dep question db in
  value run = Ok tt /\
  yields (main (log_of run)) =
    generatedText (stream_chunks s) ++
    match cites with
    | [] => []
    | _ :: _ => Admin.sourcesTitle :: numbered entries
    end /\
  map Gemini.url entries = map Gemini.url (firstOccurrences cites) /\
  (forall c, In c cites ->
     filter (hasUrl (Gemini.url c)) entries = [lastWith (Gemini.url c) cites c]).
Proof.
  intros Hkey Hs Hdone cites entries run.
  assert (Hentries : entries =
                     map (fun x => lastWith (Gemini.url x) cites x) (firstOccurrences cites)).
  { unfold entries, streamSources, Gemini.values.
    rewrite pushed_citations, new_Map_last_wins, map_map. reflexivity. }
  unfold run. rewrite (streamAnswer_run question db Hkey). cbv zeta.
  rewrite Hs, Hdone, pushed_citations. fold cites. fold entries.
  split; [reflexivity|]. split; [|split].
  - cbn [log_of snd only main]. simpl yields.
    rewrite yields_app, yields_delivered. simpl yields. now rewrite yields_map_Yield.
  - rewrite Hentries, map_map. apply map_ext. intros x. now apply lastWith_url.
  - intros c Hc. rewrite Hentries.
    assert (Hfm : forall l,
              filter (hasUrl (Gemini.url c))
                (map (fun x => lastWith (Gemini.url x) cites x) l) =
              map (fun x => lastWith (Gemini.url x) cites x)
                (filter (hasUrl (Gemini.url c)) l)).
    { induction l as [|x l IH]; simpl; [reflexivity|].
      rewrite IH. unfold hasUrl.
      rewrite (lastWith_url (Gemini.url x) cites x eq_refl).
      now destruct (Gemini.url x =? Gemini.url c)%string. }
    rewrite Hfm, firstOccurrences_first.
    destruct (find (hasUrl (Gemini.url c)) cites) as [first|] eqn:Hf.
    + simpl. f_equal. apply find_some in Hf. destruct Hf as [_ Hf].
      apply String.eqb_eq in Hf. rewrite Hf.
      now apply (lastWith_found (Gemini.url c) cites c).
    + exfalso. apply (find_none _ _ Hf) in Hc.
      unfold hasUrl in Hc. rewrite String.eqb_refl in Hc. discriminate.
Qed.

End StreamAnswer.

Lemma stream_answer_last_title_wins_witness :
  gemini_api_key MoreFixtures2.working = true /\
  generateContentStream (Fixtures.streaming Fixtures.citedStream)
    (Admin.streamRequest "q"%string) = Ok Fixtures.citedStream /\
  stream_completes Fixtures.citedStream = true /\
  yields (main (log_of (Admin.streamAnswer (Fixtures.streaming Fixtures.citedStream)
                          MoreFixtures2.working "q"%string Fixtures.emptyDb))) =
  ["Hello"; " world"; Admin.sourcesTitle;
   "1. [Second](https://a.example)" ++ nl;
   "2. [Other](https://b.example)" ++ nl]%string.
Proof.
  split; [reflexivity|]. split; [reflexivity|]. split; [reflexivity|].
  exact (proj1 (proj2 (stream_answer_last_title_wins
           (Fixtures.streaming Fixtures.citedStream) MoreFixtures2.working
           "q"%string Fixtures.emptyDb Fixtures.citedStream eq_refl eq_refl eq_refl))).
Defined.

(** ** The proposed answer *)

Section ProposedAnswer.
Context (env : Services) (dep : Deployment).

Lemma proposedAnswer_GET_run (id : nat) (db : DB) :
  Admin.proposedAnswer_GET env dep id db =
  if KnowledgeRoute.unauthorized env
  then (Ok (Failure 401 "Unauthorized"), db, no_log)
  else
    match select_queue_item_fault dep,
          filter (fun r => (aq_id r =? id)%nat) (admin_queue db) with
    | None, [queueItem] =>
        let g := Admin.streamAnswer env dep (user_question queueItem) db in
        (Ok match value g with
            | Ok _ => Proposed (String.concat "" (yields (main (log_of g))))
            | Throw _ => Failure 500 "Failed to generate proposed answer"
            end,
         final_db g, log_of g)
    | _, _ => (Ok (Failure 404 "Queue item not found"), db, no_log)
    end.
Proof.
  unfold Admin.proposedAnswer_GET.
  destruct (KnowledgeRoute.unauthorized env); [reflexivity|].
  unfold try_catch, bind at 1, get_db at 1.
  destruct (select_queue_item_fault dep) as [err|].
  - destruct (filter (fun r => (aq_id r =? id)%nat) (admin_queue db)) as [|a [|b l]];
      reflexivity.
  - destruct (filter (fun r => (aq_id r =? id)%nat) (admin_queue db))
      as [|queueItem [|b l]]; try reflexivity.
    cbv zeta. unfold bind, drain, value, final_db, log_of.
    destruct (Admin.streamAnswer env dep (user_question queueItem) db) as [[[u|x] db1] l];
      cbn iota beta; cbn [fst snd]; unfold ret; cbn iota beta;
      rewrite ?log_app_no_log_r, ?log_app_no_log_l; reflexivity.
Qed.

(** X17.  For a queue item that is found, with the key set and a stream that
    completes, the proposal is the concatenation of what [streamAnswer]
    yields for the stored question: the non-empty texts in order, then the
    source list when there was a citation.  The database is as it was. *)
Theorem proposal_is_the_streamed_answer
    (id : nat) (db : DB) (queueItem : QueueRow) (s : ContentStream) :
  KnowledgeRoute.unauthorized env = false ->
  select_queue_item_fault dep = None ->
  filter (fun r => (aq_id r =? id)%nat) (admin_queue db) = [queueItem] ->
  gemini_api_key dep = true ->
  generateContentStream env (Admin.streamRequest (user_question queueItem)) = Ok s ->
  stream_completes s = true ->
  let run := Admin.proposedAnswer_GET env dep id db in
  value run =
    Ok (Proposed (String.concat ""
                    (generatedText (stream_chunks s) ++ streamFooter (stream_chunks s)))) /\
  final_db run = db.
Proof.
  intros Hauth Hsel Hitem Hkey Hs Hdone run. unfold run.
  rewrite proposedAnswer_GET_run, Hauth, Hsel, Hitem. cbv zeta.
  rewrite (streamAnswer_run env dep _ db Hkey). cbv zeta. rewrite Hs, Hdone.
  split; [|reflexivity].
  cbn [value final_db log_of fst snd only main]. simpl yields.
  rewrite yields_app, yields_delivered. simpl yields. rewrite yields_map_Yield.
  unfold streamFooter. now rewrite pushed_citations.
Qed.

(** X18.  A generation that fails is proposed all the same: for a queue item
    that is found, a missing key makes the proposal the line about the key,
    without a call; a call that throws makes it the apology, and a stream
    that breaks makes it the texts delivered followed by the apology -- each
    time as a proposal, not as an error.  Only an error that cannot be
    printed is answered 500. *)
Theorem failed_generation_is_proposed (id : nat) (db : DB) (queueItem : QueueRow) :
  KnowledgeRoute.unauthorized env = false ->
  select_queue_item_fault dep = None ->
  filter (fun r => (aq_id r =? id)%nat) (admin_queue db) = [queueItem] ->
  let run := Admin.proposedAnswer_GET env dep id db in
  let reply := generateContentStream env (Admin.streamRequest (user_question queueItem)) in
  (gemini_api_key dep = false ->
     value run = Ok (Proposed "Error: No API Key found.") /\
     filter is_external_call (all_events (log_of run)) = []) /\
  (gemini_api_key dep = true ->
     forall x, reply = Throw x ->
     value run = Ok (if stringifies dep x
                     then Proposed streamApology
                     else Failure 500 "Failed to generate proposed answer")) /\
  (gemini_api_key dep = true ->
     forall s, reply = Ok s -> stream_completes s = false ->
     value run = Ok (if stringifies dep (Upstream None)
                     then Proposed (String.concat ""
                                      (generatedText (stream_chunks s) ++ [streamApology]))
                     else Failure 500 "Failed to generate proposed answer")).
Proof.
  intros Hauth Hsel Hitem run reply. unfold run, reply.
  rewrite proposedAnswer_GET_run, Hauth, Hsel, Hitem. cbv zeta.
  split; [|split].
  - intros Hkey. unfold Admin.streamAnswer. rewrite Hkey. split; reflexivity.
  - intros Hkey x Hx. rewrite (streamAnswer_run env dep _ db Hkey). cbv zeta.
    rewrite Hx. destruct (stringifies dep x); reflexivity.
  - intros Hkey s Hs Hdone. rewrite (streamAnswer_run env dep _ db Hkey). cbv zeta.
    rewrite Hs, Hdone. destruct (stringifies dep (Upstream None)); [|reflexivity].
    cbn [value final_db log_of fst snd only main]. simpl yields.
    rewrite yields_app, yields_delivered. reflexivity.
Qed.

(** X19.  Without an administrator's session the handler answers 401; with
    one, but with a failed query or with no single queue item of the given
    identifier, it answers 404.  In both cases nothing is generated: the run
    logs no event and leaves the database as it was. *)
Theorem proposal_needs_its_queue_item (id : nat) (db : DB) :
  KnowledgeRoute.unauthorized env = true \/
  select_queue_item_fault dep <> None \/
  length (filter (fun r => (aq_id r =? id)%nat) (admin_queue db)) <> 1%nat ->
  let run := Admin.proposedAnswer_GET env dep id db in
  value run =
    Ok (if KnowledgeRoute.unauthorized env
        then Failure 401 "Unauthorized"
        else Failure 404 "Queue item not found") /\
  final_db run = db /\
  log_of run = no_log.
Proof.
  intros H run. unfold run. rewrite proposedAnswer_GET_run.
  destruct (KnowledgeRoute.unauthorized env); [repeat split|].
  destruct H as [H|[H|H]]; [discriminate| |].
  - destruct (select_queue_item_fault dep); [|congruence].
    destruct (filter (fun r => (aq_id r =? id)%nat) (admin_queue db)) as [|a [|b l]];
      repeat split.
  - destruct (select_queue_item_fault dep);
      destruct (filter (fun r => (aq_id r =? id)%nat) (admin_queue db)) as [|a [|b l]];
      try (repeat split; fail). now simpl in H.
Qed.

End ProposedAnswer.

Lemma proposal_is_the_streamed_answer_witness :
  KnowledgeRoute.unauthorized (Fixtures.streaming Fixtures.citedStream) = false /\
  select_queue_item_fault MoreFixtures2.working = None /\
  filter (fun r => (aq_id r =? 7)%nat) (admin_queue Fixtures.pendingDb) =
    admin_queue Fixtures.pendingDb /\
  value (Admin.proposedAnswer_GET (Fixtures.streaming Fixtures.citedStream)
           MoreFixtures2.working 7 Fixtures.pendingDb) =
  Ok (Proposed ("Hello world" ++ Admin.sourcesTitle ++
                "1. [Second](https://a.example)" ++ nl ++
                "2. [Other](https://b.example)" ++ nl)%string).
Proof.
  split; [reflexivity|]. split; [reflexivity|]. split; [reflexivity|].
  exact (proj1 (proposal_is_the_streamed_answer
           (Fixtures.streaming Fixtures.citedStream) MoreFixtures2.working
           7 Fixtures.pendingDb _ Fixtures.citedStream
           eq_refl eq_refl eq_refl eq_refl eq_refl eq_refl)).
Defined.

Lemma failed_generation_is_proposed_witness :
  generateContentStream (Fixtures.apart 0)
    (Admin.streamRequest "old"%string) = Throw (Upstream None) /\
  value (Admin.proposedAnswer_GET (Fixtures.apart 0) MoreFixtures2.working
           7 Fixtures.pendingDb) =
  Ok (Proposed streamApology).
Proof.
  split; [reflexivity|].
  exact (proj1 (proj2 (failed_generation_is_proposed
           (Fixtures.apart 0) MoreFixtures2.working 7 Fixtures.pendingDb _
           eq_refl eq_refl eq_refl)) eq_refl (Upstream None) eq_refl).
Defined.

Lemma proposal_needs_its_queue_item_witness :
  length (filter (fun r => (aq_id r =? 8)%nat) (admin_queue Fixtures.pendingDb)) <> 1%nat /\
  value (Admin.proposedAnswer_GET (Fixtures.streaming Fixtures.citedStream)
           MoreFixtures2.working 8 Fixtures.pendingDb) =
  Ok (Failure 404 "Queue item not found") /\
  log_of (Admin.proposedAnswer_GET (Fixtures.streaming Fixtures.citedStream)
            MoreFixtures2.working 8 Fixtures.pendingDb) = no_log.
Proof.
  assert (H : length (filter (fun r => (aq_id r =? 8)%nat)
                        (admin_queue Fixtures.pendingDb)) <> 1%nat)
    by (simpl; discriminate).
  split; [exact H|].
  destruct (proposal_needs_its_queue_item
              (Fixtures.streaming Fixtures.citedStream) MoreFixtures2.working
              8 Fixtures.pendingDb (or_intror (or_intror H))) as (Hv & _ & Hl).
  split; [exact Hv | exact Hl].
Defined.

(** ** Deleting an entry *)

Section Delete.
Context {SP : StringPrototype} (env : Services) (dep : Deployment).

Lemma knowledge_DELETE_run (id : option nat) (db : DB) :
  Admin.knowledge_DELETE env dep id db =
  if KnowledgeRoute.unauthorized env
  then (Ok (Failure 401 "Unauthorized"), db, no_log)
  else
    match id, delete_knowledge_fault dep with
    | None, _ => (Ok (Failure 400 "ID is required"), db, no_log)
    | Some i, Some err =>
        (Ok (Failure 500 "Failed to delete knowledge base entry"), db,
         only [Delete_knowledge_base i; ConsoleError (KnowledgeWriteError err)])
    | Some i, None =>
        (Ok Success,
         {| knowledge_base := filter (fun r => negb (kb_id r =? i)%nat) (knowledge_base db);
            admin_queue := admin_queue db |},
         only [Delete_knowledge_base i])
    end.
Proof.
  unfold Admin.knowledge_DELETE.
  destruct (KnowledgeRoute.unauthorized env); [reflexivity|].
  destruct id as [i|]; [|reflexivity].
  destruct (delete_knowledge_fault dep); reflexivity.
Qed.

Lemma find_filter_other (i j : nat) (l : list KbRow) :
  j <> i ->
  find (fun r => (kb_id r =? j)%nat) (filter (fun r => negb (kb_id r =? i)%nat) l) =
  find (fun r => (kb_id r =? j)%nat) l.
Proof.
  intros Hji. induction l as [|r l IH]; simpl; [reflexivity|].
  destruct (Nat.eqb_spec (kb_id r) i) as [Hi|Hi]; simpl.
  - destruct (Nat.eqb_spec (kb_id r) j) as [Hj|Hj]; [congruence | exact IH].
  - now rewrite IH.
Qed.

Lemma find_filter_same (i : nat) (l : list KbRow) :
  find (fun r => (kb_id r =? i)%nat) (filter (fun r => negb (kb_id r =? i)%nat) l) = None.
Proof.
  induction l as [|r l IH]; simpl; [reflexivity|].
  destruct (Nat.eqb_spec (kb_id r) i) as [Hi|Hi]; simpl; [exact IH|].
  destruct (Nat.eqb_spec (kb_id r) i); [contradiction | exact IH].
Qed.

Lemma filter_absent (i : nat) (l : list KbRow) :
  ~ In i (map kb_id l) -> filter (fun r => negb (kb_id r =? i)%nat) l = l.
Proof.
  induction l as [|r l IH]; simpl; intros H; [reflexivity|].
  destruct (Nat.eqb_spec (kb_id r) i) as [Hi|Hi]; simpl; [tauto|].
  f_equal. apply IH. tauto.
Qed.

(** X20.  A delete that is answered with success has removed the entries of
    the given identifier and nothing else: that identifier is no longer
    found, every other identifier is found as before, the entries that stay
    keep their order, and the queue is untouched; all it did outside is the
    one delete it asked of the store.  An identifier no entry carries is
    answered with success too, and changes nothing.  A delete answered
    otherwise leaves the database as it was; when it is the store that
    refuses, the error is logged and the answer is 500.  The store is asked
    to delete only past the guards, with a session and for the identifier
    given, and neither the embedding provider nor the generation service is
    called. *)
Theorem delete_removes_the_entry (id : option nat) (db : DB) :
  let run := Admin.knowledge_DELETE env dep id db in
  let after := final_db run in
  (value run = Ok Success ->
     exists i, id = Some i /\
       knowledge_base after =
         filter (fun r => negb (kb_id r =? i)%nat) (knowledge_base db) /\
       entry i after = None /\
       (forall j, j <> i -> entry j after = entry j db) /\
       (entry i db = None -> after = db) /\
       admin_queue after = admin_queue db /\
       log_of run = only [Delete_knowledge_base i]) /\
  (value run <> Ok Success -> after = db) /\
  (forall i err,
     KnowledgeRoute.unauthorized env = false -> id = Some i ->
     delete_knowledge_fault dep = Some err ->
     value run = Ok (Failure 500 "Failed to delete knowledge base entry") /\
     log_of run = only [Delete_knowledge_base i; ConsoleError (KnowledgeWriteError err)]) /\
  (forall i, In (Delete_knowledge_base i) (all_events (log_of run)) ->
     KnowledgeRoute.unauthorized env = false /\ id = Some i) /\
  filter (fun e => is_embedding_call e || is_generation_call e)
    (all_events (log_of run)) = [].
Proof.
  cbv zeta. rewrite knowledge_DELETE_run.
  destruct (KnowledgeRoute.unauthorized env);
    [split; [discriminate | split; [reflexivity | split; [discriminate|]]];
     split; [intros i [] | reflexivity]|].
  destruct id as [i|];
    [|split; [discriminate | split; [reflexivity | split; [discriminate|]]];
      split; [intros i [] | reflexivity]].
  assert (Hasked : forall (l : list Event) k,
            In (Delete_knowledge_base k) (Delete_knowledge_base i :: l) ->
            (forall e, In e l -> e <> Delete_knowledge_base k) ->
            false = false /\ Some i = Some k).
  { intros l k [H|H] Hl; [injection H as <-; now split|].
    now elim (Hl _ H). }
  destruct (delete_knowledge_fault dep) as [err|].
  { split; [discriminate|]. split; [reflexivity|]. split.
    - intros k err' _ Hk Herr. injection Hk as <-. injection Herr as <-. now split.
    - split; [|reflexivity].
      intros k Hk. apply (Hasked _ k Hk). intros e [<-|[]]. discriminate. }
  split; [|split; [intros H; now contradiction H | split; [discriminate|]]].
  2:{ split; [|reflexivity]. intros k Hk. apply (Hasked _ k Hk). intros e []. }
  intros _. exists i. unfold entry. cbn [value final_db fst snd knowledge_base admin_queue].
  split; [reflexivity|]. split; [reflexivity|].
  split; [apply find_filter_same|]. split; [intros j Hj; now apply find_filter_other|].
  split; [|split; reflexivity].
  intros Hnone. destruct db as [kb aq]. cbn [knowledge_base admin_queue] in *.
  f_equal. apply filter_absent. intros Hin. apply in_map_iff in Hin.
  destruct Hin as (r & Hr & Hin).
  apply (find_none _ _ Hnone) in Hin. rewrite Hr, Nat.eqb_refl in Hin. discriminate.
Qed.

Lemma created_row_appended (b : KnowledgeRoute.Body) (db : DB) (row : KbRow) :
  value (KnowledgeRoute.POST env (Ok b) db) = Ok (Json 200 (SuccessBody row)) ->
  KnowledgeRoute.unauthorized env = false /\
  knowledge_base (final_db (KnowledgeRoute.POST env (Ok b) db)) =
    knowledge_base db ++ [row] /\
  ~ In (kb_id row) (map kb_id (knowledge_base db)).
Proof.
  rewrite knowledge_POST_run.
  destruct (KnowledgeRoute.unauthorized env); [discriminate|].
  destruct (KnowledgeRoute.question b) as [q|]; [|discriminate].
  destruct (KnowledgeRoute.answer b) as [a|]; [|discriminate].
  destruct (truthy q && truthy a); [|discriminate]. cbv zeta.
  destruct (embeddings_create env embeddingModel q) as [[|e more]|x];
    try discriminate.
  destruct (store_fault env OpInsertKnowledge); [discriminate|].
  assert (Hnew : ~ In (kb_id (createdRow env q a e db)) (map kb_id (knowledge_base db)))
    by apply fresh_id_new.
  destruct (KnowledgeRoute.queueId b) as [qid|]; intros H; injection H as <-.
  - rewrite resolveQueue_db.
    destruct (store_fault env OpResolveQueue); simpl; repeat split; assumption.
  - simpl. repeat split; assumption.
Qed.

(** X21.  Creating an entry and then deleting the entry the create returned
    gives back the knowledge base as it was before the create. *)
Theorem create_then_delete_restores
    (b : KnowledgeRoute.Body) (db : DB) (row : KbRow) :
  value (KnowledgeRoute.POST env (Ok b) db) = Ok (Json 200 (SuccessBody row)) ->
  delete_knowledge_fault dep = None ->
  let created := final_db (KnowledgeRoute.POST env (Ok b) db) in
  let run := Admin.knowledge_DELETE env dep (Some (kb_id row)) created in
  value run = Ok Success /\
  knowledge_base (final_db run) = knowledge_base db /\
  admin_queue (final_db run) = admin_queue created.
Proof.
  intros Hpost Hdel created run.
  destruct (created_row_appended b db row Hpost) as (Hauth & Hkb & Hnew).
  unfold run. rewrite knowledge_DELETE_run, Hauth, Hdel.
  split; [reflexivity|]. split; [|reflexivity].
  cbn [final_db fst snd knowledge_base]. unfold created. rewrite Hkb.
  rewrite filter_app. simpl. rewrite Nat.eqb_refl. simpl.
  rewrite app_nil_r. now apply filter_absent.
Qed.

End Delete.

Lemma delete_removes_the_entry_witness :
  value (Admin.knowledge_DELETE (Fixtures.streaming Fixtures.plainStream)
           MoreFixtures2.working (Some 1%nat) MoreFixtures2.staleDb) = Ok Success /\
  map kb_id (knowledge_base
               (final_db (Admin.knowledge_DELETE (Fixtures.streaming Fixtures.plainStream)
                            MoreFixtures2.working (Some 1%nat) MoreFixtures2.staleDb))) =
  [2%nat].
Proof.
  assert (Hv : value (Admin.knowledge_DELETE (Fixtures.streaming Fixtures.plainStream)
                        MoreFixtures2.working (Some 1%nat) MoreFixtures2.staleDb) =
               Ok Success) by reflexivity.
  split; [exact Hv|].
  destruct (proj1 (delete_removes_the_entry (Fixtures.streaming Fixtures.plainStream)
                     MoreFixtures2.working (Some 1%nat) MoreFixtures2.staleDb) Hv)
    as (i & Hi & Hkb & _).
  rewrite Hkb. injection Hi as <-. reflexivity.
Defined.

Lemma create_then_delete_restores_witness :
  delete_knowledge_fault MoreFixtures2.working = None /\
  knowledge_base
    (final_db (Admin.knowledge_DELETE (Fixtures.streaming Fixtures.plainStream)
                 MoreFixtures2.working (Some 2%nat)
                 (final_db (KnowledgeRoute.POST (Fixtures.streaming Fixtures.plainStream)
                              (Ok MoreFixtures2.createBody) Fixtures.policyDb)))) =
  knowledge_base Fixtures.policyDb.
Proof.
  split; [reflexivity|].
  assert (Hpost : value (KnowledgeRoute.POST (Fixtures.streaming Fixtures.plainStream)
                           (Ok MoreFixtures2.createBody) Fixtures.policyDb) =
                  Ok (Json 200 (SuccessBody
                                  {| kb_id := 2;
                                     kb_question := "a";
                                     kb_answer := "b";
                                     kb_embedding := Some [1 # 1];
                                     updated_at := "2025-01-01T00:00:00.000Z" |})))
    by reflexivity.
  exact (proj1 (proj2 (create_then_delete_restores
           (Fixtures.streaming Fixtures.plainStream) MoreFixtures2.working
           _ _ _ Hpost eq_refl))).
Defined.

(** ** Regenerating the embeddings *)

Section Regenerate.
Context (env : Services) (dep : Deployment).

Lemma regenerateEntries_run (entries : list KbRow) (successCount errorCount : nat) (db : DB) :
  Admin.regenerateEntries env dep entries successCount errorCount db =
  (Ok (successCount + length (filter (regenerable env dep) entries),
       errorCount + length (filter (fun r => negb (regenerable env dep r)) entries))%nat,
   {| knowledge_base := fold_left (regenerateStep env dep) entries (knowledge_base db);
      admin_queue := admin_queue db |},
   only (map (fun r => EmbeddingsCreate embeddingModel (kb_question r)) entries)).
Proof.
  revert successCount errorCount db.
  induction entries as [|a entries IH]; intros s e db.
  - simpl. unfold ret, only. rewrite !Nat.add_0_r. now destruct db.
  - cbn [Admin.regenerateEntries]. unfold bind at 1, try_catch.
    unfold bind at 1. rewrite generateEmbedding_run.
    cbn [fold_left filter map].
    assert (Hfin : forall v s' e' kb',
              regeneratedFor env dep a = v ->
              (s', e') = match v with Some _ => (S s, e) | None => (s, S e) end ->
              kb' = match v with
                    | Some emb =>
                        map (fun r => if (kb_id r =? kb_id a)%nat
                                      then Admin.reembedded env emb r else r)
                            (knowledge_base db)
                    | None => knowledge_base db
                    end ->
              (let (p0, l2) :=
                 Admin.regenerateEntries env dep entries s' e'
                   {| knowledge_base := kb'; admin_queue := admin_queue db |} in
               let (r0, db2) := p0 in
               (r0, db2,
                log_app (only [EmbeddingsCreate embeddingModel (kb_question a)]) l2)) =
              (Ok ((s + length (if regenerable env dep a
                                then a :: filter (regenerable env dep) entries
                                else filter (regenerable env dep) entries))%nat,
                   (e + length (if negb (regenerable env dep a)
                                then a :: filter (fun r => negb (regenerable env dep r)) entries
                                else filter (fun r => negb (regenerable env dep r)) entries))%nat),
               {| knowledge_base :=
                    fold_left (regenerateStep env dep) entries
                      (regenerateStep env dep (knowledge_base db) a);
                  admin_queue := admin_queue db |},
               only (EmbeddingsCreate embeddingModel (kb_question a) ::
                     map (fun r => EmbeddingsCreate embeddingModel (kb_question r)) entries))).
    { intros v s' e' kb' Hv Hc Hkb. rewrite IH.
      assert (Hreg : regenerable env dep a = match v with Some _ => true | None => false end)
        by (unfold regenerable; now rewrite Hv).
      assert (Hstep : regenerateStep env dep (knowledge_base db) a = kb')
        by (subst kb'; unfold regenerateStep; now rewrite Hv).
      rewrite Hreg, Hstep. cbn [knowledge_base admin_queue].
      destruct v as [emb|]; injection Hc as -> ->; cbn [negb length];
        rewrite ?Nat.add_succ_r, ?Nat.add_0_r; reflexivity. }
    unfold regeneratedFor, embeddingOf in Hfin.
    destruct (embeddings_create env embeddingModel (kb_question a))
      as [[|emb more]|x] eqn:He.
    + unfold ret at 1. cbn iota beta. rewrite log_app_no_log_r. cbn [fst snd].
      destruct db as [kb aq]. now apply (Hfin None).
    + destruct (update_embedding_fault dep (kb_id a)) as [err|].
      * unfold ret at 1. cbn iota beta. rewrite log_app_no_log_r. cbn [fst snd].
        destruct db as [kb aq]. now apply (Hfin None).
      * unfold bind at 1, get_db at 1. unfold bind at 1, put_db at 1.
        unfold ret at 1. cbn iota beta.
        rewrite ?log_app_no_log_r, ?log_app_no_log_l. cbn [fst snd].
        now apply (Hfin (Some emb)).
    + unfold ret at 1. cbn iota beta. rewrite log_app_no_log_r. cbn [fst snd].
      destruct db as [kb aq]. now apply (Hfin None).
Qed.

Lemma regenerate_POST_run (db : DB) :
  Admin.regenerate_POST env dep db =
  if KnowledgeRoute.unauthorized env
  then (Ok (Failure 401 "Unauthorized"), db, no_log)
  else
    match select_knowledge_fault dep with
    | Some _ => (Ok (Failure 500 "Failed to fetch entries"), db, no_log)
    | None =>
        match knowledge_base db with
        | [] => (Ok NoEntries, db, no_log)
        | _ :: _ =>
            (Ok (Regenerated
                   (length (filter (regenerable env dep) (knowledge_base db)))
                   (length (filter (fun r => negb (regenerable env dep r)) (knowledge_base db)))
                   (length (knowledge_base db))),
             {| knowledge_base :=
                  fold_left (regenerateStep env dep) (knowledge_base db) (knowledge_base db);
                admin_queue := admin_queue db |},
             only (map (fun r => EmbeddingsCreate embeddingModel (kb_question r))
                       (knowledge_base db)))
        end
    end.
Proof.
  unfold Admin.regenerate_POST.
  destruct (KnowledgeRoute.unauthorized env); [reflexivity|].
  destruct (select_knowledge_fault dep); [reflexivity|].
  unfold try_catch, bind at 1, get_db at 1. cbv zeta.
  destruct (knowledge_base db) as [|a kb] eqn:Hkb; [reflexivity|].
  change (length (a :: kb) =? 0)%nat with false. cbv iota.
  unfold bind at 1. rewrite regenerateEntries_run, Hkb.
  unfold ret. cbn iota beta. rewrite ?log_app_no_log_r, ?log_app_no_log_l.
  reflexivity.
Qed.

Lemma partition_length {A : Type} (p : A -> bool) (l : list A) :
  (length (filter p l) + length (filter (fun x => negb (p x)) l) = length l)%nat.
Proof.
  induction l as [|x l IH]; simpl; [reflexivity|].
  destruct (p x); simpl; lia.
Qed.

Lemma regenerateStep_content (kb : list KbRow) (a : KbRow) :
  map content (regenerateStep env dep kb a) = map content kb.
Proof.
  unfold regenerateStep. destruct (regeneratedFor env dep a) as [e|]; [|reflexivity].
  rewrite map_map. apply map_ext. intros r.
  now destruct (kb_id r =? kb_id a)%nat.
Qed.

Lemma regenerateSteps_content (entries kb : list KbRow) :
  map content (fold_left (regenerateStep env dep) entries kb) = map content kb.
Proof.
  revert kb. induction entries as [|a entries IH]; intros kb; simpl; [reflexivity|].
  now rewrite IH, regenerateStep_content.
Qed.

(** The loop, entry by entry: each row of the table is rewritten by the
    first fetched entry of its identifier, when the loop succeeds for it. *)
Lemma regenerateSteps_rows (entries kb : list KbRow) :
  NoDup (map kb_id entries) ->
  fold_left (regenerateStep env dep) entries kb =
  map (fun r =>
         match find (fun en => (kb_id en =? kb_id r)%nat) entries with
         | Some en =>
             match regeneratedFor env dep en with
             | Some e => Admin.reembedded env e r
             | None => r
             end
         | None => r
         end) kb.
Proof.
  revert kb. induction entries as [|a entries IH]; intros kb Hnd.
  - simpl. now rewrite map_id.
  - inversion Hnd as [|i ids Hnew Hnd']; subst. cbn [fold_left].
    rewrite (IH _ Hnd'). unfold regenerateStep at 1.
    assert (Hmiss : forall r, kb_id r = kb_id a ->
                      find (fun en => (kb_id en =? kb_id r)%nat) entries = None).
    { intros r Hr. destruct (find _ entries) as [en|] eqn:Hf; [|reflexivity].
      apply find_some in Hf. destruct Hf as [Hin Heq].
      apply Nat.eqb_eq in Heq. exfalso. apply Hnew.
      rewrite <- Hr, <- Heq. now apply in_map. }
    destruct (regeneratedFor env dep a) as [e|] eqn:Ha.
    + rewrite map_map. apply map_ext. intros r. cbn [find].
      rewrite (Nat.eqb_sym (kb_id a) (kb_id r)).
      destruct (Nat.eqb_spec (kb_id r) (kb_id a)) as [Heq|Hne].
      * rewrite Ha. now rewrite (Hmiss (Admin.reembedded env e r) Heq).
      * reflexivity.
    + apply map_ext. intros r. cbn [find].
      rewrite (Nat.eqb_sym (kb_id a) (kb_id r)).
      destruct (Nat.eqb_spec (kb_id r) (kb_id a)) as [Heq|Hne].
      * rewrite Ha. now rewrite (Hmiss r Heq).
      * reflexivity.
Qed.

Lemma find_own (l : list KbRow) (r : KbRow) :
  NoDup (map kb_id l) -> In r l ->
  find (fun en => (kb_id en =? kb_id r)%nat) l = Some r.
Proof.
  induction l as [|a l IH]; intros Hnd Hin; [destruct Hin|].
  inversion Hnd as [|i ids Hnew Hnd']; subst. cbn [find].
  destruct Hin as [->|Hin]; [now rewrite Nat.eqb_refl|].
  destruct (Nat.eqb_spec (kb_id a) (kb_id r)) as [Heq|Hne].
  - exfalso. apply Hnew. rewrite Heq. now apply in_map.
  - now apply IH.
Qed.

Lemma regeneratedFor_embeds (r : KbRow) (e : Embedding) :
  regeneratedFor env dep r = Some e -> embeds env (kb_question r) e.
Proof.
  unfold regeneratedFor, embeddingOf, embeds.
  destruct (embeddings_create env embeddingModel (kb_question r)) as [[|e' more]|x];
    try discriminate.
  destruct (update_embedding_fault dep (kb_id r)); [discriminate|].
  intros H. injection H as <-. now exists more.
Qed.

(** X22.  The regeneration never throws.  It answers 401 without a session,
    500 when the entries cannot be fetched and "no entries" on an empty
    table; otherwise it reports the entries it succeeded for, the others,
    and their total, which is the sum of the two and the size of the table.
    It makes one embedding call per entry, on the entry's question alone, in
    the order of the table, whatever fails on the way.  No entry is added or
    removed, no identifier, question or answer changes, and the queue is
    untouched. *)
Theorem regeneration_accounts_for_every_entry (db : DB) :
  let run := Admin.regenerate_POST env dep db in
  let kb := knowledge_base db in
  (exists reply, value run = Ok reply /\
     match reply with
     | Failure status _ =>
         (status = 401%nat /\ KnowledgeRoute.unauthorized env = true) \/
         (status = 500%nat /\ select_knowledge_fault dep <> None)
     | NoEntries => kb = []
     | Regenerated succeeded failed total =>
         succeeded = length (filter (regenerable env dep) kb) /\
         (succeeded + failed)%nat = total /\
         total = length kb /\
         all_events (log_of run) =
           map (fun r => EmbeddingsCreate embeddingModel (kb_question r)) kb
     | _ => False
     end) /\
  map content (knowledge_base (final_db run)) = map content kb /\
  admin_queue (final_db run) = admin_queue db.
Proof.
  cbv zeta. rewrite regenerate_POST_run.
  destruct (KnowledgeRoute.unauthorized env).
  { split; [eexists; split; [reflexivity|]; left; now split | now split]. }
  destruct (select_knowledge_fault dep) as [err|].
  { split; [eexists; split; [reflexivity|]; right; now split | now split]. }
  destruct (knowledge_base db) as [|a kb] eqn:Hkb.
  { split; [eexists; split; [reflexivity|]; reflexivity|].
    cbn [final_db fst snd]. rewrite Hkb. now split. }
  split.
  - eexists. split; [reflexivity|]. split; [reflexivity|].
    split; [apply partition_length|]. split; [reflexivity|].
    unfold all_events. cbn [log_of snd only main background concat].
    now rewrite app_nil_r.
  - cbn [final_db fst snd knowledge_base admin_queue].
    split; [apply regenerateSteps_content | reflexivity].
Qed.

(** X23.  On a table whose identifiers are distinct, a regeneration that
    runs rewrites exactly the entries it succeeds for: such an entry gets
    the embedding the provider returns for its own question and the current
    date; an entry whose embedding call or whose update fails stays as it
    was.  So when it succeeds for every entry, every entry ends with the
    embedding of its question. *)
Theorem regeneration_embeds_each_question (db : DB) :
  KnowledgeRoute.unauthorized env = false ->
  select_knowledge_fault dep = None ->
  NoDup (map kb_id (knowledge_base db)) ->
  let after := final_db (Admin.regenerate_POST env dep db) in
  knowledge_base after = map (regenerated env dep) (knowledge_base db) /\
  (forall r, In r (knowledge_base db) -> regenerable env dep r = false ->
     entry (kb_id r) after = Some r) /\
  (forallb (regenerable env dep) (knowledge_base db) = true ->
     forall r', In r' (knowledge_base after) ->
       exists e, kb_embedding r' = Some e /\ embeds env (kb_question r') e).
Proof.
  intros Hauth Hsel Hnd after.
  assert (Hkb : knowledge_base after = map (regenerated env dep) (knowledge_base db)).
  { unfold after. rewrite regenerate_POST_run, Hauth, Hsel.
    assert (Hrows : fold_left (regenerateStep env dep) (knowledge_base db) (knowledge_base db) =
                    map (regenerated env dep) (knowledge_base db)).
    { rewrite (regenerateSteps_rows _ _ Hnd). apply map_ext_in. intros r Hr.
      now rewrite (find_own _ r Hnd Hr). }
    destruct (knowledge_base db) as [|a kb] eqn:Hdb.
    - cbn [final_db fst snd]. now rewrite Hdb.
    - cbn [final_db fst snd knowledge_base]. exact Hrows. }
  split; [exact Hkb|]. split.
  - intros r Hr Hno. unfold entry. rewrite Hkb.
    assert (Hids : map kb_id (map (regenerated env dep) (knowledge_base db)) =
                   map kb_id (knowledge_base db)).
    { rewrite map_map. apply map_ext. intros x. unfold regenerated.
      now destruct (regeneratedFor env dep x). }
    assert (Hsame : regenerated env dep r = r).
    { unfold regenerated. unfold regenerable in Hno.
      now destruct (regeneratedFor env dep r). }
    apply find_own; [now rewrite Hids | rewrite <- Hsame; now apply in_map].
  - intros Hall r' Hr'. rewrite Hkb in Hr'. apply in_map_iff in Hr'.
    destruct Hr' as (r & <- & Hr).
    rewrite forallb_forall in Hall. specialize (Hall r Hr).
    unfold regenerable in Hall. unfold regenerated.
    destruct (regeneratedFor env dep r) as [e|] eqn:He; [|discriminate].
    exists e. split; [reflexivity|]. now apply regeneratedFor_embeds.
Qed.

End Regenerate.

Lemma regeneration_embeds_each_question_witness :
  KnowledgeRoute.unauthorized (Fixtures.streaming Fixtures.plainStream) = false /\
  select_knowledge_fault MoreFixtures2.working = None /\
  NoDup (map kb_id (knowledge_base MoreFixtures2.staleDb)) /\
  map kb_embedding
    (knowledge_base (final_db (Admin.regenerate_POST (Fixtures.streaming Fixtures.plainStream)
                                 MoreFixtures2.working MoreFixtures2.staleDb))) =
  [Some [1 # 1]; Some [2 # 1]].
Proof.
  assert (Hnd : NoDup (map kb_id (knowledge_base MoreFixtures2.staleDb))).
  { simpl. constructor; [simpl; intros [H|[]]; discriminate|].
    constructor; [intros []|constructor]. }
  split; [reflexivity|]. split; [reflexivity|]. split; [exact Hnd|].
  rewrite (proj1 (regeneration_embeds_each_question
                    (Fixtures.streaming Fixtures.plainStream) MoreFixtures2.working
                    MoreFixtures2.staleDb eq_refl eq_refl Hnd)).
  reflexivity.
Defined.

(** ** Markdown links *)

Lemma string_app_nil_r (s : string) : (s ++ "")%string = s.
Proof. induction s as [|c s IH]; simpl; [reflexivity | now rewrite IH]. Qed.

Lemma string_app_assoc (a b c : string) : ((a ++ b) ++ c)%string = (a ++ (b ++ c))%string.
Proof. induction a as [|x a IH]; simpl; [reflexivity | now rewrite IH]. Qed.

Lemma string_length_app (a b : string) :
  String.length (a ++ b) = (String.length a + String.length b)%nat.
Proof. induction a as [|x a IH]; simpl; [reflexivity | now rewrite IH]. Qed.

Lemma join_cons (x : string) (l : list string) :
  String.concat "" (x :: l) = (x ++ String.concat "" l)%string.
Proof. destruct l; simpl; [now rewrite string_app_nil_r | reflexivity]. Qed.

Lemma join_app (a b : list string) :
  String.concat "" (a ++ b) = (String.concat "" a ++ String.concat "" b)%string.
Proof.
  induction a as [|x a IH]; [reflexivity|].
  change ((x :: a) ++ b) with (x :: (a ++ b)).
  now rewrite !join_cons, IH, string_app_assoc.
Qed.

Lemma lacks_app (c : ascii) (a b : string) :
  lacks c (a ++ b) = lacks c a && lacks c b.
Proof.
  induction a as [|x a IH]; simpl; [reflexivity|].
  now rewrite IH, Bool.andb_assoc.
Qed.

Lemma upTo_spec (c : ascii) (s : string) :
  s = (fst (Markdown.upTo c s) ++ snd (Markdown.upTo c s))%string /\
  lacks c (fst (Markdown.upTo c s)) = true /\
  (snd (Markdown.upTo c s) = EmptyString \/
   exists rest, snd (Markdown.upTo c s) = String c rest).
Proof.
  induction s as [|d s IH]; simpl.
  - repeat split. now left.
  - destruct (Ascii.eqb_spec d c) as [->|Hne]; simpl.
    + repeat split. right. now exists s.
    + destruct (Markdown.upTo c s) as [a b]. simpl in *.
      destruct IH as (H1 & H2 & H3).
      split; [now f_equal|]. split; [|exact H3].
      rewrite H2. now destruct (Ascii.eqb_spec d c).
Qed.

Lemma upTo_lacks (c : ascii) (a rest : string) :
  lacks c a = true ->
  Markdown.upTo c (a ++ String c rest) = (a, String c rest).
Proof.
  induction a as [|d a IH]; simpl; intros H.
  - now rewrite Ascii.eqb_refl.
  - apply andb_prop in H. destruct H as [Hd Ha].
    destruct (Ascii.eqb d c); [discriminate|]. now rewrite (IH Ha).
Qed.

Ltac by_character c H :=
  destruct c as [[] [] [] [] [] [] [] []]; cbv iota beta in H; try discriminate H.

Lemma matchLink_spec (s linkText linkUrl rest : string) :
  Markdown.matchLink s = Some (linkText, linkUrl, rest) ->
  s = ("[" ++ linkText ++ "](" ++ linkUrl ++ ")" ++ rest)%string /\
  wellFormed (Markdown.Anchor 0 linkText linkUrl).
Proof.
  intros H. unfold Markdown.matchLink in H.
  destruct s as [|c0 afterOpen]; [discriminate|]. by_character c0 H.
  destruct (upTo_spec "]" afterOpen) as (E1 & L1 & _).
  destruct (Markdown.upTo "]" afterOpen) as [g1 b1]. cbn [fst snd] in E1, L1.
  destruct g1 as [|c t]; [discriminate|].
  destruct b1 as [|c1 b1]; [discriminate|]. by_character c1 H.
  destruct b1 as [|c2 afterParen]; [discriminate|]. by_character c2 H.
  destruct (upTo_spec ")" afterParen) as (E2 & L2 & _).
  destruct (Markdown.upTo ")" afterParen) as [g2 b2]. cbn [fst snd] in E2, L2.
  destruct g2 as [|d u]; [discriminate|].
  destruct b2 as [|c3 b2]; [discriminate|]. by_character c3 H.
  injection H as <- <- <-. subst afterOpen afterParen.
  split.
  - reflexivity.
  - simpl. repeat split; (discriminate || assumption).
Qed.

Lemma matchLink_link (linkText linkUrl rest : string) :
  wellFormed (Markdown.Anchor 0 linkText linkUrl) ->
  Markdown.matchLink ("[" ++ linkText ++ "](" ++ linkUrl ++ ")" ++ rest) =
  Some (linkText, linkUrl, rest).
Proof.
  intros (Ht & Lt & Hu & Lu). unfold Markdown.matchLink.
  change ("[" ++ linkText ++ "](" ++ linkUrl ++ ")" ++ rest)%string
    with (String "[" (linkText ++ String "]" (String "(" (linkUrl ++ String ")" rest)))).
  cbv iota beta. rewrite (upTo_lacks _ _ _ Lt).
  destruct linkText as [|c t]; [contradiction|]. cbv iota beta.
  rewrite (upTo_lacks _ _ _ Lu).
  destruct linkUrl as [|d u]; [contradiction|]. reflexivity.
Qed.

Lemma matchLink_other (c : ascii) (s : string) :
  Ascii.eqb c "[" = false -> Markdown.matchLink (String c s) = None.
Proof.
  intros H. destruct c as [[] [] [] [] [] [] [] []]; try reflexivity. discriminate H.
Qed.

Lemma flush_markdown (before : string) :
  String.concat "" (map Markdown.source (Markdown.flush before)) = before.
Proof. now destruct before. Qed.

Lemma scan_markdown (fuel : nat) (before s : string) (k : nat) :
  (String.length s <= fuel)%nat ->
  String.concat "" (map Markdown.source (Markdown.scan fuel before s k)) =
  (before ++ s)%string.
Proof.
  revert before s k. induction fuel as [|fuel IH]; intros before s k Hlen.
  - destruct s; [|simpl in Hlen; lia]. simpl Markdown.scan.
    now rewrite flush_markdown, string_app_nil_r.
  - cbn [Markdown.scan].
    destruct (Markdown.matchLink s) as [[[t u] rest]|] eqn:Hm.
    + apply matchLink_spec in Hm. destruct Hm as [-> _].
      rewrite map_app, join_app, flush_markdown. cbn [map]. rewrite join_cons.
      rewrite IH.
      * simpl. rewrite !string_app_assoc. simpl. rewrite !string_app_assoc.
        reflexivity.
      * simpl in Hlen. rewrite !string_length_app in Hlen. simpl in Hlen.
        rewrite !string_length_app in Hlen. simpl in Hlen. lia.
    + destruct s as [|c rest].
      * now rewrite flush_markdown, string_app_nil_r.
      * rewrite IH; [|simpl in Hlen; lia]. now rewrite string_app_assoc.
Qed.

Lemma matchLink_shorter (s linkText linkUrl rest : string) :
  Markdown.matchLink s = Some (linkText, linkUrl, rest) ->
  (String.length rest < String.length s)%nat.
Proof.
  intros H. apply matchLink_spec in H. destruct H as [-> _].
  simpl. rewrite !string_length_app. simpl. rewrite !string_length_app. simpl. lia.
Qed.

Lemma scan_fuel (fuel fuel' : nat) (before s : string) (k : nat) :
  (String.length s <= fuel)%nat -> (String.length s <= fuel')%nat ->
  Markdown.scan fuel before s k = Markdown.scan fuel' before s k.
Proof.
  revert fuel' before s k.
  induction fuel as [|fuel IH]; intros fuel' before s k H H'.
  - destruct s; [|simpl in H; lia]. now destruct fuel'.
  - destruct fuel' as [|fuel'].
    + destruct s; [|simpl in H'; lia]. reflexivity.
    + cbn [Markdown.scan].
      destruct (Markdown.matchLink s) as [[[t u] rest]|] eqn:Hm.
      * apply matchLink_shorter in Hm. f_equal. f_equal. apply IH; lia.
      * destruct s as [|c rest]; [reflexivity|]. simpl in H, H'. apply IH; lia.
Qed.

Lemma flush_rekey (n : nat) (before : string) :
  map (rekey n) (Markdown.flush before) = Markdown.flush before.
Proof. now destruct before. Qed.

Lemma scan_rekey (n fuel : nat) (before s : string) (k : nat) :
  Markdown.scan fuel before s (n + k) = map (rekey n) (Markdown.scan fuel before s k).
Proof.
  revert before s k. induction fuel as [|fuel IH]; intros before s k.
  - simpl. now rewrite flush_rekey.
  - cbn [Markdown.scan].
    destruct (Markdown.matchLink s) as [[[t u] rest]|].
    + rewrite map_app, flush_rekey. cbn [map rekey].
      now rewrite <- IH, Nat.add_succ_r.
    + destruct s as [|c rest]; [now rewrite flush_rekey | apply IH].
Qed.

Lemma scan_plain (pre : string) (fuel : nat) (before s : string) (k : nat) :
  lacks "[" pre = true ->
  (String.length pre + String.length s <= fuel)%nat ->
  Markdown.scan fuel before (pre ++ s) k =
  Markdown.scan (fuel - String.length pre) (before ++ pre) s k.
Proof.
  revert fuel before. induction pre as [|c pre IH]; intros fuel before Hl Hlen.
  - simpl. now rewrite Nat.sub_0_r, string_app_nil_r.
  - simpl in Hl. apply andb_prop in Hl. destruct Hl as [Hc Hl].
    apply Bool.negb_true_iff in Hc.
    destruct fuel as [|fuel]; [simpl in Hlen; lia|].
    change (String c pre ++ s)%string with (String c (pre ++ s)).
    cbn [Markdown.scan]. rewrite (matchLink_other _ _ Hc).
    rewrite (IH fuel _ Hl); [|simpl in Hlen; lia].
    now rewrite string_app_assoc.
Qed.

Lemma parts_parse (text : string) :
  Markdown.parts (Markdown.parseMarkdownLinks text) =
  Markdown.scan (String.length text) "" text 0.
Proof.
  unfold Markdown.parseMarkdownLinks.
  pose proof (scan_markdown (String.length text) "" text 0 (le_n _)) as Hrt.
  destruct (Markdown.scan (String.length text) "" text 0) as [|p [|q l]];
    try reflexivity.
  simpl in Hrt. now subst text.
Qed.

Lemma scan_wellFormed (fuel : nat) (before s : string) (k : nat) :
  Forall wellFormed (Markdown.scan fuel before s k).
Proof.
  assert (Hflush : forall b, Forall wellFormed (Markdown.flush b)).
  { intros [|c b]; repeat constructor. simpl. discriminate. }
  revert before s k. induction fuel as [|fuel IH]; intros before s k.
  - apply Hflush.
  - cbn [Markdown.scan].
    destruct (Markdown.matchLink s) as [[[t u] rest]|] eqn:Hm.
    + apply matchLink_spec in Hm. destruct Hm as [_ Hw].
      apply Forall_app. split; [apply Hflush|]. constructor; [exact Hw | apply IH].
    + destruct s as [|c rest]; [apply Hflush | apply IH].
Qed.

Lemma scan_keys (fuel : nat) (before s : string) (k : nat) :
  keys (Markdown.scan fuel before s k) =
  seq k (length (keys (Markdown.scan fuel before s k))).
Proof.
  assert (Hflush : forall b, keys (Markdown.flush b) = []) by now intros [|c b].
  revert before s k. induction fuel as [|fuel IH]; intros before s k.
  - simpl. now rewrite Hflush.
  - cbn [Markdown.scan].
    destruct (Markdown.matchLink s) as [[[t u] rest]|].
    + assert (Happ : keys (Markdown.flush before ++
                           Markdown.Anchor k t u :: Markdown.scan fuel "" rest (S k)) =
                     k :: keys (Markdown.scan fuel "" rest (S k))).
      { unfold keys. rewrite flat_map_app. fold (keys (Markdown.flush before)).
        now rewrite Hflush. }
      rewrite Happ. cbn [length seq]. f_equal. apply IH.
    + destruct s as [|c rest]; [now rewrite Hflush | apply IH].
Qed.

Lemma parse_link (pre linkText linkUrl rest : string) :
  lacks "[" pre = true ->
  wellFormed (Markdown.Anchor 0 linkText linkUrl) ->
  Markdown.parts
    (Markdown.parseMarkdownLinks
       (pre ++ "[" ++ linkText ++ "](" ++ linkUrl ++ ")" ++ rest)) =
  Markdown.flush pre ++
  Markdown.Anchor 0 linkText linkUrl ::
  map (rekey 1) (Markdown.parts (Markdown.parseMarkdownLinks rest)).
Proof.
  intros Hpre Hw. rewrite !parts_parse.
  set (link := ("[" ++ linkText ++ "](" ++ linkUrl ++ ")" ++ rest)%string).
  rewrite (scan_plain pre _ "" link 0 Hpre)
    by (rewrite string_length_app; lia).
  rewrite string_length_app, Nat.add_comm, Nat.add_sub.
  assert (Hlen : (String.length rest < String.length link)%nat).
  { apply (matchLink_shorter link linkText linkUrl rest). now apply matchLink_link. }
  destruct (String.length link) as [|fuel] eqn:Hfuel; [lia|].
  cbn [Markdown.scan]. unfold link at 1. rewrite (matchLink_link _ _ _ Hw).
  change ("" ++ pre)%string with pre. f_equal. f_equal.
  rewrite <- (scan_rekey 1 (String.length rest) "" rest 0).
  apply scan_fuel; lia.
Qed.

(** X24.  The parts of a text, written back as markdown and joined, are the
    text: the function drops no character and adds none. *)
Theorem markdown_round_trip (text : string) :
  Markdown.markdown (Markdown.parseMarkdownLinks text) = text.
Proof.
  unfold Markdown.markdown. rewrite parts_parse.
  now rewrite scan_markdown.
Qed.

(** X25.  Every part the function returns is well formed: a text part is
    never empty; the text of an anchor is not empty and holds no closing
    bracket, its address is not empty and holds no closing parenthesis.  The
    keys of the anchors count up from 0 in order.  There is no part at all
    only for the empty text. *)
Theorem parsed_parts_are_well_formed (text : string) :
  let ps := Markdown.parts (Markdown.parseMarkdownLinks text) in
  Forall wellFormed ps /\
  keys ps = seq 0 (length (keys ps)) /\
  (ps = [] <-> text = EmptyString).
Proof.
  cbv zeta. rewrite parts_parse.
  split; [apply scan_wellFormed|]. split; [apply scan_keys|].
  split.
  - intros H.
    pose proof (scan_markdown (String.length text) "" text 0 (le_n _)) as Hrt.
    rewrite H in Hrt. simpl in Hrt. now subst text.
  - now intros ->.
Qed.

(** X26.  A link that follows text without an opening bracket is found: the
    text before it is one part (none when empty), the link is the anchor of
    key 0, and what follows is parsed as it would be alone, with the keys of
    its anchors moved up by one.  A text without an opening bracket is
    returned as it is. *)
Theorem link_after_plain_text (pre linkText linkUrl rest : string) :
  lacks "[" pre = true ->
  (Markdown.parts (Markdown.parseMarkdownLinks pre) = Markdown.flush pre) /\
  (linkText <> EmptyString -> lacks "]" linkText = true ->
   linkUrl <> EmptyString -> lacks ")" linkUrl = true ->
   Markdown.parts
     (Markdown.parseMarkdownLinks
        (pre ++ "[" ++ linkText ++ "](" ++ linkUrl ++ ")" ++ rest)) =
   Markdown.flush pre ++
   Markdown.Anchor 0 linkText linkUrl ::
   map (rekey 1) (Markdown.parts (Markdown.parseMarkdownLinks rest))).
Proof.
  intros Hpre. split.
  - rewrite parts_parse.
    rewrite <- (string_app_nil_r pre) at 2.
    rewrite (scan_plain pre _ "" "" 0 Hpre) by (simpl; lia).
    rewrite Nat.sub_diag. reflexivity.
  - intros Ht Lt Hu Lu. apply parse_link; [exact Hpre | now repeat split].
Qed.

Lemma digits_lack_bracket (d : Decimal.uint) :
  lacks "[" (NilEmpty.string_of_uint d) = true.
Proof. induction d; simpl; auto. Qed.

(** X27.  A line of a source list, as the generators yield it, is shown as
    its number, the link and the line break -- provided the title is not
    empty and holds no closing bracket and the address is not empty and
    holds no closing parenthesis. *)
Theorem source_line_renders_as_link (i : nat) (s : Gemini.Source) :
  Gemini.title s <> EmptyString -> lacks "]" (Gemini.title s) = true ->
  Gemini.url s <> EmptyString -> lacks ")" (Gemini.url s) = true ->
  Markdown.parseMarkdownLinks (Gemini.sourceLine i s) =
  Markdown.Fragment
    [Markdown.Text (of_nat (i + 1) ++ ". ");
     Markdown.Anchor 0 (Gemini.title s) (Gemini.url s);
     Markdown.Text nl].
Proof.
  intros Ht Lt Hu Lu.
  assert (Hparts : Markdown.parts (Markdown.parseMarkdownLinks (Gemini.sourceLine i s)) =
                   [Markdown.Text (of_nat (i + 1) ++ ". ");
                    Markdown.Anchor 0 (Gemini.title s) (Gemini.url s);
                    Markdown.Text nl]).
  { unfold Gemini.sourceLine.
    change (of_nat (i + 1) ++ ". [" ++ Gemini.title s ++ "](" ++ Gemini.url s ++ ")" ++ nl)%string
      with (of_nat (i + 1) ++ (". " ++ ("[" ++ Gemini.title s ++ "](" ++ Gemini.url s ++ ")" ++ nl)))%string.
    rewrite <- string_app_assoc.
    rewrite parse_link; [| |now repeat split].
    - destruct (of_nat (i + 1)); reflexivity.
    - rewrite lacks_app. unfold of_nat. now rewrite digits_lack_bracket. }
  unfold Markdown.parseMarkdownLinks in *.
  destruct (Markdown.scan _ _ _ _) as [|p [|q l]]; simpl in Hparts.
  - destruct (Gemini.sourceLine i s); discriminate.
  - discriminate.
  - now rewrite Hparts.
Qed.

Lemma link_after_plain_text_witness :
  lacks "[" "See " = true /\
  Markdown.parts (Markdown.parseMarkdownLinks "See [docs](https://x.example).") =
  [Markdown.Text "See "; Markdown.Anchor 0 "docs" "https://x.example";
   Markdown.Text "."].
Proof.
  split; [reflexivity|].
  exact (proj2 (link_after_plain_text "See " "docs" "https://x.example" "." eq_refl)
           ltac:(discriminate) eq_refl ltac:(discriminate) eq_refl).
Defined.

Lemma source_line_renders_as_link_witness :
  Markdown.parseMarkdownLinks
    (Gemini.sourceLine 0 {| Gemini.title := "First"; Gemini.url := "https://a.example" |}) =
  Markdown.Fragment
    [Markdown.Text "1. "; Markdown.Anchor 0 "First" "https://a.example"; Markdown.Text nl].
Proof.
  exact (source_line_renders_as_link 0
           {| Gemini.title := "First"; Gemini.url := "https://a.example" |}
           ltac:(discriminate) eq_refl ltac:(discriminate) eq_refl).
Defined.
